(** * Fused multi-head attention operator (CPU): shape validation,
      weight pre-packing and the Q/K/V projection.

    Shallow embedding of
    [onnxruntime/contrib_ops/cpu/bert/attention.cc].

    Conventions of the embedding.
    - C++ integers are values of [Z].  Arithmetic on the 64-bit
      dimensions ([int64_t], [ptrdiff_t]) is written with the operations
      of [Z].  Arithmetic on [int] is checked: signed overflow is
      undefined in C++, so an [int] operation whose result does not fit
      32 bits makes the call undefined ([int_mul], [int_add]).  Integer
      division and remainder truncate towards zero ([Z.quot], [Z.rem]).
      Narrowing casts ([static_cast<int>]) and conversions to [size_t]
      are written out as wrap-arounds.
    - Undefined behaviour (a subscript out of range, a null pointer
      read, an [int] overflow) is the result [None].
    - [const Tensor*] is [option Tensor]; [nullptr] is [None].
    - A function that returns [Status] returns a [Result]: [Ok] carries
      the values the C++ function leaves in its locals or output
      parameters, [Error] carries the message of [ORT_MAKE_STATUS] and the
      values appended to it. *)

From stdpp Require Import base option list gmap strings.
From Stdlib Require Import ZArith Lia.
From Stdlib.Strings Require Import Byte.

Local Open Scope string_scope.
Local Open Scope Z_scope.

(** ** Tensors and status values *)

Definition TensorShape := list Z.

(** A tensor is seen through its shape and the address of its payload. *)
Record Tensor := mkTensor {
  Shape : TensorShape;
  DataPtr : Z
}.

Inductive Result (A : Type) : Type :=
| Ok (a : A)
| Error (msg : string) (args : list Z).
Arguments Ok {A} a.
Arguments Error {A} msg args.

Definition is_ok {A} (r : Result A) : bool :=
  match r with Ok _ => true | Error _ _ => false end.

Definition bind {A B} (r : Result A) (k : A -> Result B) : Result B :=
  match r with
  | Ok a => k a
  | Error msg args => Error msg args
  end.

(** [RETURN_IF c ERROR msg args ;; k]: the [if (c) return ORT_MAKE_STATUS(...)]
    guards of the source. *)
Notation "'RETURN_IF' c 'ERROR' msg args ;; k" :=
  (if (c : bool) then Error msg args else k)
  (at level 10, c at level 0, msg at level 0, args at level 0,
   k at level 200, only parsing).

(** [dims.size()] and [dims[i]].  [at_] is used where the source checks
    [size()] before it subscripts, so the default of [nth] is never read;
    an unchecked subscript is a lookup [!!] and [None] out of range. *)
Definition size (dims : list Z) : Z := Z.of_nat (length dims).
Definition at_ (dims : list Z) (i : nat) : Z := nth i dims 0.

Definition neq (a b : Z) : bool := negb (a =? b).
Infix "!=?" := neq (at level 70).

(** [static_cast<int>(x)] for a 64-bit [x]: the low 32 bits, read as a
    two's complement number. *)
Definition static_cast_int (x : Z) : Z :=
  (x + 2 ^ 31) mod 2 ^ 32 - 2 ^ 31.

(** The result of an operation on [int]: signed overflow is undefined
    behaviour, so there is a result only when it fits 32 bits. *)
Definition int_ (x : Z) : option Z :=
  if (- 2 ^ 31 <=? x) && (x <? 2 ^ 31) then Some x else None.
Definition int_mul (a b : Z) : option Z := int_ (a * b).
Definition int_add (a b : Z) : option Z := int_ (a + b).

(** ** AttentionBase *)

Record AttentionBase := mkAttentionBase {
  num_heads_ : Z;
  is_unidirectional_ : bool;
  qkv_hidden_sizes_ : list Z;
  use_merged_weights_ : bool
}.

(** The values [CheckInputs] holds in its locals when it returns
    [Status::OK()]. *)
Record Resolved := mkResolved {
  hidden_size_q : Z;
  hidden_size_k : Z;
  hidden_size_v : Z;
  target_sequence_length : Z;
  total_sequence_length : Z
}.

Module AttentionBase.

Section CheckInputs.
Variable self : AttentionBase.

(** Lines 122-155: the past/extra_add_qk exclusion and the ranks of
    input, weights and bias.  Returns (batch_size, sequence_length,
    input_hidden_size). *)
Definition check_shapes (input_shape weights_shape bias_shape : TensorShape)
    (past extra_add_qk : option Tensor) : Result (Z * Z * Z) :=
  RETURN_IF (bool_decide (past <> None) && bool_decide (extra_add_qk <> None))
    ERROR "Attention cannot have past sequence and extra add qk" [] ;;
  let dims := input_shape in
  RETURN_IF (size dims !=? 3)
    ERROR "Input 'input' is expected to have 3 dimensions, got " [size dims] ;;
  let batch_size := at_ dims 0 in
  let sequence_length := at_ dims 1 in
  let input_hidden_size := at_ dims 2 in
  let weights_dims := weights_shape in
  RETURN_IF (size weights_dims !=? 2)
    ERROR "Input 'weights' is expected to have 2 dimensions, got " [size weights_dims] ;;
  RETURN_IF (at_ weights_dims 0 !=? input_hidden_size)
    ERROR "Input 1 dimension 0 should have same length as dimension 2 of input 0" [] ;;
  let bias_dims := bias_shape in
  RETURN_IF (size bias_dims !=? 1)
    ERROR "Input 'bias' is expected to have 1 dimension, got " [size bias_dims] ;;
  RETURN_IF (at_ bias_dims 0 !=? at_ weights_dims 1)
    ERROR "Input 'bias' dimension 0 should have same length as dimension 1 of input 'weights'" [] ;;
  Ok (batch_size, sequence_length, input_hidden_size).

(** Lines 231-236: the divisibility loop over [qkv_hidden_sizes_]. *)
Fixpoint check_divisible (sizes : list Z) : Result unit :=
  match sizes with
  | [] => Ok tt
  | x :: rest =>
      RETURN_IF (Z.rem x (num_heads_ self) !=? 0)
        ERROR "hidden_size should be divisible by num_heads:" [x] ;;
      check_divisible rest
  end.

(** Lines 157-247: resolution of the three hidden sizes and of
    target_sequence_length.

    Line 160 reads [int64_t hidden_size_v = hidden_size_v;]: the
    variable is initialised from itself, so the value it holds until it
    is assigned is indeterminate.  That value is the explicit input
    [indeterminate_v] of the model. *)
Definition resolve_hidden_sizes (indeterminate_v : Z)
    (batch_size sequence_length input_hidden_size : Z)
    (weights_dims bias_dims : TensorShape)
    (key value weight_key weight_value : option Tensor)
    : Result (Z * Z * Z * Z) :=
  let target_sequence_length := sequence_length in
  let hidden_size_q := Z.quot (at_ bias_dims 0) 3 in
  let hidden_size_k := hidden_size_q in
  let hidden_size_v := indeterminate_v in
  if negb (use_merged_weights_ self) then
    match key, value, weight_key, weight_value with
    | Some key, Some value, Some weight_key, Some weight_value =>
        let key_dims := Shape key in
        RETURN_IF (size key_dims !=? 3)
          ERROR "Input 'key' is expected to have 3 dimensions, got " [size key_dims] ;;
        RETURN_IF (at_ key_dims 0 !=? batch_size)
          ERROR "Input 'key' dimension 0 should have same length as dimension 0 of input 0" [] ;;
        RETURN_IF (at_ key_dims 2 !=? input_hidden_size)
          ERROR "Input 'key' dimension 2 should have same length as dimension 2 of input 0" [] ;;
        let value_dims := Shape value in
        RETURN_IF (size value_dims !=? 3)
          ERROR "Input 'value' is expected to have 3 dimensions, got " [size value_dims] ;;
        RETURN_IF (at_ value_dims 0 !=? batch_size)
          ERROR "Input 'value' dimension 0 should have same length as dimension 0 of input 0" [] ;;
        RETURN_IF (at_ value_dims 1 !=? at_ key_dims 1)
          ERROR "Input 'key' and 'value' dimension 1 should have same length" [] ;;
        RETURN_IF (at_ value_dims 2 !=? input_hidden_size)
          ERROR "Input 'value' dimension 2 should have same length as dimension 2 of input 0" [] ;;
        let weight_key_dims := Shape weight_key in
        RETURN_IF (size weight_key_dims !=? 2)
          ERROR "Input 'weight_key' is expected to have 2 dimensions, got " [size weight_key_dims] ;;
        RETURN_IF (at_ weight_key_dims 0 !=? input_hidden_size)
          ERROR "Input 'weight_key' dimension 0 should have same length as dimension 2 of input 0" [] ;;
        let weight_value_dims := Shape weight_value in
        RETURN_IF (size weight_value_dims !=? 2)
          ERROR "Input 'weight_value' is expected to have 2 dimensions, got " [size weight_value_dims] ;;
        RETURN_IF (at_ weight_value_dims 0 !=? input_hidden_size)
          ERROR "Input 'weight_value' dimension 0 should have same length as dimension 2 of input 0" [] ;;
        Ok (at_ weights_dims 1, at_ weight_key_dims 1, at_ weight_value_dims 1,
            at_ key_dims 1)
    | _, _, _, _ =>
        Error "When merged_weights is 0, key, value, weight_key and weight_value are required" []
    end
  else (* merged weights *)
    if size (qkv_hidden_sizes_ self) !=? 0 then
      RETURN_IF (size (qkv_hidden_sizes_ self) !=? 3)
        ERROR "qkv_hidden_sizes attribute should have 3 elements" [] ;;
      bind (check_divisible (qkv_hidden_sizes_ self)) (fun _ =>
      let hidden_size_q := at_ (qkv_hidden_sizes_ self) 0 in
      let hidden_size_k := at_ (qkv_hidden_sizes_ self) 1 in
      let hidden_size_v := at_ (qkv_hidden_sizes_ self) 2 in
      RETURN_IF (hidden_size_q !=? hidden_size_k)
        ERROR "qkv_hidden_sizes first element should be same as the second" [] ;;
      Ok (hidden_size_q, hidden_size_k, hidden_size_v, target_sequence_length))
    else
      Ok (hidden_size_q, hidden_size_k, hidden_size_v, target_sequence_length).

(** Lines 250-253. *)
Definition check_bias_sum (bias_dims : TensorShape)
    (hidden_size_q hidden_size_k hidden_size_v : Z) : Result unit :=
  RETURN_IF (at_ bias_dims 0 !=? hidden_size_q + hidden_size_k + hidden_size_v)
    ERROR "Input 'bias' dimension 0 should have same length as sum of Q/K/V hidden sizes" [] ;;
  Ok tt.

(** Lines 249 and 255-287: returns total_sequence_length. *)
Definition check_past (past : option Tensor)
    (batch_size hidden_size_k hidden_size_v target_sequence_length : Z)
    : Result Z :=
  let total_sequence_length := target_sequence_length in
  match past with
  | Some past =>
      RETURN_IF (hidden_size_k !=? hidden_size_v)
        ERROR "Input 'past' expect hidden_size_k == hidden_size_v" [] ;;
      let past_dims := Shape past in
      RETURN_IF (size past_dims !=? 5)
        ERROR "Input 'past' is expected to have 5 dimension, got " [size past_dims] ;;
      RETURN_IF (at_ past_dims 0 !=? 2)
        ERROR "Inputs 'past' dimension 0 shall have length of 2" [] ;;
      RETURN_IF (at_ past_dims 1 !=? batch_size)
        ERROR "Inputs 'past' dimension 1 shall have same length as dimension 0 of input 0" [] ;;
      RETURN_IF (static_cast_int (at_ past_dims 2) !=? num_heads_ self)
        ERROR "Inputs 'past' dimension 2 shall have length of num_heads" [num_heads_ self] ;;
      RETURN_IF (static_cast_int (at_ past_dims 4) !=? Z.quot hidden_size_k (num_heads_ self))
        ERROR "Inputs 'past' dimension 2 shall have length of "
              [Z.quot hidden_size_k (num_heads_ self)] ;;
      let past_sequence_length := at_ past_dims 3 in
      Ok (total_sequence_length + past_sequence_length)
  | None => Ok total_sequence_length
  end.

(** Lines 289-333.  [mask_index] is a reference parameter: the first
    component is the value it holds afterwards. *)
Definition check_mask_index (mask_index : option Tensor)
    (batch_size sequence_length total_sequence_length : Z)
    : option Tensor * Result unit :=
  match mask_index with
  | Some mask =>
      let mask_dims := Shape mask in
      if size mask_dims =? 1 then
        if (at_ mask_dims 0 !=? batch_size) && (at_ mask_dims 0 !=? 2 * batch_size) then
          (mask_index,
           Error "Inputs 'mask_index' with 1D data shall have length of batch_size or 2 * batch_size" [])
        else (mask_index, Ok tt)
      else if size mask_dims =? 2 then
        if (at_ mask_dims 0 !=? batch_size) || (at_ mask_dims 1 !=? total_sequence_length) then
          if ((at_ mask_dims 0 =? batch_size) || (at_ mask_dims 0 =? 1))
             && (at_ mask_dims 1 =? 1) then
            (None, Ok tt)
          else
            (mask_index,
             Error "Inputs 'mask_index' with 2D data shall have shape batch_size x total_sequence_length" [])
        else (mask_index, Ok tt)
      else if size mask_dims =? 3 then
        if (at_ mask_dims 0 !=? batch_size) || (at_ mask_dims 1 !=? sequence_length)
           || (at_ mask_dims 2 !=? total_sequence_length) then
          (mask_index,
           Error "Inputs 'mask_index' with 3D data shall have shape batch_size x sequence_length x total_sequence_length" [])
        else (mask_index, Ok tt)
      else if size mask_dims =? 4 then
        if (at_ mask_dims 0 !=? batch_size) || (at_ mask_dims 1 !=? 1)
           || (at_ mask_dims 2 !=? at_ mask_dims 3)
           || (at_ mask_dims 2 <? total_sequence_length) then
          (mask_index,
           Error "Inputs 'mask_index' with 4D data shall have shape batch_size x 1 x max_sequence_length x max_sequence_length)" [])
        else if is_unidirectional_ self then
          (mask_index,
           Error "Inputs 'mask_index' with 4D data shall have is_unidirectional_ set to false" [])
        else (mask_index, Ok tt)
      else
        (mask_index,
         Error "Input 'mask_index' is expected to have 1, 2, 3 or 4 dimensions, got " [size mask_dims])
  | None => (mask_index, Ok tt)
  end.

(** Lines 335-364. *)
Definition check_extra_add_qk (extra_add_qk : option Tensor)
    (batch_size sequence_length : Z) : Result unit :=
  match extra_add_qk with
  | Some extra_add_qk =>
      let extra_add_qk_dims := Shape extra_add_qk in
      RETURN_IF (size extra_add_qk_dims !=? 4)
        ERROR "Input 'extra_add_qk' is expected to have 4 dimensions, got "
              [size extra_add_qk_dims] ;;
      RETURN_IF (at_ extra_add_qk_dims 0 !=? batch_size)
        ERROR "Input 'extra_add_qk' dimension 0 should be same as batch_size, got "
              [at_ extra_add_qk_dims 0] ;;
      RETURN_IF (at_ extra_add_qk_dims 1 !=? num_heads_ self)
        ERROR "Input 'extra_add_qk' dimension 1 should be same as number of heads, got "
              [at_ extra_add_qk_dims 1] ;;
      RETURN_IF (at_ extra_add_qk_dims 2 !=? sequence_length)
        ERROR "Input 'extra_add_qk' dimension 2 should be same as sequence_length, got "
              [at_ extra_add_qk_dims 2] ;;
      RETURN_IF (at_ extra_add_qk_dims 3 !=? sequence_length)
        ERROR "Input 'extra_add_qk' dimension 3 should be same as sequence_length, got "
              [at_ extra_add_qk_dims 3] ;;
      Ok tt
  | None => Ok tt
  end.

(** [AttentionBase::CheckInputs], the ten-argument overload (lines
    61-367).  The first component of the result is the value of the
    reference parameter [mask_index] on return. *)
Definition CheckInputs (indeterminate_v : Z)
    (input_shape weights_shape bias_shape : TensorShape)
    (mask_index past extra_add_qk key value weight_key weight_value : option Tensor)
    : option Tensor * Result Resolved :=
  match check_shapes input_shape weights_shape bias_shape past extra_add_qk with
  | Error msg args => (mask_index, Error msg args)
  | Ok (batch_size, sequence_length, input_hidden_size) =>
  match resolve_hidden_sizes indeterminate_v batch_size sequence_length
          input_hidden_size weights_shape bias_shape
          key value weight_key weight_value with
  | Error msg args => (mask_index, Error msg args)
  | Ok (hidden_size_q, hidden_size_k, hidden_size_v, target_sequence_length) =>
  match check_bias_sum bias_shape hidden_size_q hidden_size_k hidden_size_v with
  | Error msg args => (mask_index, Error msg args)
  | Ok _ =>
  match check_past past batch_size hidden_size_k hidden_size_v
          target_sequence_length with
  | Error msg args => (mask_index, Error msg args)
  | Ok total_sequence_length =>
  match check_mask_index mask_index batch_size sequence_length
          total_sequence_length with
  | (mask_index, Error msg args) => (mask_index, Error msg args)
  | (mask_index, Ok _) =>
  match check_extra_add_qk extra_add_qk batch_size sequence_length with
  | Error msg args => (mask_index, Error msg args)
  | Ok _ =>
      (mask_index,
       Ok (mkResolved hidden_size_q hidden_size_k hidden_size_v
             target_sequence_length total_sequence_length))
  end end end end end end.

(** The overload that bounds [num_heads_] first (lines 369-382). *)
Definition CheckInputs_max_threads (indeterminate_v : Z)
    (input_shape weights_shape bias_shape : TensorShape)
    (mask_index past extra_add_qk : option Tensor)
    (max_threads_per_block : Z) : option Tensor * Result Resolved :=
  if num_heads_ self >? max_threads_per_block then
    (mask_index, Error "num_heads should be no larger than " [max_threads_per_block])
  else
    CheckInputs indeterminate_v input_shape weights_shape bias_shape
      mask_index past extra_add_qk None None None None.

End CheckInputs.

End AttentionBase.

(** ** GetPresent *)

(** A call either returns or leaves through [ORT_THROW]. *)
Inductive Outcome (A : Type) : Type :=
| Returns (a : A)
| Throws (msg : string).
Arguments Returns {A} a.
Arguments Throws {A} msg.

Module GetPresent.

Section GetPresent.
Variable self : AttentionBase.
(** [context->Output(index, shape)]: the output binding of the call.  It
    yields no tensor when the output slot is not bound. *)
Variable Output : Z -> TensorShape -> option Tensor.

(** Lines 401-407, after [present_dims] and [past_sequence_length] have
    been computed. *)
Definition bind_present (past : option Tensor) (present_dims : list Z)
    (past_sequence_length : Z) : Outcome (option Tensor * Z) :=
  let present_shape := present_dims in
  let present := Output 1 present_shape in
  if bool_decide (past <> None) && bool_decide (present = None) then
    Throws "Expect to have present state output when past state input is given"
  else Returns (present, past_sequence_length).

(** [AttentionBase::GetPresent] (lines 384-408).  [past_sequence_length]
    is a reference parameter: the second component of the value returned
    is what it holds on return.  [past_dims[3]] is read without a check
    of the rank: the result is [None] when the subscript is out of
    range (undefined behaviour in C++). *)
Definition GetPresent (past : option Tensor)
    (batch_size head_size sequence_length : Z) (past_sequence_length : Z)
    : option (Outcome (option Tensor * Z)) :=
  let present_dims := [2; batch_size; num_heads_ self; sequence_length; head_size] in
  match past with
  | Some p =>
      let past_dims := Shape p in
      match past_dims !! 3%nat with
      | Some past_dims_3 =>
          let past_sequence_length := static_cast_int past_dims_3 in
          let present_dims :=
            <[3%nat := at_ present_dims 3 + past_dims_3]> present_dims in
          Some (bind_present past present_dims past_sequence_length)
      | None => None
      end
  | None => Some (bind_present past present_dims past_sequence_length)
  end.
End GetPresent.

End GetPresent.

(** ** Buffers, the allocator and the vendor routines *)

(** [size_t] is 64 bits wide. *)
Definition to_size_t (x : Z) : Z := x mod 2 ^ 64.

(** A [BufferUniquePtr] owns the allocation at the address it holds, or is
    null. *)
Definition BufferUniquePtr := option nat.

(** The memory handed out by allocators: the bytes of every live
    allocation, and the address the next allocation gets. *)
Record Heap := mkHeap {
  live : gmap nat (list byte);
  next_addr : nat
}.

(** Modelled from the spec: the allocator ([IAllocator], behind
    [AllocatorPtr]) is not under src/; per the spec it offers an
    overflow-checked array allocation that returns raw byte ranges.  The
    model describes the calls in which the allocation succeeds: the range
    has [nmemb * size] bytes, and what they hold is whatever the allocator
    finds there, [garbage]. *)
Record AllocatorPtr := mkAllocator {
  garbage : nat -> nat -> byte
}.

Definition AllocArray (alloc : AllocatorPtr) (nmemb size : Z) (h : Heap)
    : nat * Heap :=
  let p := next_addr h in
  let bytes := map (garbage alloc p) (seq 0 (Z.to_nat (nmemb * size))) in
  (p, mkHeap (<[p := bytes]> (live h)) (S p)).

(** [unique_ptr::reset()]: the deleter gives the allocation back. *)
Definition reset (p : BufferUniquePtr) (h : Heap) : Heap :=
  match p with
  | Some a => mkHeap (delete a (live h)) (next_addr h)
  | None => h
  end.

(** A write through a raw pointer into the allocation at [p]. *)
Definition poke (p : nat) (f : list byte -> list byte) (h : Heap) : Heap :=
  mkHeap (alter f p (live h)) (next_addr h).

(** The bytes a [BufferUniquePtr] points to. *)
Definition bytes_of (h : Heap) (p : BufferUniquePtr) : option (list byte) :=
  match p with
  | Some a => live h !! a
  | None => None
  end.

Definition memset (c : byte) (n : Z) (buf : list byte) : list byte :=
  repeat c (Z.to_nat n) ++ drop (Z.to_nat n) buf.

(** The routine [f] rewrites, in place, the [len] bytes of [buf] that
    start at offset [off]. *)
Definition write_range (buf : list byte) (off len : Z)
    (f : list byte -> list byte) : list byte :=
  take (Z.to_nat off) buf
  ++ f (take (Z.to_nat len) (drop (Z.to_nat off) buf))
  ++ drop (Z.to_nat (off + len)) buf.

(** [PrePackedWeights]: the record through which packed buffers are handed
    to the caller for sharing between sessions. *)
Record PrePackedWeights := mkPrePackedWeights {
  buffers_ : list BufferUniquePtr;
  buffer_sizes_ : list Z
}.

(** A C array of three elements ([BufferUniquePtr packed_weights_[3]],
    [size_t packed_weights_size_[3]], [qkv_head_size[3]], [QKV[3]]).  A
    subscript outside 0..2 is undefined behaviour: [get3] gives [None]. *)
Record Array3 (A : Type) := mkArray3 { elt0 : A; elt1 : A; elt2 : A }.
Arguments mkArray3 {A} elt0 elt1 elt2.
Arguments elt0 {A} a.
Arguments elt1 {A} a.
Arguments elt2 {A} a.

Definition get3 {A} (a : Array3 A) (i : Z) : option A :=
  if i =? 0 then Some (elt0 a)
  else if i =? 1 then Some (elt1 a)
  else if i =? 2 then Some (elt2 a)
  else None.

Definition set3 {A} (a : Array3 A) (i : Z) (x : A) : option (Array3 A) :=
  if i =? 0 then Some (mkArray3 x (elt1 a) (elt2 a))
  else if i =? 1 then Some (mkArray3 (elt0 a) x (elt2 a))
  else if i =? 2 then Some (mkArray3 (elt0 a) (elt1 a) x)
  else None.

(** [static void FreePackedWeights(BufferUniquePtr* array, size_t array_size)]
    (lines 18-22): [array[i].reset()] for [i] from [0] to [array_size - 1]. *)
Fixpoint FreePackedWeights_from (n : nat) (i : Z)
    (array : Array3 BufferUniquePtr) (h : Heap)
    : option (Array3 BufferUniquePtr * Heap) :=
  match n with
  | O => Some (array, h)
  | S n' =>
      p ← get3 array i;
      array' ← set3 array i None;
      FreePackedWeights_from n' (i + 1) array' (reset p h)
  end.

Definition FreePackedWeights (array : Array3 BufferUniquePtr) (array_size : Z)
    (h : Heap) : option (Array3 BufferUniquePtr * Heap) :=
  FreePackedWeights_from (Z.to_nat array_size) 0 array h.

(** ** The operator [Attention<T>] *)

(** The data members of [Attention<T>] (lines 44-47), with the attributes
    of its base class. *)
Record Attention := mkAttention {
  base : AttentionBase;
  packed_weights_ : Array3 BufferUniquePtr;
  packed_weights_size_ : Array3 Z;
  is_prepack_ : bool;
  weight_shape_ : TensorShape
}.

(** The operator as its constructor leaves it (the member initialisers of
    lines 44-47). *)
Definition constructed (info : AttentionBase) : Attention :=
  mkAttention info (mkArray3 None None None) (mkArray3 0 0 0) false [].

Definition set_packed_weights_ (st : Attention) (a : Array3 BufferUniquePtr) :=
  mkAttention (base st) a (packed_weights_size_ st) (is_prepack_ st) (weight_shape_ st).
Definition set_packed_weights_size_ (st : Attention) (a : Array3 Z) :=
  mkAttention (base st) (packed_weights_ st) a (is_prepack_ st) (weight_shape_ st).
Definition set_is_prepack_ (st : Attention) (b : bool) :=
  mkAttention (base st) (packed_weights_ st) (packed_weights_size_ st) b (weight_shape_ st).
Definition set_weight_shape_ (st : Attention) (s : TensorShape) :=
  mkAttention (base st) (packed_weights_ st) (packed_weights_size_ st) (is_prepack_ st) s.

(** What [PrePack] leaves behind: the status it returns, the operator, the
    heap, and the output parameters [is_packed] and [prepacked_weights]. *)
Record PrePacked := mkPrePacked {
  pp_status : Result unit;
  pp_self : Attention;
  pp_heap : Heap;
  pp_is_packed : bool;
  pp_prepacked_weights : option PrePackedWeights
}.

Module Attention.

Section Kernel.
(** The element type [T] of the operator, and the read-only memory that
    holds the payloads of the input tensors: [tensor.Data<T>()] is the
    address [DataPtr tensor], and [p[i]] is [ram (p + i)]. *)
Variable T : Type.
Variable ram : Z -> T.

(** *** The vendor linear-algebra routines

    They are not under src/ and enter the model as parameters.
    - [MlasGemmPackBSize N K]: the bytes one packed [K x N] operand
      takes; [0] when packing is not available.
    - [MlasGemmPackB N K B ldb]: packs the [K x N] block of [ram] that
      starts at address [B] with row stride [ldb]; it is given the
      bytes of the destination as it finds them and returns them as it
      leaves them.
    - [MlasGemm_packed M N K A lda PackedB C ldc]: [C += A * B] for a
      packed [B], given the bytes from the pointer [PackedB] on.
    - [multiply_accumulate c a b]: the value the general multiply with
      [alpha = beta = 1] leaves in a cell that held [c], for the row [a]
      of [A] and the column [b] of [B]. *)
Variable MlasGemmPackBSize : Z -> Z -> Z.
Variable MlasGemmPackB : Z -> Z -> (Z -> T) -> Z -> Z -> list byte -> list byte.
Variable MlasGemm_packed :
  Z -> Z -> Z -> (Z -> T) -> Z -> Z -> list byte -> (Z -> T) -> Z -> Z -> (Z -> T).
Variable multiply_accumulate : T -> list T -> list T -> T.

(** *** Pre-packing *)

(** The loop of lines 438-442 over the heads, on the bytes of the
    buffer: [packed_weights_data] is the offset of the destination in
    the buffer, [weights_data] the address of the source. *)
Fixpoint pack_heads (n : nat) (head_size input_hidden_size : Z)
    (weights_data weight_matrix_col_size : Z)
    (packb_size packed_weights_data : Z) (buf : list byte) : list byte :=
  match n with
  | O => buf
  | S n' =>
      let buf :=
        write_range buf packed_weights_data packb_size
          (MlasGemmPackB head_size input_hidden_size ram weights_data
             weight_matrix_col_size) in
      pack_heads n' head_size input_hidden_size
        (weights_data + head_size) weight_matrix_col_size
        packb_size (packed_weights_data + packb_size) buf
  end.

(** [Attention<T>::IsPackWeightsSuccessful] (lines 415-449). *)
Definition IsPackWeightsSuccessful (st : Attention) (h : Heap)
    (qkv_index : Z) (alloc : AllocatorPtr)
    (head_size input_hidden_size weights_data weight_matrix_col_size : Z)
    (prepacked_weights : option PrePackedWeights)
    : option (bool * Attention * Heap * option PrePackedWeights) :=
  let packb_size := MlasGemmPackBSize head_size input_hidden_size in
  if packb_size =? 0 then Some (false, st, h, prepacked_weights)
  else
    let loop_len := to_size_t (num_heads_ (base st)) in
    let packed_weights_data_size := packb_size * loop_len in
    let '(packed_weights_data, h) := AllocArray alloc packb_size loop_len h in
    let h := poke packed_weights_data (memset x00 packed_weights_data_size) h in
    (* packed_weights_[qkv_index] = BufferUniquePtr(packed_weights_data, ...) *)
    old ← get3 (packed_weights_ st) qkv_index;
    let h := reset old h in
    slots ← set3 (packed_weights_ st) qkv_index (Some packed_weights_data);
    let st := set_packed_weights_ st slots in
    sizes ← set3 (packed_weights_size_ st) qkv_index packb_size;
    let st := set_packed_weights_size_ st sizes in
    let h :=
      poke packed_weights_data
        (pack_heads (Z.to_nat loop_len) head_size input_hidden_size
           weights_data weight_matrix_col_size packb_size 0) h in
    match prepacked_weights with
    | Some pw =>
        (* buffers_.push_back(std::move(packed_weights_[qkv_index])) *)
        moved ← get3 (packed_weights_ st) qkv_index;
        slots ← set3 (packed_weights_ st) qkv_index None;
        let st := set_packed_weights_ st slots in
        let pw :=
          mkPrePackedWeights (buffers_ pw ++ [moved])
            (buffer_sizes_ pw ++ [packed_weights_data_size]) in
        Some (true, st, h, Some pw)
    | None => Some (true, st, h, None)
    end.

(** Lines 477-505 of [PrePack]: the three hidden sizes.  The outer
    [option] is [None] when [qkv_hidden_sizes_] is subscripted out of
    range; the inner one is [None] when [PrePack] returns without
    packing. *)
Definition pack_hidden_sizes (self : AttentionBase) (weights_dims : TensorShape)
    : option (option (Z * Z * Z)) :=
  let num_heads := to_size_t (num_heads_ self) in
  if size (qkv_hidden_sizes_ self) !=? 0 then
    q ← qkv_hidden_sizes_ self !! 0%nat;
    k ← qkv_hidden_sizes_ self !! 1%nat;
    v ← qkv_hidden_sizes_ self !! 2%nat;
    let q_hidden_size := to_size_t q in
    let k_hidden_size := to_size_t k in
    let v_hidden_size := to_size_t v in
    if (q_hidden_size =? 0) || (k_hidden_size =? 0) || (v_hidden_size =? 0) then
      Some None
    else if (Z.rem q_hidden_size num_heads !=? 0)
            || (Z.rem k_hidden_size num_heads !=? 0)
            || (Z.rem v_hidden_size num_heads !=? 0) then
      Some None
    else Some (Some (q_hidden_size, k_hidden_size, v_hidden_size))
  else
    let hidden_size_x3 := to_size_t (at_ weights_dims 1) in
    let hidden_size := Z.quot hidden_size_x3 3 in
    if Z.rem hidden_size num_heads !=? 0 then Some None
    else Some (Some (hidden_size, hidden_size, hidden_size)).

(** [Attention<T>::PrePack] (lines 451-524).  [None]: the call runs
    into undefined behaviour (a subscript out of range). *)
Definition PrePack (st : Attention) (h : Heap) (weights : Tensor)
    (input_idx : Z) (alloc : AllocatorPtr)
    (prepacked_weights : option PrePackedWeights) : option PrePacked :=
  let is_packed := false in
  if 1 !=? input_idx then
    Some (mkPrePacked (Ok tt) st h is_packed prepacked_weights)
  else
  let st := set_weight_shape_ st (Shape weights) in
  let weights_dims := weight_shape_ st in
  if size weights_dims !=? 2 then
    Some (mkPrePacked (Ok tt) st h is_packed prepacked_weights)
  else
  let weights_data := DataPtr weights in
  let input_hidden_size := to_size_t (at_ weights_dims 0) in
  sizes ← pack_hidden_sizes (base st) weights_dims;
  match sizes with
  | None => Some (mkPrePacked (Ok tt) st h is_packed prepacked_weights)
  | Some (q_hidden_size, k_hidden_size, v_hidden_size) =>
  let num_heads := to_size_t (num_heads_ (base st)) in
  let qkv_head_size :=
    mkArray3 (Z.quot q_hidden_size num_heads) (Z.quot k_hidden_size num_heads)
             (Z.quot v_hidden_size num_heads) in
  let weight_matrix_col_size :=
    to_size_t (q_hidden_size + k_hidden_size + v_hidden_size) in
  let failed st h prepacked_weights :=
    match prepacked_weights with
    | None =>
        '(slots, h) ← FreePackedWeights (packed_weights_ st)
                         (size (qkv_hidden_sizes_ (base st))) h;
        Some (mkPrePacked (Ok tt) (set_packed_weights_ st slots) h
                is_packed prepacked_weights)
    | Some _ => Some (mkPrePacked (Ok tt) st h is_packed prepacked_weights)
    end in
  '(ok, st, h, prepacked_weights) ←
    IsPackWeightsSuccessful st h 0 alloc (elt0 qkv_head_size) input_hidden_size
      weights_data weight_matrix_col_size prepacked_weights;
  if negb ok then failed st h prepacked_weights else
  '(ok, st, h, prepacked_weights) ←
    IsPackWeightsSuccessful st h 1 alloc (elt1 qkv_head_size) input_hidden_size
      (weights_data + to_size_t (num_heads * elt0 qkv_head_size))
      weight_matrix_col_size prepacked_weights;
  if negb ok then failed st h prepacked_weights else
  '(ok, st, h, prepacked_weights) ←
    IsPackWeightsSuccessful st h 2 alloc (elt2 qkv_head_size) input_hidden_size
      (weights_data
       + to_size_t (num_heads * to_size_t (elt0 qkv_head_size + elt1 qkv_head_size)))
      weight_matrix_col_size prepacked_weights;
  if negb ok then failed st h prepacked_weights else
  let is_packed := true in
  let st := set_is_prepack_ st true in
  Some (mkPrePacked (Ok tt) st h is_packed prepacked_weights)
  end.

(** [Attention<T>::UseSharedPrePackedBuffers] (lines 526-540).  The
    result holds the status, the operator, the heap, the vector
    [prepacked_buffers] (its elements are moved from) and the output
    parameter [used_shared_buffers]; [None] when the vector is
    subscripted out of range. *)
Definition UseSharedPrePackedBuffers (st : Attention) (h : Heap)
    (prepacked_buffers : list BufferUniquePtr) (input_idx : Z)
    (used_shared_buffers : bool)
    : option (Result unit * Attention * Heap * list BufferUniquePtr * bool) :=
  if 1 !=? input_idx then
    Some (Ok tt, st, h, prepacked_buffers, used_shared_buffers)
  else
    let used_shared_buffers := true in
    (* packed_weights_[i] = std::move(prepacked_buffers[i]) *)
    let move_in (i : nat) (acc : Attention * Heap * list BufferUniquePtr) :=
      let '(st, h, bufs) := acc in
      p ← bufs !! i;
      old ← get3 (packed_weights_ st) (Z.of_nat i);
      slots ← set3 (packed_weights_ st) (Z.of_nat i) p;
      Some (set_packed_weights_ st slots, reset old h, <[i := None]> bufs) in
    acc ← move_in 0%nat (st, h, prepacked_buffers);
    acc ← move_in 1%nat acc;
    '(st, h, bufs) ← move_in 2%nat acc;
    Some (Ok tt, st, h, bufs, used_shared_buffers).

(** *** Compute: the Q/K/V projection *)

(** [memcpy(dest, src, n * sizeof(T))] from the inputs into the scratch
    buffer: [n] elements. *)
Definition memcpy (mem : Z -> T) (dest src n : Z) : Z -> T :=
  fun p => if (dest <=? p) && (p <? dest + n) then ram (src + (p - dest)) else mem p.

(** The broadcast loop of lines 658-661. *)
Fixpoint broadcast (n : nat) (broadcast_data_dest broadcast_data_src head_size : Z)
    (mem : Z -> T) : Z -> T :=
  match n with
  | O => mem
  | S n' =>
      broadcast n' (broadcast_data_dest + head_size) broadcast_data_src head_size
        (memcpy mem broadcast_data_dest broadcast_data_src head_size)
  end.

(** Modelled from the spec: [math::GemmEx] is not under src/; per the
    spec it is the general strided multiply-accumulate
    [C = alpha * A * B + beta * C], called here with no transposition
    and [alpha = beta = 1].  [A] is [M x K] with row stride [lda], [B] is
    [K x N] with row stride [ldb], [C] is [M x N] with row stride [ldc]. *)
Definition GemmEx (M N K : Z) (A lda B ldb : Z) (mem : Z -> T) (C ldc : Z)
    : Z -> T :=
  fun p =>
    let r := p - C in
    let m := r / ldc in
    let n := r mod ldc in
    if (0 <=? r) && (0 <? ldc) && (m <? M) && (n <? N) then
      multiply_accumulate (mem p)
        (map (fun k => ram (A + m * lda + k)) (seqZ 0 K))
        (map (fun k => ram (B + k * ldb + n)) (seqZ 0 K))
    else mem p.

(** The variables the lambda of lines 632-704 captures. *)
Record Captured := mkCaptured {
  sequence_length : Z;
  input_hidden_size : Z;
  q_hidden_size : Z;
  k_hidden_size : Z;
  v_hidden_size : Z;
  qkv_head_size : Array3 Z;
  QKV : Array3 Z;
  input_data : Z;
  weights_data : option Z;
  bias_data : Z
}.

(** One iteration of the loop of lines 633-703: the work unit [i], on
    the scratch buffer [mem].  The index [i] is a [ptrdiff_t]; the
    offsets are computed in [int], one operation after the other as the
    source writes them.  [None]: undefined behaviour (an [int] overflow,
    a null pointer read, or a division by zero). *)
Definition qkv_unit (st : Attention) (h : Heap) (c : Captured) (i : Z)
    (mem : Z -> T) : option (Z -> T) :=
  let num_heads_ := num_heads_ (base st) in
  let batch_index := static_cast_int (Z.quot (Z.quot i 3) num_heads_) in
  let head_index := static_cast_int (Z.rem (Z.quot i 3) num_heads_) in
  let qkv_index := static_cast_int (Z.rem i 3) in
  (* int input_offset = batch_index * sequence_length * input_hidden_size *)
  input_rows ← int_mul batch_index (sequence_length c);
  input_offset ← int_mul input_rows (input_hidden_size c);
  qkv_dest ← get3 (QKV c) qkv_index;
  head_size ← get3 (qkv_head_size c) qkv_index;
  (* int bias_offset = qkv_index * q_hidden_size + head_index * head_size *)
  branch_start ← int_mul qkv_index (q_hidden_size c);
  head_start ← int_mul head_index head_size;
  bias_offset ← int_add branch_start head_start;
  weights_offset ←
    (if negb (is_prepack_ st) then Some bias_offset
     else int_mul head_index head_size);
  (* int qkv_offset = (batch_index * num_heads_ + head_index)
                      * (sequence_length * head_size) *)
  block ← int_mul batch_index num_heads_;
  block ← int_add block head_index;
  block_size ← int_mul (sequence_length c) head_size;
  qkv_offset ← int_mul block block_size;
  let broadcast_data_src := bias_data c + bias_offset in
  let broadcast_data_dest := qkv_dest + qkv_offset in
  let mem :=
    broadcast (Z.to_nat (sequence_length c)) broadcast_data_dest
      broadcast_data_src head_size mem in
  if is_prepack_ st then
    slot ← get3 (packed_weights_ st) qkv_index;
    buffer ← bytes_of h slot;
    packb_size ← get3 (packed_weights_size_ st) qkv_index;
    if head_size =? 0 then None else
    let packed_weight :=
      drop (Z.to_nat (to_size_t (packb_size * Z.quot weights_offset head_size)))
        buffer in
    Some (MlasGemm_packed (sequence_length c) head_size (input_hidden_size c)
            ram (input_data c + input_offset) (input_hidden_size c)
            packed_weight mem (qkv_dest + qkv_offset) head_size)
  else
    weights_data ← weights_data c;
    (* ldb = q_hidden_size + k_hidden_size + v_hidden_size *)
    qk_hidden_size ← int_add (q_hidden_size c) (k_hidden_size c);
    ldb ← int_add qk_hidden_size (v_hidden_size c);
    Some (GemmEx (sequence_length c) head_size (input_hidden_size c)
            (input_data c + input_offset) (input_hidden_size c)
            (weights_data + weights_offset) ldb
            mem (qkv_dest + qkv_offset) head_size).

(** Modelled from the spec: [ThreadPool::TryParallelFor] is not under
    src/; per the spec it executes every unit of [0 .. total-1] exactly
    once and returns when all have completed.  [order] is the order in
    which the pool happens to run them. *)
Fixpoint TryParallelFor (order : list Z) (fn : Z -> (Z -> T) -> option (Z -> T))
    (mem : Z -> T) : option (Z -> T) :=
  match order with
  | [] => Some mem
  | i :: rest => mem ← fn i mem; TryParallelFor rest fn mem
  end.

(** The call context: the input tensors by slot, the output binding, the
    status of [GetTempSpaceAllocator], and the order in which the thread
    pool of the call runs [total] units. *)
Record OpKernelContext := mkContext {
  Input : Z -> option Tensor;
  Output : Z -> TensorShape -> option Tensor;
  GetTempSpaceAllocator : Result unit;
  schedule : Z -> list Z
}.

(** The projection as [Compute] leaves it for the scoring engine: the
    effective mask, the scratch buffer, the positions of Q, K and V in
    it, and the other arguments of the call of [ApplyAttention]. *)
Record Projection := mkProjection {
  mask_index : option Tensor;
  gemm_buffer : Z -> T;
  captured : Captured;
  batch_size : Z;
  output : option Tensor
}.

(** Lines 569-605 of [Compute]: the hidden sizes.  [qkv_hidden_sizes_] is
    subscripted without a check of its size: [None] when the subscript is
    out of range. *)
Definition compute_hidden_sizes (self : AttentionBase) (weights_shape : TensorShape)
    : option (Z * (Z * Z * Z)) :=
  let qkv_hidden_sizes_ := qkv_hidden_sizes_ self in
  hidden_size ←
    (if size qkv_hidden_sizes_ =? 0 then
       let weights_dims := weights_shape in
       Some (Z.quot (static_cast_int (at_ weights_dims 1)) 3)
     else static_cast_int <$> qkv_hidden_sizes_ !! 2%nat);
  if size qkv_hidden_sizes_ =? 0 then
    Some (hidden_size, (hidden_size, hidden_size, hidden_size))
  else
    q ← qkv_hidden_sizes_ !! 0%nat;
    k ← qkv_hidden_sizes_ !! 1%nat;
    v ← qkv_hidden_sizes_ !! 2%nat;
    Some (hidden_size, (static_cast_int q, static_cast_int k, static_cast_int v)).

(** Lines 543-705 of [Attention<T>::Compute]: everything before the call
    of [ApplyAttention].  [gemm_data] is the scratch allocation as the
    allocator hands it out; the model describes the calls in which that
    allocation succeeds.  Its size is computed with [SafeInt<size_t>],
    which does not wrap, so in those calls the [size_t] products that
    give the positions of K and V do not wrap either and are written
    with the operations of [Z].  [None]: undefined behaviour. *)
Definition Compute_projection (st : Attention) (h : Heap) (indeterminate_v : Z)
    (context : OpKernelContext) (gemm_data : Z -> T)
    : option (Result Projection) :=
  input ← Input context 0;
  let weights := if is_prepack_ st then None else Input context 1 in
  bias ← Input context 2;
  let mask_index := Input context 3 in
  let past := Input context 4 in
  let extra_add_qk := Input context 5 in
  let key := Input context 6 in
  let value := Input context 7 in
  let weight_key := Input context 8 in
  let weight_value := Input context 9 in
  let weights_shape :=
    match weights with Some w => Shape w | None => weight_shape_ st end in
  match AttentionBase.CheckInputs (base st) indeterminate_v (Shape input)
          weights_shape (Shape bias) mask_index past extra_add_qk
          key value weight_key weight_value with
  | (_, Error msg args) => Some (Error msg args)
  | (mask_index, Ok _) =>
      let shape := Shape input in
      let batch_size := static_cast_int (at_ shape 0) in
      let sequence_length := static_cast_int (at_ shape 1) in
      let input_hidden_size := static_cast_int (at_ shape 2) in
      let num_heads_ := num_heads_ (base st) in
      '(hidden_size, (q_hidden_size, k_hidden_size, v_hidden_size)) ←
        compute_hidden_sizes (base st) weights_shape;
      let output := Output context 0 [at_ shape 0; at_ shape 1; hidden_size] in
      let qkv_head_size :=
        mkArray3 (Z.quot q_hidden_size num_heads_) (Z.quot k_hidden_size num_heads_)
                 (Z.quot v_hidden_size num_heads_) in
      match GetTempSpaceAllocator context with
      | Error msg args => Some (Error msg args)
      | Ok _ =>
          (* int qkv_hidden_size = q_hidden_size + k_hidden_size + v_hidden_size *)
          qk_hidden_size ← int_add q_hidden_size k_hidden_size;
          qkv_hidden_size ← int_add qk_hidden_size v_hidden_size;
          let Q := 0 in
          let K := Q + batch_size * sequence_length * q_hidden_size in
          let V := K + batch_size * sequence_length * k_hidden_size in
          let QKV := mkArray3 Q K V in
          (* const int loop_len = 3 * batch_size * num_heads_ *)
          batches_x3 ← int_mul 3 batch_size;
          loop_len ← int_mul batches_x3 num_heads_;
          let c :=
            mkCaptured sequence_length input_hidden_size q_hidden_size
              k_hidden_size v_hidden_size qkv_head_size QKV (DataPtr input)
              (DataPtr <$> weights) (DataPtr bias) in
          mem ← TryParallelFor (schedule context loop_len) (qkv_unit st h c) gemm_data;
          Some (Ok (mkProjection mask_index mem c batch_size output))
      end
  end.

(** The scoring engine ([AttentionCPUBase::ApplyAttention]) is not under
    src/; the spec treats it as a black box that returns a status. *)
Variable ApplyAttention :
  (Z -> T) -> Z -> Z -> Z -> option Tensor -> option Tensor -> option Tensor ->
  Z -> Z -> Z -> Z -> Z -> option Tensor -> OpKernelContext -> Result unit.

(** [Attention<T>::Compute] (lines 542-712). *)
Definition Compute (st : Attention) (h : Heap) (indeterminate_v : Z)
    (context : OpKernelContext) (gemm_data : Z -> T) : option (Result unit) :=
  r ← Compute_projection st h indeterminate_v context gemm_data;
  match r with
  | Error msg args => Some (Error msg args)
  | Ok p =>
      let c := captured p in
      Some (ApplyAttention (gemm_buffer p)
              (elt0 (QKV c)) (elt1 (QKV c)) (elt2 (QKV c))
              (mask_index p) (Input context 4) (output p)
              (batch_size p) (sequence_length c)
              (elt0 (qkv_head_size c)) (elt2 (qkv_head_size c)) (v_hidden_size c)
              (Input context 5) context)
  end.

End Kernel.

End Attention.

(** ** Definitions used to state the properties *)

(** [contains needle hay]: [needle] occurs in [hay]. *)
Fixpoint contains (needle hay : string) : bool :=
  match hay with
  | EmptyString => String.prefix needle hay
  | String _ rest => String.prefix needle hay || contains needle rest
  end.

(** The result is an error whose message names the operand ['name']. *)
Definition names_operand {A} (name : string) (r : Result A) : bool :=
  match r with
  | Ok _ => false
  | Error msg _ => contains ("'" ++ name ++ "'")%string msg
  end.

(** The messages of the two checks the properties single out. *)
Definition past_and_extra_add_qk_message : string :=
  "Attention cannot have past sequence and extra add qk".
Definition bias_sum_message : string :=
  "Input 'bias' dimension 0 should have same length as sum of Q/K/V hidden sizes".

(** The configuration of the concrete scenario of the specification:
    batch 1, sequence length 2, input hidden size 4, two heads, merged
    weight [4 x 12], bias of length 12, no [qkv_hidden_sizes]. *)
Definition scenario : AttentionBase := mkAttentionBase 2 false [] true.

(** A configuration with explicit hidden sizes summing to 12. *)
Definition explicit_4_4_4 : AttentionBase := mkAttentionBase 2 false [4; 4; 4] true.

(** The mismatched configuration of the specification:
    [qkv_hidden_sizes = [64; 64; 64]], to be used with a bias of length
    300. *)
Definition explicit_64_64_64 : AttentionBase :=
  mkAttentionBase 8 false [64; 64; 64] true.

(** The length of the past state along the sequence axis; [0] without a
    past state. *)
Definition past_length (past : option Tensor) : Z :=
  match past with
  | Some p => at_ (Shape p) 3
  | None => 0
  end.

(** A call context that supplies input, weights, bias, a past state and
    an extra additive bias. *)
Definition context_with_past_and_extra : Attention.OpKernelContext :=
  Attention.mkContext
    (fun slot =>
       if slot =? 0 then Some (mkTensor [1; 2; 4] 0)
       else if slot =? 1 then Some (mkTensor [4; 12] 100)
       else if slot =? 2 then Some (mkTensor [12] 200)
       else if slot =? 4 then Some (mkTensor [2; 1; 2; 3; 2] 300)
       else if slot =? 5 then Some (mkTensor [1; 2; 2; 2] 400)
       else None)
    (fun _ _ => None)
    (Ok tt)
    (fun total => seqZ 0 total).

(** An output binding with and without a present-state slot. *)
Definition output_bound (slot : Z) (shape : TensorShape) : option Tensor :=
  Some (mkTensor shape (1000 + slot)).
Definition output_unbound (slot : Z) (shape : TensorShape) : option Tensor := None.

(** An address is live when the heap holds an allocation there; a slot
    array holds an address when one of its three pointers is that
    address. *)
Definition is_live (h : Heap) (a : nat) : Prop := is_Some (live h !! a).

Definition held (slots : Array3 BufferUniquePtr) (a : nat) : Prop :=
  elt0 slots = Some a \/ elt1 slots = Some a \/ elt2 slots = Some a.

(** *** A small vendor, for concrete runs

    Elements are booleans, stored one per byte; a packed [K x N] operand
    is the block copied row by row without gaps; the multiply-accumulate
    is the one of the two-element field. *)
Definition byte_of_bool (b : bool) : byte := if b then x01 else x00.
Definition bool_of_byte (b : byte) : bool :=
  match b with x00 => false | _ => true end.

Definition toy_PackBSize (N K : Z) : Z := Z.max 0 (N * K).

Definition toy_PackB (N K : Z) (ram : Z -> bool) (B ldb : Z) (dest : list byte)
    : list byte :=
  map (fun idx => byte_of_bool (ram (B + (idx / N) * ldb + idx mod N)))
      (seqZ 0 (N * K)).

Definition toy_multiply_accumulate (c : bool) (a b : list bool) : bool :=
  fold_left xorb (zip_with andb a b) c.

Definition toy_Gemm_packed (M N K : Z) (ram : Z -> bool) (A lda : Z)
    (PackedB : list byte) (mem : Z -> bool) (C ldc : Z) : Z -> bool :=
  fun p =>
    let r := p - C in
    let m := r / ldc in
    let n := r mod ldc in
    if (0 <=? r) && (0 <? ldc) && (m <? M) && (n <? N) then
      toy_multiply_accumulate (mem p)
        (map (fun k => ram (A + m * lda + k)) (seqZ 0 K))
        (map (fun k => bool_of_byte (nth (Z.to_nat (k * N + n)) PackedB x00))
             (seqZ 0 K))
    else mem p.

(** A size function that cannot pack operands three columns wide. *)
Definition no_three_PackBSize (N K : Z) : Z := if N =? 3 then 0 else toy_PackBSize N K.

(** An operator whose value branch has heads three columns wide. *)
Definition explicit_4_4_6 : AttentionBase := mkAttentionBase 2 false [4; 4; 6] true.

Definition toy_ram (p : Z) : bool := Z.odd p || Z.odd (p / 3).
Definition toy_alloc : AllocatorPtr := mkAllocator (fun _ _ => xff).
Definition empty_heap : Heap := mkHeap ∅ 0.

(** The bytes of one packed buffer: the heads packed one after the other
    into a buffer of zeros. *)
Definition packed_image (T : Type) (ram : Z -> T)
    (MlasGemmPackBSize : Z -> Z -> Z)
    (MlasGemmPackB : Z -> Z -> (Z -> T) -> Z -> Z -> list byte -> list byte)
    (num_heads : Z) (head_size input_hidden_size weights_data ldb : Z) : list byte :=
  let packb_size := MlasGemmPackBSize head_size input_hidden_size in
  let loop_len := to_size_t num_heads in
  Attention.pack_heads T ram MlasGemmPackB (Z.to_nat loop_len) head_size
    input_hidden_size weights_data ldb packb_size 0
    (repeat x00 (Z.to_nat (packb_size * loop_len))).

(** The shareable record a caller passes to [PrePack] when it asks for
    sharing; no record otherwise. *)
Definition fresh_record (shared : bool) : option PrePackedWeights :=
  if shared then Some (mkPrePackedWeights [] []) else None.

(** The bytes of the packed buffers a call of [PrePack] produced, read
    from the shareable record when there is one and from the operator
    otherwise. *)
Definition packed_buffers (r : PrePacked) : list (option (list byte)) :=
  match pp_prepacked_weights r with
  | Some record => map (bytes_of (pp_heap r)) (buffers_ record)
  | None =>
      let slots := packed_weights_ (pp_self r) in
      map (bytes_of (pp_heap r)) [elt0 slots; elt1 slots; elt2 slots]
  end.

(** A second allocator, which leaves other bytes in what it hands out,
    and a heap that already holds allocations. *)
Definition other_alloc : AllocatorPtr :=
  mkAllocator (fun a i => if Nat.even (a + i) then x5a else xa5).
Definition busy_heap : Heap := mkHeap {[ 2%nat := [x01; x02] ]} 7.

(** *** The projection, stated independently of the loop

    A configuration as the specification describes it: the dimensions of
    the activations, the number of heads, the head size of each branch
    and where the three operands are in memory. *)
Record Geometry := mkGeometry {
  g_batch : Z;
  g_sequence : Z;
  g_input_hidden : Z;
  g_heads : Z;
  g_head_q : Z;
  g_head_k : Z;
  g_head_v : Z;
  g_input : Z;
  g_weights : Z;
  g_bias : Z
}.

(** Branch 0 is Q, branch 1 is K, any other is V. *)
Definition head_size_of (g : Geometry) (branch : Z) : Z :=
  if branch =? 0 then g_head_q g
  else if branch =? 1 then g_head_k g
  else g_head_v g.

(** The column at which a branch starts in the bias and in a row of the
    merged weight. *)
Definition start_of (g : Geometry) (branch : Z) : Z :=
  if branch =? 0 then 0
  else if branch =? 1 then g_heads g * g_head_q g
  else g_heads g * g_head_q g + g_heads g * g_head_k g.

(** The combined width [hidden_q + hidden_k + hidden_v]. *)
Definition total_hidden (g : Geometry) : Z :=
  g_heads g * g_head_q g + g_heads g * g_head_k g + g_heads g * g_head_v g.

(** Where the activations of a branch start in the scratch buffer: Q,
    then K, then V. *)
Definition region_of (g : Geometry) (branch : Z) : Z :=
  let rows := g_batch g * g_sequence g in
  if branch =? 0 then 0
  else if branch =? 1 then rows * (g_heads g * g_head_q g)
  else rows * (g_heads g * g_head_q g) + rows * (g_heads g * g_head_k g).

(** The position of element [(batch, head, s, j)] of a branch, laid out
    as [batch, num_heads, sequence_length, head_size]. *)
Definition dest_index (g : Geometry) (branch batch head s j : Z) : Z :=
  region_of g branch
  + ((batch * g_heads g + head) * g_sequence g + s) * head_size_of g branch + j.

(** The spec's words for one work unit: the bias slice of (branch, head),
    plus row [s] of [input[batch]] times column [j] of the weight slice of
    (branch, head), accumulated onto the bias. *)
Definition projected (T : Type) (ram : Z -> T)
    (multiply_accumulate : T -> list T -> list T -> T)
    (g : Geometry) (branch batch head s j : Z) : T :=
  let column := start_of g branch + head * head_size_of g branch + j in
  multiply_accumulate
    (ram (g_bias g + column))
    (map (fun k => ram (g_input g + (batch * g_sequence g + s) * g_input_hidden g + k))
         (seqZ 0 (g_input_hidden g)))
    (map (fun k => ram (g_weights g + k * total_hidden g + column))
         (seqZ 0 (g_input_hidden g))).

(** The variables the loop of [Compute] captures for such a
    configuration. *)
Definition capture_of (g : Geometry) (weights_data : option Z) : Attention.Captured :=
  Attention.mkCaptured
    (g_sequence g) (g_input_hidden g)
    (g_heads g * g_head_q g) (g_heads g * g_head_k g) (g_heads g * g_head_v g)
    (mkArray3 (g_head_q g) (g_head_k g) (g_head_v g))
    (mkArray3 (region_of g 0) (region_of g 1) (region_of g 2))
    (g_input g) weights_data (g_bias g).

(** The invariants of a normalized configuration that the projection
    relies on: positive head count, non-negative dimensions, equal query
    and key sizes, and a loop count that fits the [int] it is held in. *)
Definition valid_geometry (g : Geometry) : Prop :=
  0 < g_heads g
  /\ 0 <= g_batch g /\ 0 <= g_sequence g /\ 0 <= g_input_hidden g
  /\ 0 <= g_head_q g /\ 0 <= g_head_k g /\ 0 <= g_head_v g
  /\ g_head_q g = g_head_k g
  /\ 3 * g_batch g * g_heads g < 2 ^ 31.

(** The offsets that the loop of [Compute] computes in [int] fit: the
    combined width, and for every work unit (batch, head, branch) the
    offset of the batch in the input and the offset of the unit in its
    region of the scratch buffer, with the products they are computed
    from. *)
Definition offsets_fit_int (g : Geometry) : Prop :=
  total_hidden g < 2 ^ 31
  /\ forall batch head branch,
       0 <= batch < g_batch g -> 0 <= head < g_heads g -> 0 <= branch < 3 ->
       let H := head_size_of g branch in
       batch * g_sequence g < 2 ^ 31
       /\ batch * g_sequence g * g_input_hidden g < 2 ^ 31
       /\ g_sequence g * H < 2 ^ 31
       /\ (batch * g_heads g + head) * (g_sequence g * H) < 2 ^ 31.

(** The work unit [i] stands for. *)
Definition branch_of (i : Z) : Z := i mod 3.
Definition head_of (g : Geometry) (i : Z) : Z := (i / 3) mod g_heads g.
Definition batch_of (g : Geometry) (i : Z) : Z := (i / 3) / g_heads g.

(** The scratch positions unit [i] owns. *)
Definition unit_start (g : Geometry) (i : Z) : Z :=
  dest_index g (branch_of i) (batch_of g i) (head_of g i) 0 0.
Definition in_unit (g : Geometry) (i p : Z) : Prop :=
  unit_start g i <= p
  < unit_start g i + g_sequence g * head_size_of g (branch_of i).

(** The value unit [i] leaves at the position [p] it owns. *)
Definition unit_value (T : Type) (ram : Z -> T)
    (multiply_accumulate : T -> list T -> list T -> T)
    (g : Geometry) (i p : Z) : T :=
  let H := head_size_of g (branch_of i) in
  projected T ram multiply_accumulate g (branch_of i) (batch_of g i) (head_of g i)
    ((p - unit_start g i) / H) ((p - unit_start g i) mod H).

#[global] Instance in_unit_dec g i p : Decision (in_unit g i p).
Proof. unfold in_unit. apply _. Defined.

(** A unit function behaves as the specification says when, on every
    valid index, it returns a buffer that holds the projected values on
    the positions the unit owns and is unchanged elsewhere. *)
Definition unit_meets_spec (T : Type) (ram : Z -> T)
    (multiply_accumulate : T -> list T -> list T -> T) (g : Geometry)
    (fn : Z -> (Z -> T) -> option (Z -> T)) : Prop :=
  forall i mem,
    0 <= i < 3 * g_batch g * g_heads g ->
    exists mem',
      fn i mem = Some mem'
      /\ forall p,
           mem' p = if decide (in_unit g i p)
                    then unit_value T ram multiply_accumulate g i p
                    else mem p.

(** The operands of a call are those of the configuration [g]: the
    attributes, the shape of the input, the shape of the merged weight
    (the rows of the weight are as wide as the three hidden sizes
    together), where input and bias are in memory, and dimensions that
    fit the [int] variables of [Compute]. *)
Definition describes (info : AttentionBase) (input bias : Tensor)
    (weights_shape : TensorShape) (g : Geometry) : Prop :=
  num_heads_ info = g_heads g
  /\ Shape input = [g_batch g; g_sequence g; g_input_hidden g]
  /\ DataPtr input = g_input g
  /\ DataPtr bias = g_bias g
  /\ weights_shape = [g_input_hidden g; total_hidden g]
  /\ (g_batch g < 2 ^ 31 /\ g_sequence g < 2 ^ 31 /\ g_input_hidden g < 2 ^ 31
      /\ total_hidden g < 2 ^ 31)
  /\ ((qkv_hidden_sizes_ info = []
       /\ g_head_k g = g_head_q g /\ g_head_v g = g_head_q g)
      \/ qkv_hidden_sizes_ info
         = [g_heads g * g_head_q g; g_heads g * g_head_k g; g_heads g * g_head_v g]).

(** The concrete scenario of the specification: batch 1, sequence length
    2, input hidden size 4, two heads of size 2 in each branch; input at
    address 0, the [4 x 12] weight at 100, the bias at 200. *)
Definition scenario_geometry : Geometry := mkGeometry 1 2 4 2 2 2 2 0 100 200.
Definition scenario_input : Tensor := mkTensor [1; 2; 4] 0.
Definition scenario_weights : Tensor := mkTensor [4; 12] 100.
Definition scenario_bias : Tensor := mkTensor [12] 200.

(** A call with these three operands and nothing else, on a pool that
    happens to run the units from the last to the first. *)
Definition scenario_context : Attention.OpKernelContext :=
  Attention.mkContext
    (fun slot =>
       if slot =? 0 then Some scenario_input
       else if slot =? 1 then Some scenario_weights
       else if slot =? 2 then Some scenario_bias
       else None)
    (fun slot shape => Some (mkTensor shape (1000 + slot)))
    (Ok tt)
    (fun total => rev (seqZ 0 total)).

(** The packed sub-buffers of the heads of one branch, in order: head
    [j] packs the columns that start at [weights_data + j * head_size]. *)
Fixpoint head_chunks (T : Type) (ram : Z -> T)
    (MlasGemmPackB : Z -> Z -> (Z -> T) -> Z -> Z -> list byte -> list byte)
    (n : nat) (head_size input_hidden_size weights_data ldb packb_size : Z)
    : list (list byte) :=
  match n with
  | O => []
  | S n' =>
      MlasGemmPackB head_size input_hidden_size ram weights_data ldb
        (repeat x00 (Z.to_nat packb_size))
      :: head_chunks T ram MlasGemmPackB n' head_size input_hidden_size
           (weights_data + head_size) ldb packb_size
  end.




(** ** Definitions used to state further properties *)

(** The legal shapes of a mask, relative to the batch size, the sequence
    length and the total sequence length. *)
Definition legal_mask_shape (unidirectional : bool)
    (batch_size sequence_length total_sequence_length : Z) (dims : list Z) : Prop :=
  (exists d, dims = [d] /\ (d = batch_size \/ d = 2 * batch_size))
  \/ dims = [batch_size; total_sequence_length]
  \/ dims = [batch_size; sequence_length; total_sequence_length]
  \/ (exists max_len,
         dims = [batch_size; 1; max_len; max_len]
         /\ total_sequence_length <= max_len
         /\ unidirectional = false).

(** The first element of a list that the number of heads does not
    divide. *)
Fixpoint first_indivisible (num_heads : Z) (sizes : list Z) : option Z :=
  match sizes with
  | [] => None
  | x :: rest =>
      if Z.rem x num_heads =? 0 then first_indivisible num_heads rest else Some x
  end.

(** An operator with separate weights for Q, K and V. *)
Definition separate_weights : AttentionBase := mkAttentionBase 2 false [] false.

(** * The decoding-loop subgraph

    Shallow embedding of
    [onnxruntime/contrib_ops/cpu/transformers/subgraph_base.cc]: the
    class [Subgraph], which wraps the subgraph a generation operator
    runs at every step. *)

Module Subgraph.

(** [ONNX_NAMESPACE::TensorShapeProto]: a list of dimensions.  A
    dimension either carries a value or does not (a symbolic or unknown
    dimension); [dim_value()] of a dimension without a value is 0.
    [dim i] is used where the source checks [dim_size()] before it
    subscripts, so the default of [nth] is never read. *)
Definition Dimension := option Z.
Definition TensorShapeProto := list Dimension.

Definition dim_size (shape : TensorShapeProto) : Z := Z.of_nat (length shape).
Definition dim (shape : TensorShapeProto) (i : nat) : Dimension := nth i shape None.
Definition has_dim_value (d : Dimension) : bool :=
  match d with Some _ => true | None => false end.
Definition dim_value (d : Dimension) : Z :=
  match d with Some v => v | None => 0 end.

(** A [NodeArg] is seen through its name; a [Node] through its implicit
    inputs; a [GraphViewer] through the inputs and outputs of the
    graph. *)
Record NodeArg := mkNodeArg { Name : string }.
Record Node := mkNode { ImplicitInputDefs : list NodeArg }.
Record GraphViewer := mkGraphViewer {
  GetInputs : list NodeArg;
  GetOutputs : list NodeArg
}.

Section Subgraph.
(** The session state, the devices and memory locations and the
    feeds/fetches manager are not under src/ and enter the model as
    parameters.
    - [device location]: the member [device] of an [OrtMemoryInfo].
    - [OrtDevice_default]: a default-constructed [OrtDevice], which
      [std::vector::resize] fills new elements with.
    - [FindMemoryInfoForValue session_state name]: the location of a
      value; the model describes the calls in which the lookup succeeds.
    - [Create feed_names output_names session_state]: the status of
      [FeedsFetchesManager::Create] and the manager it makes; the name
      map it is given is the one of [session_state].
    - [InitializeFeedFetchCopyInfo session_state ffm]: the manager as
      the call leaves it, and its status.
    - [FinalizeFeedFetchCopyInfo ffm feed_locations fetch_locations]:
      the manager as the call leaves it. *)
Variable SessionState : Type.
Variable OrtDevice : Type.
Variable OrtMemoryInfo : Type.
Variable FeedsFetchesManager : Type.
Variable device : OrtMemoryInfo -> OrtDevice.
Variable OrtDevice_default : OrtDevice.
Variable FindMemoryInfoForValue : SessionState -> string -> OrtMemoryInfo.
Variable Create :
  list string -> list string -> SessionState -> Result FeedsFetchesManager.
Variable InitializeFeedFetchCopyInfo :
  SessionState -> FeedsFetchesManager -> FeedsFetchesManager * Result unit.
Variable FinalizeFeedFetchCopyInfo :
  FeedsFetchesManager -> list OrtDevice -> list OrtMemoryInfo -> FeedsFetchesManager.

(** The data members of [Subgraph] that the functions of this file read
    or write. *)
Record Subgraph := mkSubgraph {
  node : Node;
  attribute : string;
  subgraph : GraphViewer;
  num_implicit_inputs : Z;
  num_subgraph_inputs : Z;
  num_subgraph_outputs : Z;
  subgraph_input_names : list string;
  subgraph_output_names : list string;
  num_heads : Z;
  head_size : Z;
  vocab_size : Z;
  num_layers : Z;
  allocator_ : option AllocatorPtr;
  is_output_float16_ : bool;
  session_state_ : option SessionState;
  subgraph_session_state_ : option SessionState;
  feeds_fetches_manager_ : option FeedsFetchesManager
}.

Definition set_num_heads_head_size (self : Subgraph) (heads head : Z) : Subgraph :=
  mkSubgraph (node self) (attribute self) (subgraph self)
    (num_implicit_inputs self) (num_subgraph_inputs self) (num_subgraph_outputs self)
    (subgraph_input_names self) (subgraph_output_names self)
    heads head (vocab_size self) (num_layers self)
    (allocator_ self) (is_output_float16_ self)
    (session_state_ self) (subgraph_session_state_ self)
    (feeds_fetches_manager_ self).

Definition set_vocab_size (self : Subgraph) (vocab : Z) : Subgraph :=
  mkSubgraph (node self) (attribute self) (subgraph self)
    (num_implicit_inputs self) (num_subgraph_inputs self) (num_subgraph_outputs self)
    (subgraph_input_names self) (subgraph_output_names self)
    (num_heads self) (head_size self) vocab (num_layers self)
    (allocator_ self) (is_output_float16_ self)
    (session_state_ self) (subgraph_session_state_ self)
    (feeds_fetches_manager_ self).

Definition set_session_states (self : Subgraph)
    (session_state subgraph_session_state : SessionState) : Subgraph :=
  mkSubgraph (node self) (attribute self) (subgraph self)
    (num_implicit_inputs self) (num_subgraph_inputs self) (num_subgraph_outputs self)
    (subgraph_input_names self) (subgraph_output_names self)
    (num_heads self) (head_size self) (vocab_size self) (num_layers self)
    (allocator_ self) (is_output_float16_ self)
    (Some session_state) (Some subgraph_session_state)
    (feeds_fetches_manager_ self).

Definition set_feeds_fetches_manager_ (self : Subgraph)
    (ffm : FeedsFetchesManager) : Subgraph :=
  mkSubgraph (node self) (attribute self) (subgraph self)
    (num_implicit_inputs self) (num_subgraph_inputs self) (num_subgraph_outputs self)
    (subgraph_input_names self) (subgraph_output_names self)
    (num_heads self) (head_size self) (vocab_size self) (num_layers self)
    (allocator_ self) (is_output_float16_ self)
    (session_state_ self) (subgraph_session_state_ self)
    (Some ffm).

(** [Subgraph::Subgraph] (lines 20-45).  The counts are the sizes of
    the vectors narrowed to [int]; the two loops push the names of the
    first [num_subgraph_inputs] inputs and of the first
    [num_subgraph_outputs] outputs.  The two session-state pointers and
    the manager are not set by the constructor. *)
Definition constructor (node_in : Node) (attribute_name : string)
    (subgraph_in : GraphViewer) : Subgraph :=
  let num_implicit_inputs :=
    static_cast_int (Z.of_nat (length (ImplicitInputDefs node_in))) in
  let subgraph_inputs := GetInputs subgraph_in in
  let subgraph_outputs := GetOutputs subgraph_in in
  let num_subgraph_inputs := static_cast_int (Z.of_nat (length subgraph_inputs)) in
  let num_subgraph_outputs := static_cast_int (Z.of_nat (length subgraph_outputs)) in
  let subgraph_input_names :=
    map Name (take (Z.to_nat num_subgraph_inputs) subgraph_inputs) in
  let subgraph_output_names :=
    map Name (take (Z.to_nat num_subgraph_outputs) subgraph_outputs) in
  mkSubgraph node_in attribute_name subgraph_in
    num_implicit_inputs num_subgraph_inputs num_subgraph_outputs
    subgraph_input_names subgraph_output_names
    0 0 0 0 None false None None None.

(** The loop of lines 66-76: [feed_locations] after the [resize] and
    the assignments by index. *)
Definition fill_feed_locations (self : Subgraph) (session_state : SessionState)
    (default_location : OrtMemoryInfo) (feed_names : list string)
    : list OrtDevice :=
  let feed_locations := replicate (length feed_names) OrtDevice_default in
  fold_left
    (fun (feed_locations : list OrtDevice) (i : nat) =>
       if (length (subgraph_input_names self) <=? i)%nat then
         let location := FindMemoryInfoForValue session_state (nth i feed_names "") in
         <[i := device location]> feed_locations
       else <[i := device default_location]> feed_locations)
    (seq 0 (length feed_names)) feed_locations.

(** [Validate] is a pure virtual member of [Subgraph]; the subclasses
    that implement it are not under src/.  It may write the members of
    the object. *)
Variable Validate : Subgraph -> list NodeArg -> list NodeArg -> Subgraph * Result unit.

(** [Subgraph::Setup] (lines 47-102).  The result is the object as the
    call leaves it and the status; [None] when
    [subgraph_output_names[0]] is read from an empty vector. *)
Definition Setup (self : Subgraph)
    (session_state subgraph_session_state : SessionState)
    : option (Subgraph * Result unit) :=
  let self := set_session_states self session_state subgraph_session_state in
  first_output ← subgraph_output_names self !! 0%nat;
  let default_location :=
    FindMemoryInfoForValue subgraph_session_state first_output in
  let feed_names :=
    (subgraph_input_names self ++ map Name (ImplicitInputDefs (node self)))%list in
  let feed_locations :=
    fill_feed_locations self session_state default_location feed_names in
  match Create feed_names (subgraph_output_names self) subgraph_session_state with
  | Error msg args => Some (self, Error msg args)
  | Ok ffm =>
      match InitializeFeedFetchCopyInfo subgraph_session_state ffm with
      | (_, Error msg args) => Some (self, Error msg args)
      | (ffm, Ok _) =>
          let fetch_locations :=
            replicate (Z.to_nat (num_subgraph_outputs self)) default_location in
          let ffm := FinalizeFeedFetchCopyInfo ffm feed_locations fetch_locations in
          let self := set_feeds_fetches_manager_ self ffm in
          let inputs := GetInputs (subgraph self) in
          let outputs := GetOutputs (subgraph self) in
          Some (Validate self inputs outputs)
      end
  end.

(** Lines 115-141 of [GetParameters]: the checks of the past state and
    the two values they yield, [num_heads] and [head_size].  The status
    of [ORT_RETURN_IF] carries the message given to the macro. *)
Definition past_parameters (past_shape : TensorShapeProto) (merged_past : bool)
    : Result (Z * Z) :=
  if merged_past then
    RETURN_IF (dim_size past_shape !=? 5)
      ERROR "subgraph past state is expected to have 5 dimension, got "
            [dim_size past_shape] ;;
    RETURN_IF (negb (has_dim_value (dim past_shape 0))
               || (dim_value (dim past_shape 0) !=? 2))
      ERROR "subgraph past state dimension 0 shall have length of 2" [] ;;
    RETURN_IF (negb (has_dim_value (dim past_shape 2))
               || (dim_value (dim past_shape 2) <=? 0))
      ERROR "subgraph past state dimension 2 shall have a positive value for number of heads" [] ;;
    RETURN_IF (negb (has_dim_value (dim past_shape 4))
               || (dim_value (dim past_shape 4) <=? 0))
      ERROR "subgraph past state dimension 4 shall have a positive value for hidden size per head" [] ;;
    Ok (static_cast_int (dim_value (dim past_shape 2)),
        static_cast_int (dim_value (dim past_shape 4)))
  else
    RETURN_IF (dim_size past_shape !=? 4)
      ERROR "subgraph output present_key_self_0 is expected to have 4 dimension, got "
            [dim_size past_shape] ;;
    RETURN_IF (negb (has_dim_value (dim past_shape 1))
               || (dim_value (dim past_shape 1) <=? 0))
      ERROR "subgraph past state dimension 2 shall have a positive value for number of heads" [] ;;
    RETURN_IF (negb (has_dim_value (dim past_shape 3))
               || (dim_value (dim past_shape 3) <=? 0))
      ERROR "subgraph past state dimension 4 shall have a positive value for hidden size per head" [] ;;
    Ok (static_cast_int (dim_value (dim past_shape 1)),
        static_cast_int (dim_value (dim past_shape 3))).

(** Lines 143-150: the checks of the logits and the vocabulary size. *)
Definition logits_parameters (logits_shape : TensorShapeProto) : Result Z :=
  RETURN_IF (dim_size logits_shape !=? 3)
    ERROR "subgraph logits output is expected to have 3 dimension, got "
          [dim_size logits_shape] ;;
  RETURN_IF (negb (has_dim_value (dim logits_shape 2))
             || (dim_value (dim logits_shape 2) <=? 0))
    ERROR "subgraph past state dimension 2 shall have a positive value for vocabulary size" [] ;;
  Ok (static_cast_int (dim_value (dim logits_shape 2))).

(** [Subgraph::GetParameters] (lines 112-153).  The two shapes are
    pointers that the function dereferences without a check: the result
    is [None] when a null pointer is dereferenced.  Otherwise it is the
    object as the call leaves it and the status. *)
Definition GetParameters (self : Subgraph)
    (past_shape logits_shape : option TensorShapeProto) (merged_past : bool)
    : option (Subgraph * Result unit) :=
  past_shape ← past_shape;
  match past_parameters past_shape merged_past with
  | Error msg args => Some (self, Error msg args)
  | Ok (heads, head) =>
      let self := set_num_heads_head_size self heads head in
      logits_shape ← logits_shape;
      match logits_parameters logits_shape with
      | Error msg args => Some (self, Error msg args)
      | Ok vocab => Some (set_vocab_size self vocab, Ok tt)
      end
  end.

End Subgraph.

End Subgraph.

(** *** A small session, for concrete runs

    A session state maps the name of a value to the number of the
    device it lives on; a memory location is the number of its device;
    a feeds/fetches manager records the feed and fetch locations it was
    finalized with; validation accepts every subgraph. *)
Definition toy_session : Type := string -> Z.
Definition toy_manager : Type := list Z * list Z.

Definition main_session : toy_session :=
  fun name => if String.eqb name "encoder_out" then 1 else 0.
Definition decoder_session : toy_session := fun _ => 2.

Definition toy_Find (session : toy_session) (name : string) : Z := session name.
Definition toy_Create (feed_names output_names : list string)
    (session : toy_session) : Result toy_manager := Ok ([], []).
Definition toy_Initialize (session : toy_session) (ffm : toy_manager)
    : toy_manager * Result unit := (ffm, Ok tt).
Definition toy_Finalize (ffm : toy_manager) (feed_locations fetch_locations : list Z)
    : toy_manager := (feed_locations, fetch_locations).
Definition toy_Validate (self : Subgraph.Subgraph toy_session toy_manager)
    (inputs outputs : list Subgraph.NodeArg)
    : Subgraph.Subgraph toy_session toy_manager * Result unit := (self, Ok tt).

(** A decoder subgraph with two inputs, two outputs and one implicit
    input. *)
Definition toy_node : Subgraph.Node :=
  Subgraph.mkNode [Subgraph.mkNodeArg "encoder_out"].
Definition toy_graph : Subgraph.GraphViewer :=
  Subgraph.mkGraphViewer
    [Subgraph.mkNodeArg "input_ids"; Subgraph.mkNodeArg "past_0"]
    [Subgraph.mkNodeArg "logits"; Subgraph.mkNodeArg "present_0"].
Definition toy_subgraph : Subgraph.Subgraph toy_session toy_manager :=
  Subgraph.constructor toy_session toy_manager toy_node "decoder" toy_graph.

(** * Properties *)

(** ** Shape validation *)

Section CheckInputsFacts.
Import AttentionBase.
Variable self : AttentionBase.

Lemma neq_false (a b : Z) : (a !=? b) = false <-> a = b.
Proof. unfold neq. rewrite negb_false_iff. apply Z.eqb_eq. Qed.

Lemma neq_true (a b : Z) : (a !=? b) = true <-> a <> b.
Proof. unfold neq. rewrite negb_true_iff. apply Z.eqb_neq. Qed.

(** The first guard of [check_shapes] fires whatever the shapes are. *)
Lemma check_shapes_past_and_extra input_shape weights_shape bias_shape p e :
  check_shapes input_shape weights_shape bias_shape (Some p) (Some e)
  = Error past_and_extra_add_qk_message [].
Proof. reflexivity. Qed.


Lemma check_bias_sum_ok bias_dims q k v :
  is_ok (check_bias_sum bias_dims q k v) = true <-> at_ bias_dims 0 = q + k + v.
Proof.
  unfold check_bias_sum.
  destruct (at_ bias_dims 0 !=? q + k + v) eqn:E; simpl.
  - apply neq_true in E. split; [discriminate | contradiction].
  - apply neq_false in E. split; auto.
Qed.

Lemma check_bias_sum_error bias_dims q k v :
  at_ bias_dims 0 <> q + k + v ->
  check_bias_sum bias_dims q k v = Error bias_sum_message [].
Proof.
  intros H. unfold check_bias_sum. apply neq_true in H. rewrite H. reflexivity.
Qed.



End CheckInputsFacts.

Section CheckInputsClaims.
Import AttentionBase.

(** C1 (the code departs from the claim).  In the merged-weight
    configuration without [qkv_hidden_sizes], [hidden_size_q] and
    [hidden_size_k] are a third of the bias length, but [hidden_size_v]
    is whatever indeterminate value line 160 reads.  For the bias of
    length 12 of the specification's scenario the resolved sizes are
    [4], [4] and that value; validation succeeds when it happens to be
    [4], and with [7] the call is rejected by the bias-sum check. *)
Theorem C1_hidden_size_v_is_read_before_it_is_set :
  (forall indeterminate_v,
      resolve_hidden_sizes scenario indeterminate_v 1 2 4 [4; 12] [12]
        None None None None
      = Ok (4, 4, indeterminate_v, 2))
  /\ CheckInputs scenario 4 [1; 2; 4] [4; 12] [12] None None None None None None None
     = (None, Ok (mkResolved 4 4 4 2 2))
  /\ CheckInputs scenario 7 [1; 2; 4] [4; 12] [12] None None None None None None None
     = (None, Error bias_sum_message []).
Proof. repeat split; intros; reflexivity. Qed.




(** C7.  When the shapes pass the first checks and the hidden sizes
    resolve to [q], [k] and [v] whose sum is not the bias length,
    [CheckInputs] returns the error of the bias-sum check, whose message
    names ['bias'].  Conversely, whenever [CheckInputs] succeeds, the
    bias length is the sum of the three resolved hidden sizes. *)
Theorem C7_bias_length_is_the_sum_of_the_hidden_sizes :
  forall self indeterminate_v input_shape weights_shape bias_shape
         mask past extra_add_qk key value weight_key weight_value,
    let result :=
      CheckInputs self indeterminate_v input_shape weights_shape bias_shape
        mask past extra_add_qk key value weight_key weight_value in
    (forall b s d q k v t,
        check_shapes input_shape weights_shape bias_shape past extra_add_qk
        = Ok (b, s, d) ->
        resolve_hidden_sizes self indeterminate_v b s d weights_shape bias_shape
          key value weight_key weight_value = Ok (q, k, v, t) ->
        at_ bias_shape 0 <> q + k + v ->
        result = (mask, Error bias_sum_message [])
        /\ names_operand "bias" (snd result) = true)
    /\ (forall m r,
           result = (m, Ok r) ->
           at_ bias_shape 0 = hidden_size_q r + hidden_size_k r + hidden_size_v r).
Proof.
  intros self g input_shape weights_shape bias_shape mask past extra
         key value wk wv result.
  split.
  - intros b s d q k v t Hshapes Hres Hsum.
    assert (result = (mask, Error bias_sum_message [])) as ->.
    { subst result. unfold CheckInputs. rewrite Hshapes, Hres.
      rewrite (check_bias_sum_error _ _ _ _ Hsum). reflexivity. }
    split; reflexivity.
  - intros m r. subst result. unfold CheckInputs.
    destruct (check_shapes _ _ _ _ _) as [[[b s] d]|]; [|discriminate].
    destruct (resolve_hidden_sizes _ _ _ _ _ _ _ _ _ _ _) as [[[[q k] v] t]|];
      [|discriminate].
    destruct (check_bias_sum _ _ _ _) eqn:Hsum; [|discriminate].
    assert (at_ bias_shape 0 = q + k + v) as Heq.
    { apply check_bias_sum_ok. rewrite Hsum. reflexivity. }
    destruct (check_past _ _ _ _ _ _); [|discriminate].
    destruct (check_mask_index _ _ _ _ _) as [m' [u|? ?]]; [|discriminate].
    destruct (check_extra_add_qk _ _ _ _); [|discriminate].
    intros H. inversion H. subst. exact Heq.
Qed.

(** C7, at the inputs of the specification: [qkv_hidden_sizes =
    [64; 64; 64]] with a bias of length 300 is rejected with the
    bias-sum error; with a bias of length 192 the call succeeds and
    [192 = 64 + 64 + 64]. *)
Lemma C7_bias_sum_witness :
  (CheckInputs explicit_64_64_64 0 [1; 2; 16] [16; 300] [300]
     None None None None None None None
   = (None, Error bias_sum_message [])
   /\ names_operand "bias"
        (snd (CheckInputs explicit_64_64_64 0 [1; 2; 16] [16; 300] [300]
                None None None None None None None)) = true)
  /\ at_ [192] 0 = 64 + 64 + 64.
Proof.
  split.
  - apply (proj1 (C7_bias_length_is_the_sum_of_the_hidden_sizes
                    explicit_64_64_64 0 [1; 2; 16] [16; 300] [300]
                    None None None None None None None)
             1 2 16 64 64 64 2);
      [reflexivity | reflexivity | vm_compute; discriminate].
  - apply (proj2 (C7_bias_length_is_the_sum_of_the_hidden_sizes
                    explicit_64_64_64 0 [1; 2; 16] [16; 192] [192]
                    None None None None None None None)
             None (mkResolved 64 64 64 2 2)).
    reflexivity.
Defined.

(** The overload with a bound on the number of heads checks that bound
    first and then behaves as the full check. *)
Lemma CheckInputs_max_threads_delegates self g input_shape weights_shape
    bias_shape mask past extra max_threads_per_block :
  num_heads_ self <= max_threads_per_block ->
  CheckInputs_max_threads self g input_shape weights_shape bias_shape
    mask past extra max_threads_per_block
  = CheckInputs self g input_shape weights_shape bias_shape mask past extra
      None None None None.
Proof.
  intros H. unfold CheckInputs_max_threads.
  destruct (Z.gtb_spec (num_heads_ self) max_threads_per_block); [lia|reflexivity].
Qed.

End CheckInputsClaims.

Section CombinedInputs.
Import AttentionBase Attention.

(** C6.  When a past state and an extra additive bias are both supplied,
    [CheckInputs] returns the error of its first guard whatever the
    other arguments are, so no other check has been made; and [Compute],
    which calls [CheckInputs] before anything else, returns that error
    without running the projection or the scoring engine. *)
Theorem C6_past_with_extra_add_qk_is_rejected_first :
  (forall self indeterminate_v input_shape weights_shape bias_shape mask
          past extra_add_qk key value weight_key weight_value,
      CheckInputs self indeterminate_v input_shape weights_shape bias_shape
        mask (Some past) (Some extra_add_qk) key value weight_key weight_value
      = (mask, Error past_and_extra_add_qk_message []))
  /\ (forall (T : Type) ram MlasGemm_packed multiply_accumulate ApplyAttention
             st h indeterminate_v context (gemm_data : Z -> T)
             input bias past extra_add_qk,
         Input context 0 = Some input ->
         Input context 2 = Some bias ->
         Input context 4 = Some past ->
         Input context 5 = Some extra_add_qk ->
         Compute T ram MlasGemm_packed multiply_accumulate ApplyAttention
           st h indeterminate_v context gemm_data
         = Some (Error past_and_extra_add_qk_message [])).
Proof.
  split.
  - intros. unfold CheckInputs. rewrite check_shapes_past_and_extra. reflexivity.
  - intros T ram gp ma aa st h g context gemm_data input bias past extra
           H0 H2 H4 H5.
    unfold Compute, Compute_projection.
    rewrite H0, H2, H4, H5. cbn [mbind option_bind].
    unfold CheckInputs. rewrite check_shapes_past_and_extra. reflexivity.
Qed.

(** C6, at a concrete call: input [1 x 2 x 4], weights [4 x 12], bias
    of length 12, a past state and an extra additive bias. *)
Lemma C6_combined_inputs_witness :
  Compute Z (fun _ => 0) (fun _ _ _ _ _ _ _ mem _ _ => mem) (fun c _ _ => c)
    (fun _ _ _ _ _ _ _ _ _ _ _ _ _ _ => Ok tt)
    (constructed scenario) (mkHeap ∅ 0) 4 context_with_past_and_extra
    (fun _ => 0)
  = Some (Error past_and_extra_add_qk_message []).
Proof.
  apply (proj2 C6_past_with_extra_add_qk_is_rejected_first)
    with (input := mkTensor [1; 2; 4] 0) (bias := mkTensor [12] 200)
         (past := mkTensor [2; 1; 2; 3; 2] 300)
         (extra_add_qk := mkTensor [1; 2; 2; 2] 400);
    reflexivity.
Defined.

End CombinedInputs.

(** ** GetPresent *)

Section GetPresentClaims.
Import GetPresent.

(** C8.  For a past state with at least four dimensions (or none),
    [GetPresent] asks the output binding for slot 1 with the shape
    [2, batch, num_heads, past_sequence_length + sequence_length,
    head_size], where past_sequence_length is dimension 3 of the past
    state and 0 without one.  It leaves through [ORT_THROW], and not
    with a status, exactly when a past state was supplied and the
    binding yields no tensor; otherwise it returns what the binding
    yields. *)
Theorem C8_present_shape_and_fatal_abort :
  forall self Output past batch_size head_size sequence_length past_sequence_length,
    (forall p, past = Some p -> (3 < length (Shape p))%nat) ->
    let present_shape :=
      [2; batch_size; num_heads_ self; past_length past + sequence_length; head_size] in
    exists outcome,
      GetPresent self Output past batch_size head_size sequence_length
        past_sequence_length = Some outcome
      /\ ((exists msg, outcome = Throws msg)
          <-> (past <> None /\ Output 1 present_shape = None))
      /\ (forall present n,
             outcome = Returns (present, n) ->
             present = Output 1 present_shape
             /\ n = match past with
                    | Some _ => static_cast_int (past_length past)
                    | None => past_sequence_length
                    end).
Proof.
  intros self Output past b hs s psl Hrank present_shape.
  unfold GetPresent. destruct past as [p|].
  - specialize (Hrank p eq_refl).
    destruct (Shape p) as [|d0 [|d1 [|d2 [|d3 rest]]]] eqn:Hs;
      cbn [length] in Hrank; try lia.
    cbn [lookup list_lookup]. unfold bind_present.
    subst present_shape. unfold past_length. rewrite Hs.
    change (at_ (d0 :: d1 :: d2 :: d3 :: rest) 3) with d3.
    change (<[3%nat:=at_ [2; b; num_heads_ self; s; hs] 3 + d3]>
              [2; b; num_heads_ self; s; hs])
      with [2; b; num_heads_ self; s + d3; hs].
    replace (s + d3) with (d3 + s) by lia.
    destruct (Output 1 [2; b; num_heads_ self; d3 + s; hs]) as [t|] eqn:Ho.
    + eexists. split; [reflexivity|]. cbn. split.
      * split; [intros [msg Hm]; discriminate | intros [_ Hn]; discriminate].
      * intros present n H. inversion H. auto.
    + eexists. split; [reflexivity|]. cbn. split.
      * split; [intros _; split; [discriminate|reflexivity] | eauto].
      * intros present n H. discriminate.
  - unfold bind_present. subst present_shape. unfold past_length.
    change (0 + s) with s. cbn [bool_decide andb].
    eexists. split; [reflexivity|]. split.
    + split; [intros [msg Hm]; discriminate | intros [Hn _]; contradiction].
    + intros present n H. inversion H. auto.
Qed.

(** The shapes of the specification: batch 2, four heads, head size 8 and
    sequence length 5 give [[2; 2; 4; 5; 8]] without a past state and
    [[2; 2; 4; 8; 8]] with a past state of length 3. *)
Example GetPresent_shapes :
  let cfg := mkAttentionBase 4 false [] true in
  GetPresent cfg output_bound None 2 8 5 0
  = Some (Returns (Some (mkTensor [2; 2; 4; 5; 8] 1001), 0))
  /\ GetPresent cfg output_bound (Some (mkTensor [2; 2; 4; 3; 8] 0)) 2 8 5 0
     = Some (Returns (Some (mkTensor [2; 2; 4; 8; 8] 1001), 3))
  /\ GetPresent cfg output_unbound None 2 8 5 0 = Some (Returns (None, 0)).
Proof. repeat split; reflexivity. Qed.

(** C8, at the shapes of the specification with a past state of length 3:
    with a present-state slot the call returns the tensor of shape
    [[2; 2; 4; 8; 8]] and the past length; without one it throws. *)
Lemma C8_present_shape_witness :
  let cfg := mkAttentionBase 4 false [] true in
  let past := Some (mkTensor [2; 2; 4; 3; 8] 0) in
  GetPresent cfg output_bound past 2 8 5 0
  = Some (Returns (output_bound 1 [2; 2; 4; 8; 8], 3))
  /\ exists msg, GetPresent cfg output_unbound past 2 8 5 0 = Some (Throws msg).
Proof.
  intros cfg past.
  assert (forall p, past = Some p -> (3 < length (Shape p))%nat) as Hrank.
  { intros p Hp. inversion Hp. cbn. lia. }
  split.
  - destruct (C8_present_shape_and_fatal_abort cfg output_bound past 2 8 5 0 Hrank)
      as (outcome & Hrun & Hthrows & Hreturns).
    rewrite Hrun. destruct outcome as [[present n]|msg].
    + destruct (Hreturns present n eq_refl) as [-> ->]. reflexivity.
    + destruct (proj1 Hthrows (ex_intro _ msg eq_refl)) as [_ Hnone]. discriminate Hnone.
  - destruct (C8_present_shape_and_fatal_abort cfg output_unbound past 2 8 5 0 Hrank)
      as (outcome & Hrun & Hthrows & _).
    destruct (proj2 Hthrows) as [msg ->]; [split; [discriminate|reflexivity]|].
    exists msg. exact Hrun.
Defined.

End GetPresentClaims.

(** ** Pre-packing *)

Lemma get3_0 {A} (a : Array3 A) : get3 a 0 = Some (elt0 a).
Proof. reflexivity. Qed.
Lemma get3_1 {A} (a : Array3 A) : get3 a 1 = Some (elt1 a).
Proof. reflexivity. Qed.
Lemma get3_2 {A} (a : Array3 A) : get3 a 2 = Some (elt2 a).
Proof. reflexivity. Qed.
Lemma set3_0 {A} (a : Array3 A) x : set3 a 0 x = Some (mkArray3 x (elt1 a) (elt2 a)).
Proof. reflexivity. Qed.
Lemma set3_1 {A} (a : Array3 A) x : set3 a 1 x = Some (mkArray3 (elt0 a) x (elt2 a)).
Proof. reflexivity. Qed.
Lemma set3_2 {A} (a : Array3 A) x : set3 a 2 x = Some (mkArray3 (elt0 a) (elt1 a) x).
Proof. reflexivity. Qed.

Lemma get3_3 {A} (a : Array3 A) : get3 a 3 = None.
Proof. reflexivity. Qed.

Lemma is_live_poke p f h a : is_live (poke p f h) a <-> is_live h a.
Proof.
  unfold is_live, poke. cbn [live].
  destruct (decide (p = a)) as [->|Hne].
  - rewrite lookup_alter_eq. rewrite fmap_is_Some. reflexivity.
  - rewrite lookup_alter_ne by exact Hne. reflexivity.
Qed.

Lemma is_live_reset p h a : is_live (reset p h) a <-> is_live h a /\ p <> Some a.
Proof.
  unfold is_live, reset. destruct p as [b|]; cbn [live].
  - destruct (decide (b = a)) as [->|Hne].
    + rewrite lookup_delete_eq. split; [intros [? ?]; discriminate | intros [_ H]; congruence].
    + rewrite lookup_delete_ne by exact Hne. split; [intros H; split; [exact H|congruence] | tauto].
  - split; [intros H; split; [exact H|discriminate] | tauto].
Qed.

Lemma is_live_AllocArray alloc nmemb size h a :
  is_live (snd (AllocArray alloc nmemb size h)) a <-> a = next_addr h \/ is_live h a.
Proof.
  unfold is_live, AllocArray. cbn [snd live].
  destruct (decide (next_addr h = a)) as [->|Hne].
  - rewrite lookup_insert_eq. split; [auto | intros _; eauto].
  - rewrite lookup_insert_ne by exact Hne. split; [auto | intros [->|H]; [contradiction|exact H]].
Qed.

Lemma FreePackedWeights_0 slots h : FreePackedWeights slots 0 h = Some (slots, h).
Proof. reflexivity. Qed.

Lemma FreePackedWeights_3 slots h :
  FreePackedWeights slots 3 h
  = Some (mkArray3 None None None,
          reset (elt2 slots) (reset (elt1 slots) (reset (elt0 slots) h))).
Proof. reflexivity. Qed.

(** With more than three elements the loop runs past the end of the
    array. *)
Lemma FreePackedWeights_4 slots h : FreePackedWeights slots 4 h = None.
Proof. reflexivity. Qed.

Lemma is_live_freed slots h a :
  is_live (reset (elt2 slots) (reset (elt1 slots) (reset (elt0 slots) h))) a ->
  is_live h a /\ ~ held slots a.
Proof.
  rewrite !is_live_reset. unfold held. tauto.
Qed.

Lemma Attention_ext s b slots sizes p w :
  base s = b -> packed_weights_ s = slots -> packed_weights_size_ s = sizes ->
  is_prepack_ s = p -> weight_shape_ s = w ->
  s = mkAttention b slots sizes p w.
Proof. destruct s; cbn; intros; subst; reflexivity. Qed.

Ltac close_prepack :=
  eexists; split; [reflexivity|];
  cbn [pp_status pp_self pp_heap pp_is_packed pp_prepacked_weights];
  cbn [base is_prepack_ packed_weights_ set_packed_weights_ set_is_prepack_
         set_weight_shape_];
  rewrite ?orb_false_r, ?orb_true_r;
  split; [reflexivity|]; split; [congruence|]; split; [congruence|];
  split; [intuition congruence|].

Section PrePackFacts.
Import Attention.
Variable T : Type.
Variable ram : Z -> T.
Variable MlasGemmPackBSize : Z -> Z -> Z.
Variable MlasGemmPackB : Z -> Z -> (Z -> T) -> Z -> Z -> list byte -> list byte.

Local Abbreviation IsPackWeightsSuccessful :=
  (IsPackWeightsSuccessful T ram MlasGemmPackBSize MlasGemmPackB).
Local Abbreviation PrePack := (PrePack T ram MlasGemmPackBSize MlasGemmPackB).

Lemma IsPackWeightsSuccessful_fails st h i alloc hs D wd ldb pw :
  MlasGemmPackBSize hs D = 0 ->
  IsPackWeightsSuccessful st h i alloc hs D wd ldb pw = Some (false, st, h, pw).
Proof. intros H. unfold Attention.IsPackWeightsSuccessful. rewrite H. reflexivity. Qed.

(** One pack: the call is defined, succeeds exactly when the size is
    not zero, and touches neither the attributes nor the packed-mode
    flag.  When the buffers stay with the operator, every live
    allocation is one that was live before or one that a slot holds. *)
Lemma IsPackWeightsSuccessful_step st h i alloc hs D wd ldb pw :
  i = 0 \/ i = 1 \/ i = 2 ->
  exists ok st' h' pw',
    IsPackWeightsSuccessful st h i alloc hs D wd ldb pw = Some (ok, st', h', pw')
    /\ ok = negb (MlasGemmPackBSize hs D =? 0)
    /\ base st' = base st
    /\ is_prepack_ st' = is_prepack_ st
    /\ weight_shape_ st' = weight_shape_ st
    /\ (ok = false -> st' = st /\ h' = h /\ pw' = pw)
    /\ (pw = None <-> pw' = None)
    /\ (pw = None ->
        forall h0,
          (forall a, is_live h a -> is_live h0 a \/ held (packed_weights_ st) a) ->
          forall a, is_live h' a -> is_live h0 a \/ held (packed_weights_ st') a).
Proof.
  intros Hi. unfold Attention.IsPackWeightsSuccessful.
  destruct (MlasGemmPackBSize hs D =? 0) eqn:E.
  { exists false, st, h, pw. repeat split; auto. }
  destruct (AllocArray alloc _ _ h) as [p h1] eqn:Halloc.
  assert (forall a, is_live h1 a <-> a = next_addr h \/ is_live h a) as Hl1.
  { intros a. rewrite <- is_live_AllocArray. rewrite Halloc. reflexivity. }
  assert (p = next_addr h) as Hp.
  { unfold AllocArray in Halloc. inversion Halloc. reflexivity. }
  destruct pw as [pw|];
  destruct Hi as [ -> | [ -> | -> ] ];
    rewrite ?get3_0, ?get3_1, ?get3_2; cbn [mbind option_bind];
    rewrite ?set3_0, ?set3_1, ?set3_2; cbn [mbind option_bind];
    cbn [packed_weights_ packed_weights_size_ set_packed_weights_
           set_packed_weights_size_];
    rewrite ?set3_0, ?set3_1, ?set3_2; cbn [mbind option_bind];
    rewrite ?get3_0, ?get3_1, ?get3_2; cbn [mbind option_bind];
    rewrite ?set3_0, ?set3_1, ?set3_2; cbn [mbind option_bind];
    (eexists true, _, _, _; split; [reflexivity|]);
    (repeat split; try reflexivity; try discriminate);
    intros _ h0 Hinv a Ha;
    rewrite is_live_poke, is_live_reset, is_live_poke, Hl1 in Ha;
    destruct Ha as [ [ -> | Ha ] Hold ];
    cbn [packed_weights_ set_packed_weights_ set_packed_weights_size_];
    unfold held; cbn [elt0 elt1 elt2]; subst p; auto;
    destruct (Hinv a Ha) as [H0|[H0|[H0|H0]]]; auto; congruence.
Qed.

Lemma pack_hidden_sizes_defined self weights_dims :
  length (qkv_hidden_sizes_ self) = 0%nat \/ length (qkv_hidden_sizes_ self) = 3%nat ->
  is_Some (pack_hidden_sizes self weights_dims).
Proof.
  unfold pack_hidden_sizes.
  destruct (qkv_hidden_sizes_ self) as [|q [|k [|v [|]]]];
    cbn [length]; intros [H|H]; try discriminate H.
  - change (size [] !=? 0) with false. cbv iota. destruct (_ !=? _); eauto.
  - change (size [q; k; v] !=? 0) with true. cbn [lookup list_lookup mbind option_bind].
    repeat match goal with |- context [if ?c then _ else _] => destruct c end; eauto.
Qed.

(** Without [qkv_hidden_sizes] the three hidden sizes are the same. *)
Lemma pack_hidden_sizes_equal self weights_dims q k v :
  length (qkv_hidden_sizes_ self) = 0%nat ->
  pack_hidden_sizes self weights_dims = Some (Some (q, k, v)) ->
  k = q /\ v = q.
Proof.
  unfold pack_hidden_sizes.
  destruct (qkv_hidden_sizes_ self); [|discriminate]. intros _.
  change (size [] !=? 0) with false. cbv iota.
  destruct (_ !=? _); intros H; inversion H. auto.
Qed.

(** [PrePack] as a whole, for an attribute [qkv_hidden_sizes] that is
    absent or has three elements: the call is defined and returns
    [Status::OK()]; the packed-mode flag is set exactly by a call that
    reports [is_packed]; such a call has packed all three branches; and a
    call that keeps its buffers in the operator and does not report
    [is_packed] leaves no allocation of its own behind. *)
Lemma PrePack_facts st h weights input_idx alloc pw :
  length (qkv_hidden_sizes_ (base st)) = 0%nat
  \/ length (qkv_hidden_sizes_ (base st)) = 3%nat ->
  exists r,
    PrePack st h weights input_idx alloc pw = Some r
    /\ pp_status r = Ok tt
    /\ base (pp_self r) = base st
    /\ is_prepack_ (pp_self r) = is_prepack_ st || pp_is_packed r
    /\ (pw = None <-> pp_prepacked_weights r = None)
    /\ (forall q k v,
          input_idx = 1 ->
          size (Shape weights) = 2 ->
          pack_hidden_sizes (base st) (Shape weights) = Some (Some (q, k, v)) ->
          let num_heads := to_size_t (num_heads_ (base st)) in
          let D := to_size_t (at_ (Shape weights) 0) in
          pp_is_packed r
          = negb (MlasGemmPackBSize (Z.quot q num_heads) D =? 0)
            && negb (MlasGemmPackBSize (Z.quot k num_heads) D =? 0)
            && negb (MlasGemmPackBSize (Z.quot v num_heads) D =? 0))
    /\ (pw = None ->
        pp_is_packed r = false ->
        (forall a, is_live (pp_heap r) a -> is_live h a)
        /\ (packed_weights_ (pp_self r) = mkArray3 None None None
            \/ packed_weights_ (pp_self r) = packed_weights_ st)).
Proof.
  intros Harity. unfold Attention.PrePack.
  destruct (1 !=? input_idx) eqn:Hidx.
  { eexists. split; [reflexivity|]. cbn.
    rewrite orb_false_r. repeat split; auto.
    intros q k v ->. discriminate Hidx. }
  cbn [weight_shape_ set_weight_shape_ base].
  destruct (size (Shape weights) !=? 2) eqn:Hrank.
  { eexists. split; [reflexivity|]. cbn.
    rewrite orb_false_r. repeat split; auto.
    intros q k v _ Hsz. apply neq_true in Hrank. contradiction. }
  destruct (pack_hidden_sizes_defined (base st) (Shape weights) Harity) as [sizes Hsizes].
  rewrite Hsizes. cbn [mbind option_bind].
  destruct sizes as [[[q k] v]|].
  2:{ eexists. split; [reflexivity|]. cbn.
      rewrite orb_false_r. repeat split; auto.
      intros q k v _ _ H. discriminate H. }
  cbn [elt0 elt1 elt2].
  set (N := to_size_t (num_heads_ (base st))).
  set (D := to_size_t (at_ (Shape weights) 0)).
  set (st0 := set_weight_shape_ st (Shape weights)).
  assert (forall a, is_live h a -> is_live h a \/ held (packed_weights_ st0) a) as Hinv0
      by auto.
  (* first pack *)
  match goal with
  | |- context [Attention.IsPackWeightsSuccessful _ _ _ _ st0 h 0 alloc ?hs D ?wd ?ldb pw] =>
      destruct (IsPackWeightsSuccessful_step st0 h 0 alloc hs D wd ldb pw)
        as (ok1 & st1 & h1 & pw1 & E1 & Hok1 & Hb1 & Hp1 & Hw1 & Hf1 & Hpw1 & Hinv1);
      [auto|]
  end.
  rewrite E1. cbn [mbind option_bind].
  assert (free_ok : forall st' h',
             base st' = base st ->
             length (qkv_hidden_sizes_ (base st)) = 3%nat ->
             FreePackedWeights (packed_weights_ st')
               (size (qkv_hidden_sizes_ (base st'))) h'
             = Some (mkArray3 None None None,
                     reset (elt2 (packed_weights_ st'))
                       (reset (elt1 (packed_weights_ st'))
                          (reset (elt0 (packed_weights_ st')) h')))).
  { intros st' h' Hb Hlen. rewrite Hb. unfold size. rewrite Hlen.
    apply FreePackedWeights_3. }
  assert (free_none : forall st' h',
             base st' = base st ->
             length (qkv_hidden_sizes_ (base st)) = 0%nat ->
             FreePackedWeights (packed_weights_ st')
               (size (qkv_hidden_sizes_ (base st'))) h'
             = Some (packed_weights_ st', h')).
  { intros st' h' Hb Hlen. rewrite Hb. unfold size. rewrite Hlen.
    apply FreePackedWeights_0. }
  assert (Hb0 : base st0 = base st) by reflexivity.
  assert (Hp0 : is_prepack_ st0 = is_prepack_ st) by reflexivity.
  assert (Hs0 : packed_weights_ st0 = packed_weights_ st) by reflexivity.
  clearbody st0.
  destruct ok1; cbn [negb].
  2:{ (* the first pack fails *)
      destruct (Hf1 eq_refl) as (-> & -> & ->).
      destruct pw as [pw|].
      - close_prepack. split; [|discriminate].
        intros q' k' v' _ _ H. inversion H; subst q' k' v'. cbv zeta.
        rewrite <- Hok1. reflexivity.
      - destruct Harity as [Hlen|Hlen].
        + rewrite (free_none st0 h Hb0 Hlen). cbn [mbind option_bind].
          close_prepack. split.
          * intros q' k' v' _ _ H. inversion H; subst q' k' v'. cbv zeta.
            rewrite <- Hok1. reflexivity.
          * intros _ _. split; [auto|]. right. exact Hs0.
        + rewrite (free_ok st0 h Hb0 Hlen). cbn [mbind option_bind].
          close_prepack. split.
          * intros q' k' v' _ _ H. inversion H; subst q' k' v'. cbv zeta.
            rewrite <- Hok1. reflexivity.
          * intros _ _. split; [|left; reflexivity].
            intros a Ha. apply is_live_freed in Ha. tauto. }
  (* second pack *)
  match goal with
  | |- context [Attention.IsPackWeightsSuccessful _ _ _ _ st1 h1 1 alloc ?hs D ?wd ?ldb pw1] =>
      destruct (IsPackWeightsSuccessful_step st1 h1 1 alloc hs D wd ldb pw1)
        as (ok2 & st2 & h2 & pw2 & E2 & Hok2 & Hb2 & Hp2 & Hw2 & Hf2 & Hpw2 & Hinv2);
      [auto|]
  end.
  rewrite E2. cbn [mbind option_bind].
  destruct ok2; cbn [negb].
  2:{ destruct (Hf2 eq_refl) as (-> & -> & ->).
      destruct pw1 as [pw1|].
      - close_prepack. split.
        + intros q' k' v' _ _ H. inversion H; subst q' k' v'. cbv zeta.
          rewrite <- Hok1, <- Hok2. reflexivity.
        + intros Hn. apply Hpw1 in Hn. discriminate.
      - assert (pw = None) as -> by tauto.
        destruct Harity as [Hlen|Hlen].
        + exfalso.
          destruct (pack_hidden_sizes_equal _ _ _ _ _ Hlen Hsizes) as [-> ->].
          rewrite <- Hok1 in Hok2. discriminate.
        + rewrite (free_ok st1 h1 (eq_trans Hb1 Hb0) Hlen). cbn [mbind option_bind].
          close_prepack. split.
          * intros q' k' v' _ _ H. inversion H; subst q' k' v'. cbv zeta.
            rewrite <- Hok1, <- Hok2. reflexivity.
          * intros _ _. split; [|left; reflexivity].
            intros a Ha. apply is_live_freed in Ha. destruct Ha as [Ha Hnh].
            destruct (Hinv1 eq_refl h Hinv0 a Ha); tauto. }
  (* third pack *)
  match goal with
  | |- context [Attention.IsPackWeightsSuccessful _ _ _ _ st2 h2 2 alloc ?hs D ?wd ?ldb pw2] =>
      destruct (IsPackWeightsSuccessful_step st2 h2 2 alloc hs D wd ldb pw2)
        as (ok3 & st3 & h3 & pw3 & E3 & Hok3 & Hb3 & Hp3 & Hw3 & Hf3 & Hpw3 & Hinv3);
      [auto|]
  end.
  rewrite E3. cbn [mbind option_bind].
  destruct ok3; cbn [negb].
  2:{ destruct (Hf3 eq_refl) as (-> & -> & ->).
      destruct pw2 as [pw2|].
      - close_prepack. split.
        + intros q' k' v' _ _ H. inversion H; subst q' k' v'. cbv zeta.
          rewrite <- Hok1, <- Hok2, <- Hok3. reflexivity.
        + intros Hn. apply Hpw1 in Hn. apply Hpw2 in Hn. discriminate.
      - assert (pw1 = None) as -> by tauto. assert (pw = None) as -> by tauto.
        destruct Harity as [Hlen|Hlen].
        + exfalso.
          destruct (pack_hidden_sizes_equal _ _ _ _ _ Hlen Hsizes) as [-> ->].
          rewrite <- Hok1 in Hok3. discriminate.
        + rewrite (free_ok st2 h2 (eq_trans Hb2 (eq_trans Hb1 Hb0)) Hlen).
          cbn [mbind option_bind].
          close_prepack. split.
          * intros q' k' v' _ _ H. inversion H; subst q' k' v'. cbv zeta.
            rewrite <- Hok1, <- Hok2, <- Hok3. reflexivity.
          * intros _ _. split; [|left; reflexivity].
            intros a Ha. apply is_live_freed in Ha. destruct Ha as [Ha Hnh].
            destruct (Hinv2 eq_refl h (Hinv1 eq_refl h Hinv0) a Ha); tauto. }
  (* all three succeed *)
  close_prepack. split; [|discriminate].
  intros q' k' v' _ _ H. inversion H; subst q' k' v'. cbv zeta.
  rewrite <- Hok1, <- Hok2, <- Hok3. reflexivity.
Qed.

Lemma memset_fresh (g : nat -> byte) n :
  memset x00 n (map g (seq 0 (Z.to_nat n))) = repeat x00 (Z.to_nat n).
Proof.
  unfold memset. rewrite drop_ge by (rewrite length_map, length_seq; lia).
  apply app_nil_r.
Qed.

(** One successful pack into a null slot, in full: the new buffer is at
    the next address and its bytes are the packed image, whatever the
    allocator left in the allocation. *)
Lemma IsPackWeightsSuccessful_null_slot st h i alloc hs D wd ldb pw :
  i = 0 \/ i = 1 \/ i = 2 ->
  get3 (packed_weights_ st) i = Some None ->
  MlasGemmPackBSize hs D <> 0 ->
  exists st' h' pw',
    IsPackWeightsSuccessful st h i alloc hs D wd ldb pw = Some (true, st', h', pw')
    /\ base st' = base st
    /\ is_prepack_ st' = is_prepack_ st
    /\ weight_shape_ st' = weight_shape_ st
    /\ next_addr h' = S (next_addr h)
    /\ live h'
       = <[next_addr h :=
             packed_image T ram MlasGemmPackBSize MlasGemmPackB
               (num_heads_ (base st)) hs D wd ldb]> (live h)
    /\ set3 (packed_weights_size_ st) i (MlasGemmPackBSize hs D)
       = Some (packed_weights_size_ st')
    /\ match pw with
       | None =>
           pw' = None
           /\ set3 (packed_weights_ st) i (Some (next_addr h))
              = Some (packed_weights_ st')
       | Some p =>
           pw' = Some (mkPrePackedWeights
                         (buffers_ p ++ [Some (next_addr h)])
                         (buffer_sizes_ p
                          ++ [MlasGemmPackBSize hs D * to_size_t (num_heads_ (base st))]))
           /\ packed_weights_ st' = packed_weights_ st
       end.
Proof.
  intros Hi Hnull Hsize. unfold Attention.IsPackWeightsSuccessful.
  apply Z.eqb_neq in Hsize. rewrite Hsize. unfold AllocArray.
  assert (Hheap : forall f,
    alter f (next_addr h)
      (alter (memset x00 (MlasGemmPackBSize hs D * to_size_t (num_heads_ (base st))))
         (next_addr h)
         (<[next_addr h :=
              map (garbage alloc (next_addr h))
                (seq 0 (Z.to_nat (MlasGemmPackBSize hs D
                                  * to_size_t (num_heads_ (base st)))))]> (live h)))
    = <[next_addr h :=
          f (repeat x00 (Z.to_nat (MlasGemmPackBSize hs D
                                   * to_size_t (num_heads_ (base st)))))]> (live h)).
  { intros f. rewrite !alter_insert_eq, memset_fresh. reflexivity. }
  destruct pw as [p|];
  destruct Hi as [ -> | [ -> | -> ] ];
    rewrite ?get3_0, ?get3_1, ?get3_2 in Hnull; inversion Hnull as [Hslot];
    rewrite ?get3_0, ?get3_1, ?get3_2; cbn [mbind option_bind];
    rewrite ?set3_0, ?set3_1, ?set3_2; cbn [mbind option_bind];
    cbn [packed_weights_ packed_weights_size_ set_packed_weights_
           set_packed_weights_size_];
    rewrite ?set3_0, ?set3_1, ?set3_2; cbn [mbind option_bind];
    rewrite ?get3_0, ?get3_1, ?get3_2; cbn [mbind option_bind];
    rewrite ?set3_0, ?set3_1, ?set3_2; cbn [mbind option_bind];
    rewrite ?Hslot;
    (eexists _, _, _; split; [reflexivity|]);
    cbn [base is_prepack_ weight_shape_ packed_weights_ packed_weights_size_
           set_packed_weights_ set_packed_weights_size_ elt0 elt1 elt2];
    unfold poke, reset; cbn [live next_addr];
    rewrite Hheap;
    repeat split; try reflexivity;
    destruct (packed_weights_ st) as [s0 s1 s2]; cbn [elt0 elt1 elt2] in *;
    subst; reflexivity.
Qed.

(** A fully successful [PrePack] on an operator whose slots are null,
    in full. *)
Lemma PrePack_packs st h weights alloc pw q k v :
  packed_weights_ st = mkArray3 None None None ->
  size (Shape weights) = 2 ->
  pack_hidden_sizes (base st) (Shape weights) = Some (Some (q, k, v)) ->
  let N := to_size_t (num_heads_ (base st)) in
  let D := to_size_t (at_ (Shape weights) 0) in
  let ldb := to_size_t (q + k + v) in
  let wd := DataPtr weights in
  let hq := Z.quot q N in
  let hk := Z.quot k N in
  let hv := Z.quot v N in
  MlasGemmPackBSize hq D <> 0 ->
  MlasGemmPackBSize hk D <> 0 ->
  MlasGemmPackBSize hv D <> 0 ->
  let a := next_addr h in
  let image hs w :=
    packed_image T ram MlasGemmPackBSize MlasGemmPackB (num_heads_ (base st))
      hs D w ldb in
  PrePack st h weights 1 alloc pw
  = Some (mkPrePacked (Ok tt)
            (mkAttention (base st)
               (match pw with
                | None => mkArray3 (Some a) (Some (S a)) (Some (S (S a)))
                | Some _ => mkArray3 None None None
                end)
               (mkArray3 (MlasGemmPackBSize hq D) (MlasGemmPackBSize hk D)
                  (MlasGemmPackBSize hv D))
               true (Shape weights))
            (mkHeap
               (<[S (S a) := image hv (wd + to_size_t (N * to_size_t (hq + hk)))]>
                  (<[S a := image hk (wd + to_size_t (N * hq))]>
                     (<[a := image hq wd]> (live h))))
               (S (S (S a))))
            true
            (match pw with
             | None => None
             | Some p =>
                 Some (mkPrePackedWeights
                         (buffers_ p ++ [Some a; Some (S a); Some (S (S a))])
                         (buffer_sizes_ p
                          ++ [MlasGemmPackBSize hq D * N; MlasGemmPackBSize hk D * N;
                              MlasGemmPackBSize hv D * N]))
             end)).
Proof.
  intros Hnull Hrank Hsizes N D ldb wd hq hk hv Hq Hk Hv a image.
  unfold Attention.PrePack.
  change (1 !=? 1) with false. cbv iota.
  cbn [weight_shape_ set_weight_shape_ base].
  apply neq_false in Hrank. rewrite Hrank.
  rewrite Hsizes. cbn [mbind option_bind elt0 elt1 elt2].
  fold N D ldb wd hq hk hv.
  set (st0 := set_weight_shape_ st (Shape weights)).
  assert (Hb0 : base st0 = base st) by reflexivity.
  assert (Hp0 : is_prepack_ st0 = is_prepack_ st) by reflexivity.
  assert (Hs0 : packed_weights_ st0 = mkArray3 None None None) by exact Hnull.
  assert (Hw0 : weight_shape_ st0 = Shape weights) by reflexivity.
  clearbody st0.
  destruct (IsPackWeightsSuccessful_null_slot st0 h 0 alloc hq D wd ldb pw)
    as (st1 & h1 & pw1 & E1 & Hb1 & Hp1 & Hw1 & Hn1 & Hl1 & Hz1 & Hpw1);
    [auto | rewrite get3_0, Hs0; reflexivity | exact Hq |].
  rewrite E1. cbn [mbind option_bind negb].
  assert (Hs1 : elt1 (packed_weights_ st1) = None /\ elt2 (packed_weights_ st1) = None).
  { destruct pw; destruct Hpw1 as [_ H]; [rewrite H, Hs0; auto|].
    rewrite set3_0, Hs0 in H. inversion H. auto. }
  destruct (IsPackWeightsSuccessful_null_slot st1 h1 1 alloc hk D
              (wd + to_size_t (N * hq)) ldb pw1)
    as (st2 & h2 & pw2 & E2 & Hb2 & Hp2 & Hw2 & Hn2 & Hl2 & Hz2 & Hpw2);
    [auto | rewrite get3_1; f_equal; tauto | exact Hk |].
  rewrite E2. cbn [mbind option_bind negb].
  assert (Hs2 : elt2 (packed_weights_ st2) = None).
  { destruct pw1; destruct Hpw2 as [_ H]; [rewrite H; tauto|].
    rewrite set3_1 in H. inversion H. cbn. tauto. }
  destruct (IsPackWeightsSuccessful_null_slot st2 h2 2 alloc hv D
              (wd + to_size_t (N * to_size_t (hq + hk))) ldb pw2)
    as (st3 & h3 & pw3 & E3 & Hb3 & Hp3 & Hw3 & Hn3 & Hl3 & Hz3 & Hpw3);
    [auto | rewrite get3_2; f_equal; exact Hs2 | exact Hv |].
  rewrite E3. cbn [mbind option_bind negb].
  f_equal.
  rewrite set3_0 in Hz1. rewrite set3_1 in Hz2. rewrite set3_2 in Hz3.
  inversion Hz1 as [Hz1']. inversion Hz2 as [Hz2']. inversion Hz3 as [Hz3'].
  rewrite Hb2, Hb1, Hb0 in Hl3, Hpw3. rewrite Hb1, Hb0 in Hl2, Hpw2.
  rewrite Hb0 in Hl1, Hpw1.
  fold N in Hpw1, Hpw2, Hpw3. fold (image hq wd) in Hl1.
  fold (image hk (wd + to_size_t (N * hq))) in Hl2.
  fold (image hv (wd + to_size_t (N * to_size_t (hq + hk)))) in Hl3.
  assert (Hbase : base st3 = base st) by congruence.
  assert (Hshape : weight_shape_ st3 = Shape weights) by congruence.
  assert (Hsizes3 : packed_weights_size_ st3
                    = mkArray3 (MlasGemmPackBSize hq D) (MlasGemmPackBSize hk D)
                        (MlasGemmPackBSize hv D)).
  { rewrite <- Hz3', <- Hz2', <- Hz1'. reflexivity. }
  assert (Hheap : h3 = mkHeap
               (<[S (S a) := image hv (wd + to_size_t (N * to_size_t (hq + hk)))]>
                  (<[S a := image hk (wd + to_size_t (N * hq))]>
                     (<[a := image hq wd]> (live h))))
               (S (S (S a)))).
  { destruct h3 as [l3 n3]. cbn [live next_addr] in *.
    rewrite Hn3, Hn2, Hn1, Hl3, Hl2, Hl1, Hn2, Hn1. reflexivity. }
  destruct pw as [p|].
  - destruct Hpw1 as [-> Hslots1]. destruct Hpw2 as [-> Hslots2].
    destruct Hpw3 as [-> Hslots3]. cbn [buffers_ buffer_sizes_] in *.
    rewrite Hn2, Hn1, <- !app_assoc. cbn [app]. fold a.
    rewrite Hheap. f_equal.
    apply Attention_ext; cbn [set_is_prepack_ base packed_weights_
      packed_weights_size_ is_prepack_ weight_shape_]; try assumption; try reflexivity.
    congruence.
  - destruct Hpw1 as [-> Hslots1]. destruct Hpw2 as [-> Hslots2].
    destruct Hpw3 as [-> Hslots3].
    rewrite set3_0 in Hslots1. rewrite set3_1 in Hslots2. rewrite set3_2 in Hslots3.
    inversion Hslots1 as [Hs1']. inversion Hslots2 as [Hs2'].
    inversion Hslots3 as [Hs3'].
    rewrite Hheap. f_equal.
    apply Attention_ext; cbn [set_is_prepack_ base packed_weights_
      packed_weights_size_ is_prepack_ weight_shape_]; try assumption; try reflexivity.
    rewrite <- Hs3', <- Hs2', <- Hs1'. cbn [elt0 elt1 elt2].
    rewrite Hn2, Hn1. reflexivity.
Qed.

(** What any returning call of [PrePack] does to the packed-mode flag:
    the flag is set exactly when [is_packed] is reported, and that
    happens only for the weight slot, after all three packs
    succeeded. *)
Lemma PrePack_flag st h weights input_idx alloc pw r :
  PrePack st h weights input_idx alloc pw = Some r ->
  base (pp_self r) = base st
  /\ is_prepack_ (pp_self r) = is_prepack_ st || pp_is_packed r
  /\ (pp_is_packed r = true ->
      input_idx = 1
      /\ size (Shape weights) = 2
      /\ exists q k v,
          pack_hidden_sizes (base st) (Shape weights) = Some (Some (q, k, v))
          /\ let N := to_size_t (num_heads_ (base st)) in
             let D := to_size_t (at_ (Shape weights) 0) in
             MlasGemmPackBSize (Z.quot q N) D <> 0
             /\ MlasGemmPackBSize (Z.quot k N) D <> 0
             /\ MlasGemmPackBSize (Z.quot v N) D <> 0).
Proof.
  unfold Attention.PrePack.
  destruct (1 !=? input_idx) eqn:Hidx.
  { intros H; inversion H; subst r; cbn. rewrite orb_false_r.
    repeat split; discriminate. }
  apply neq_false in Hidx.
  cbn [weight_shape_ set_weight_shape_ base].
  destruct (size (Shape weights) !=? 2) eqn:Hrank.
  { intros H; inversion H; subst r; cbn. rewrite orb_false_r.
    repeat split; discriminate. }
  apply neq_false in Hrank.
  destruct (pack_hidden_sizes (base st) (Shape weights)) as [sizes|] eqn:Hsizes;
    [|discriminate].
  cbn [mbind option_bind].
  destruct sizes as [[[q k] v]|].
  2:{ intros H; inversion H; subst r; cbn. rewrite orb_false_r.
      repeat split; discriminate. }
  cbn [elt0 elt1 elt2].
  set (N := to_size_t (num_heads_ (base st))).
  set (D := to_size_t (at_ (Shape weights) 0)).
  set (st0 := set_weight_shape_ st (Shape weights)).
  assert (Hb0 : base st0 = base st) by reflexivity.
  assert (Hp0 : is_prepack_ st0 = is_prepack_ st) by reflexivity.
  clearbody st0.
  match goal with
  | |- context [Attention.IsPackWeightsSuccessful _ _ _ _ st0 h 0 alloc ?hs D ?wd ?ldb pw] =>
      destruct (IsPackWeightsSuccessful_step st0 h 0 alloc hs D wd ldb pw)
        as (ok1 & st1 & h1 & pw1 & E1 & Hok1 & Hb1 & Hp1 & _);
      [auto|]
  end.
  rewrite E1. cbn [mbind option_bind].
  destruct ok1; cbn [negb].
  2:{ destruct pw1; [|destruct (FreePackedWeights _ _ _) as [[? ?]|];
                      cbn [mbind option_bind]; [|discriminate]];
      intros H; inversion H; subst r; cbn; rewrite orb_false_r;
      repeat split; congruence || discriminate. }
  match goal with
  | |- context [Attention.IsPackWeightsSuccessful _ _ _ _ st1 h1 1 alloc ?hs D ?wd ?ldb pw1] =>
      destruct (IsPackWeightsSuccessful_step st1 h1 1 alloc hs D wd ldb pw1)
        as (ok2 & st2 & h2 & pw2 & E2 & Hok2 & Hb2 & Hp2 & _);
      [auto|]
  end.
  rewrite E2. cbn [mbind option_bind].
  destruct ok2; cbn [negb].
  2:{ destruct pw2; [|destruct (FreePackedWeights _ _ _) as [[? ?]|];
                      cbn [mbind option_bind]; [|discriminate]];
      intros H; inversion H; subst r; cbn; rewrite orb_false_r;
      repeat split; congruence || discriminate. }
  match goal with
  | |- context [Attention.IsPackWeightsSuccessful _ _ _ _ st2 h2 2 alloc ?hs D ?wd ?ldb pw2] =>
      destruct (IsPackWeightsSuccessful_step st2 h2 2 alloc hs D wd ldb pw2)
        as (ok3 & st3 & h3 & pw3 & E3 & Hok3 & Hb3 & Hp3 & _);
      [auto|]
  end.
  rewrite E3. cbn [mbind option_bind].
  destruct ok3; cbn [negb].
  2:{ destruct pw3; [|destruct (FreePackedWeights _ _ _) as [[? ?]|];
                      cbn [mbind option_bind]; [|discriminate]];
      intros H; inversion H; subst r; cbn; rewrite orb_false_r;
      repeat split; congruence || discriminate. }
  intros H; inversion H; subst r; cbn. rewrite orb_true_r.
  split; [congruence|]. split; [reflexivity|]. intros _.
  split; [congruence|]. split; [exact Hrank|].
  exists q, k, v. split; [reflexivity|]. cbv zeta. fold N D.
  symmetry in Hok1, Hok2, Hok3.
  apply negb_true_iff, Z.eqb_neq in Hok1, Hok2, Hok3. auto.
Qed.

(** C4.  [qkv_hidden_sizes] is absent or has three elements, [PrePack]
    is called for the weight slot with a two-dimensional weight whose
    hidden sizes resolve, and no shareable record is passed.  If the
    size function reports 0 for one of the three branches, the call
    returns [Status::OK()] with [is_packed] false, leaves the
    packed-mode flag as it was, and every allocation live afterwards
    was live before the call: what it allocated is released.  The slots
    of the operator are all null, or as they were when nothing was
    allocated. *)
Theorem C4_failed_pack_releases_what_it_allocated :
  forall st h weights alloc q k v,
    length (qkv_hidden_sizes_ (base st)) = 0%nat
    \/ length (qkv_hidden_sizes_ (base st)) = 3%nat ->
    size (Shape weights) = 2 ->
    pack_hidden_sizes (base st) (Shape weights) = Some (Some (q, k, v)) ->
    let num_heads := to_size_t (num_heads_ (base st)) in
    let D := to_size_t (at_ (Shape weights) 0) in
    MlasGemmPackBSize (Z.quot q num_heads) D = 0
    \/ MlasGemmPackBSize (Z.quot k num_heads) D = 0
    \/ MlasGemmPackBSize (Z.quot v num_heads) D = 0 ->
    exists r,
      PrePack st h weights 1 alloc None = Some r
      /\ pp_status r = Ok tt
      /\ pp_is_packed r = false
      /\ is_prepack_ (pp_self r) = is_prepack_ st
      /\ pp_prepacked_weights r = None
      /\ (forall a, is_live (pp_heap r) a -> is_live h a)
      /\ (packed_weights_ (pp_self r) = mkArray3 None None None
          \/ packed_weights_ (pp_self r) = packed_weights_ st).
Proof.
  intros st h weights alloc q k v Harity Hrank Hsizes N D Hfail.
  destruct (PrePack_facts st h weights 1 alloc None Harity)
    as (r & Hr & Hstatus & _ & Hflag & Hpw & Hpacked & Hreleased).
  specialize (Hpacked q k v eq_refl Hrank Hsizes). cbv zeta in Hpacked.
  fold N D in Hpacked.
  assert (pp_is_packed r = false) as Hnot.
  { rewrite Hpacked.
    destruct Hfail as [H|[H|H]]; rewrite H; change (0 =? 0) with true;
      cbn [negb andb]; rewrite ?andb_false_r; reflexivity. }
  exists r. split; [exact Hr|]. split; [exact Hstatus|]. split; [exact Hnot|].
  split; [rewrite Hflag, Hnot; apply orb_false_r|].
  split; [apply Hpw; reflexivity|].
  apply Hreleased; [reflexivity | exact Hnot].
Qed.

(** C9.  Take a freshly constructed operator and a call of [PrePack]
    for the weight slot that reports [is_packed].  Any other such call
    with the same attributes and the same weight, whatever the allocator
    leaves in the memory it hands out, whatever the heap holds, and
    whether or not a shareable record is passed, also reports
    [is_packed], and its three packed buffers hold the same bytes: the
    heads packed into a buffer of zeros. *)
Theorem C9_prepacking_is_deterministic :
  forall info weights alloc1 alloc2 h1 h2 shared1 shared2 r1,
    PrePack (constructed info) h1 weights 1 alloc1 (fresh_record shared1) = Some r1 ->
    pp_is_packed r1 = true ->
    exists r2,
      PrePack (constructed info) h2 weights 1 alloc2 (fresh_record shared2) = Some r2
      /\ pp_is_packed r2 = true
      /\ packed_buffers r1 = packed_buffers r2
      /\ exists q k v, packed_buffers r1 = [Some q; Some k; Some v].
Proof.
  intros info weights alloc1 alloc2 h1 h2 shared1 shared2 r1 Hrun1 Hpacked1.
  destruct (PrePack_flag _ _ _ _ _ _ _ Hrun1) as (_ & _ & Hinv).
  destruct (Hinv Hpacked1) as (_ & Hrank & q & k & v & Hsizes & Hq & Hk & Hv).
  cbn [base constructed] in *.
  pose proof (PrePack_packs (constructed info) h1 weights alloc1
                (fresh_record shared1) q k v eq_refl Hrank Hsizes Hq Hk Hv) as E1.
  pose proof (PrePack_packs (constructed info) h2 weights alloc2
                (fresh_record shared2) q k v eq_refl Hrank Hsizes Hq Hk Hv) as E2.
  cbv zeta in E1, E2. rewrite E1 in Hrun1. inversion Hrun1 as [Hr1]. clear Hrun1.
  eexists. split; [exact E2|]. split; [reflexivity|].
  cbn [base constructed].
  assert (forall (shared : bool) l a x y z sz p w n1 n2 n3,
    packed_buffers
      (mkPrePacked (Ok tt)
         (mkAttention info
            (match fresh_record shared with
             | None => mkArray3 (Some a) (Some (S a)) (Some (S (S a)))
             | Some _ => mkArray3 None None None
             end) sz p w)
         (mkHeap (<[S (S a) := z]> (<[S a := y]> (<[a := x]> l))) (S (S (S a))))
         true
         (match fresh_record shared with
          | None => None
          | Some rec =>
              Some (mkPrePackedWeights
                      (buffers_ rec ++ [Some a; Some (S a); Some (S (S a))])
                      (buffer_sizes_ rec ++ [n1; n2; n3]))
          end))
    = [Some x; Some y; Some z]) as Hbuf.
  { intros shared l a x y z sz p w n1 n2 n3.
    assert (Hx : (<[S (S a) := z]> (<[S a := y]> (<[a := x]> l))) !! a = Some x).
    { rewrite !lookup_insert_ne by lia. apply lookup_insert_eq. }
    assert (Hy : (<[S (S a) := z]> (<[S a := y]> (<[a := x]> l))) !! S a = Some y).
    { rewrite lookup_insert_ne by lia. apply lookup_insert_eq. }
    assert (Hz : (<[S (S a) := z]> (<[S a := y]> (<[a := x]> l))) !! S (S a) = Some z).
    { apply lookup_insert_eq. }
    destruct shared; unfold packed_buffers, fresh_record;
      cbn [pp_prepacked_weights pp_heap pp_self packed_weights_ buffers_ app map
             bytes_of live elt0 elt1 elt2];
      rewrite Hx, Hy, Hz; reflexivity. }
  rewrite !Hbuf. split; [reflexivity|]. eauto.
Qed.

End PrePackFacts.

(** C4, at a concrete run: two heads, [qkv_hidden_sizes = [4; 4; 6]], a
    [4 x 14] weight, and a size function that reports 0 for the value
    branch, whose heads are three columns wide.  The query and key
    buffers are allocated and packed, the third pack fails, and the heap
    is empty again on return. *)
Lemma C4_failed_pack_witness :
  exists r,
    Attention.PrePack bool toy_ram no_three_PackBSize toy_PackB
      (constructed explicit_4_4_6) empty_heap (mkTensor [4; 14] 0) 1 toy_alloc None
    = Some r
    /\ pp_status r = Ok tt
    /\ pp_is_packed r = false
    /\ is_prepack_ (pp_self r) = false
    /\ pp_prepacked_weights r = None
    /\ (forall a, is_live (pp_heap r) a -> is_live empty_heap a)
    /\ (packed_weights_ (pp_self r) = mkArray3 None None None
        \/ packed_weights_ (pp_self r) = mkArray3 None None None).
Proof.
  apply (C4_failed_pack_releases_what_it_allocated bool toy_ram no_three_PackBSize
           toy_PackB (constructed explicit_4_4_6) empty_heap (mkTensor [4; 14] 0)
           toy_alloc 4 4 6).
  - right. reflexivity.
  - reflexivity.
  - reflexivity.
  - right. right. reflexivity.
Defined.

(** C9, at a concrete pair of runs: the same operator and weight, once
    with buffers kept by the operator, an allocator that hands out [0xff]
    bytes and an empty heap, once with a shareable record, an allocator
    that hands out other bytes, and a heap that is in use. *)
Lemma C9_prepacking_witness :
  exists r1 r2,
    Attention.PrePack bool toy_ram toy_PackBSize toy_PackB
      (constructed explicit_4_4_6) empty_heap (mkTensor [4; 14] 0) 1 toy_alloc
      (fresh_record false) = Some r1
    /\ Attention.PrePack bool toy_ram toy_PackBSize toy_PackB
         (constructed explicit_4_4_6) busy_heap (mkTensor [4; 14] 0) 1 other_alloc
         (fresh_record true) = Some r2
    /\ pp_is_packed r2 = true
    /\ packed_buffers r1 = packed_buffers r2.
Proof.
  destruct (Attention.PrePack bool toy_ram toy_PackBSize toy_PackB
              (constructed explicit_4_4_6) empty_heap (mkTensor [4; 14] 0) 1 toy_alloc
              (fresh_record false)) as [r1|] eqn:E1; [|vm_compute in E1; discriminate].
  assert (pp_is_packed r1 = true) as Hpacked.
  { vm_compute in E1. inversion E1. reflexivity. }
  destruct (C9_prepacking_is_deterministic bool toy_ram toy_PackBSize toy_PackB
              explicit_4_4_6 (mkTensor [4; 14] 0) toy_alloc other_alloc
              empty_heap busy_heap false true r1 E1 Hpacked)
    as (r2 & E2 & Hpacked2 & Hsame & _).
  exists r1, r2. auto.
Defined.

(** ** The projection *)

Lemma static_cast_int_small x : - 2 ^ 31 <= x < 2 ^ 31 -> static_cast_int x = x.
Proof.
  intros H. unfold static_cast_int.
  rewrite Z.mod_small by lia. lia.
Qed.

Lemma int_fits x : - 2 ^ 31 <= x < 2 ^ 31 -> int_ x = Some x.
Proof.
  intros Hx. unfold int_.
  destruct (Z.leb_spec (- 2 ^ 31) x); [|lia].
  destruct (Z.ltb_spec x (2 ^ 31)); [reflexivity|lia].
Qed.

Lemma int_mul_fits a b : - 2 ^ 31 <= a * b < 2 ^ 31 -> int_mul a b = Some (a * b).
Proof. apply int_fits. Qed.

Lemma int_add_fits a b : - 2 ^ 31 <= a + b < 2 ^ 31 -> int_add a b = Some (a + b).
Proof. apply int_fits. Qed.

Lemma radix_bound x y X Y : 0 <= x < X -> 0 <= y < Y -> 0 <= x * Y + y < X * Y.
Proof. intros Hx Hy. nia. Qed.

Lemma radix_div x y Y : 0 <= y < Y -> (x * Y + y) / Y = x.
Proof.
  intros H. rewrite Z.add_comm, Z.div_add by lia. rewrite Z.div_small by lia. lia.
Qed.

Lemma radix_mod x y Y : 0 <= y < Y -> (x * Y + y) mod Y = y.
Proof.
  intros H. rewrite Z.add_comm, Z.mod_add by lia. apply Z.mod_small. lia.
Qed.

Lemma radix_inj x y x' y' Y :
  0 <= y < Y -> 0 <= y' < Y -> x * Y + y = x' * Y + y' -> x = x' /\ y = y'.
Proof.
  intros Hy Hy' H.
  assert (x = x') as ->.
  { rewrite <- (radix_div x y Y Hy), <- (radix_div x' y' Y Hy'), H. reflexivity. }
  split; [reflexivity | lia].
Qed.

Section UnitDecoding.
Variable g : Geometry.
Hypothesis Hvalid : valid_geometry g.

(** The decoding of a unit index, and its inverse. *)
Lemma decode_bounds i :
  0 <= i < 3 * g_batch g * g_heads g ->
  0 <= branch_of i < 3
  /\ 0 <= head_of g i < g_heads g
  /\ 0 <= batch_of g i < g_batch g
  /\ i = (batch_of g i * g_heads g + head_of g i) * 3 + branch_of i.
Proof.
  destruct Hvalid as (HN & HB & _).
  intros Hi. unfold branch_of, head_of, batch_of.
  pose proof (Z.mod_pos_bound i 3 ltac:(lia)).
  pose proof (Z.mod_pos_bound (i / 3) (g_heads g) HN).
  pose proof (Z.div_mod i 3 ltac:(lia)) as H3.
  pose proof (Z.div_mod (i / 3) (g_heads g) ltac:(lia)) as HNd.
  assert (0 <= i / 3) by (apply Z.div_pos; lia).
  assert (0 <= i / 3 / g_heads g) by (apply Z.div_pos; lia).
  assert (i / 3 < g_batch g * g_heads g).
  { apply Z.div_lt_upper_bound; lia. }
  assert (i / 3 / g_heads g < g_batch g).
  { apply Z.div_lt_upper_bound; lia. }
  repeat split; try lia.
Qed.

(** In range, the C++ operators and casts of lines 634-636 compute the
    decoding. *)
Lemma decode_cpp i :
  0 <= i < 3 * g_batch g * g_heads g ->
  static_cast_int (Z.quot (Z.quot i 3) (g_heads g)) = batch_of g i
  /\ static_cast_int (Z.rem (Z.quot i 3) (g_heads g)) = head_of g i
  /\ static_cast_int (Z.rem i 3) = branch_of i.
Proof.
  intros Hi. pose proof (decode_bounds i Hi) as (Hb & Hh & Hba & _).
  destruct Hvalid as (HN & HB & _ & _ & _ & _ & _ & _ & Hint).
  assert (0 <= i / 3) by (apply Z.div_pos; lia).
  unfold branch_of, head_of, batch_of in *.
  rewrite (Z.quot_div_nonneg i 3) by lia.
  rewrite (Z.quot_div_nonneg (i / 3)), (Z.rem_mod_nonneg (i / 3)),
    (Z.rem_mod_nonneg i 3) by lia.
  assert (i / 3 <= i) by (apply Z.div_le_upper_bound; lia).
  assert (i / 3 / g_heads g <= i / 3) by (apply Z.div_le_upper_bound; nia).
  assert ((i / 3) mod g_heads g <= i / 3) by (apply Z.mod_le; lia).
  assert (i mod 3 <= i) by (apply Z.mod_le; lia).
  rewrite !static_cast_int_small; [auto | | |]; lia.
Qed.
End UnitDecoding.

Section UnitFacts.
Import Attention.
Variable T : Type.
Variable ram : Z -> T.
Variable MlasGemm_packed :
  Z -> Z -> Z -> (Z -> T) -> Z -> Z -> list byte -> (Z -> T) -> Z -> Z -> (Z -> T).
Variable multiply_accumulate : T -> list T -> list T -> T.

Local Abbreviation qkv_unit := (qkv_unit T ram MlasGemm_packed multiply_accumulate).
Local Abbreviation GemmEx := (GemmEx T ram multiply_accumulate).
Local Abbreviation broadcast := (broadcast T ram).

(** The broadcast loop copies the bias slice into every row of the
    destination. *)
Lemma broadcast_spec n dest src H mem p :
  0 <= H ->
  broadcast n dest src H mem p
  = if (dest <=? p) && (p <? dest + Z.of_nat n * H)
    then ram (src + (p - dest) mod H) else mem p.
Proof.
  intros HH. revert dest mem. induction n as [|n IH]; intros dest mem.
  - cbn [Attention.broadcast].
    destruct (Z.leb_spec dest p), (Z.ltb_spec p (dest + Z.of_nat 0 * H));
      try reflexivity; lia.
  - cbn [Attention.broadcast]. rewrite IH. unfold memcpy.
    rewrite Nat2Z.inj_succ.
    destruct (Z.leb_spec (dest + H) p), (Z.ltb_spec p (dest + H + Z.of_nat n * H)),
      (Z.leb_spec dest p), (Z.ltb_spec p (dest + H)),
      (Z.ltb_spec p (dest + Z.succ (Z.of_nat n) * H));
      cbn [andb]; try reflexivity; try nia.
    + replace (p - (dest + H)) with (p - dest + (-1) * H) by lia.
      rewrite Z.mod_add by lia. reflexivity.
    + rewrite Z.mod_small by lia. reflexivity.
Qed.

Variable g : Geometry.
Hypothesis Hvalid : valid_geometry g.

Lemma branch_cases i :
  0 <= i < 3 * g_batch g * g_heads g ->
  branch_of i = 0 \/ branch_of i = 1 \/ branch_of i = 2.
Proof. intros Hi. pose proof (decode_bounds g Hvalid i Hi). lia. Qed.

Lemma start_of_cpp branch :
  branch = 0 \/ branch = 1 \/ branch = 2 ->
  branch * (g_heads g * g_head_q g) = start_of g branch.
Proof.
  destruct Hvalid as (_ & _ & _ & _ & _ & _ & _ & Hqk & _).
  unfold start_of. rewrite Hqk. intros [ -> | [ -> | -> ] ]; cbn [Z.eqb Pos.eqb]; lia.
Qed.

(** The [int] operations of one work unit have results when the
    offsets fit. *)
Lemma unit_offsets i :
  offsets_fit_int g ->
  0 <= i < 3 * g_batch g * g_heads g ->
  let branch := branch_of i in
  let batch := batch_of g i in
  let head := head_of g i in
  let H := head_size_of g branch in
  let hidden_q := g_heads g * g_head_q g in
  let hidden_k := g_heads g * g_head_k g in
  let hidden_v := g_heads g * g_head_v g in
  int_mul batch (g_sequence g) = Some (batch * g_sequence g)
  /\ int_mul (batch * g_sequence g) (g_input_hidden g)
     = Some (batch * g_sequence g * g_input_hidden g)
  /\ int_mul branch hidden_q = Some (branch * hidden_q)
  /\ int_mul head H = Some (head * H)
  /\ int_add (branch * hidden_q) (head * H) = Some (branch * hidden_q + head * H)
  /\ int_mul batch (g_heads g) = Some (batch * g_heads g)
  /\ int_add (batch * g_heads g) head = Some (batch * g_heads g + head)
  /\ int_mul (g_sequence g) H = Some (g_sequence g * H)
  /\ int_mul (batch * g_heads g + head) (g_sequence g * H)
     = Some ((batch * g_heads g + head) * (g_sequence g * H))
  /\ int_add hidden_q hidden_k = Some (hidden_q + hidden_k)
  /\ int_add (hidden_q + hidden_k) hidden_v = Some (total_hidden g).
Proof.
  intros [Htotal Hfit] Hi branch batch head H hidden_q hidden_k hidden_v.
  destruct (decode_bounds g Hvalid i Hi) as (Hbr & Hhd & Hba & _).
  fold branch in Hbr. fold head in Hhd. fold batch in Hba.
  specialize (Hfit batch head branch Hba Hhd Hbr). cbv zeta in Hfit. fold H in Hfit.
  destruct Hfit as (F1 & F2 & F3 & F4).
  destruct Hvalid as (HNpos & HB0 & HS0 & HD0 & Hq0 & Hk0 & Hv0 & Hqk & Hint).
  unfold total_hidden in Htotal. fold hidden_q hidden_k hidden_v in Htotal.
  assert (0 <= hidden_q /\ 0 <= hidden_k /\ 0 <= hidden_v) as (Q0 & K0 & V0)
    by (unfold hidden_q, hidden_k, hidden_v; nia).
  assert (hidden_q = hidden_k) as Eqk by (unfold hidden_q, hidden_k; congruence).
  assert (0 <= H) as H0.
  { unfold H, head_size_of. repeat destruct (_ =? _); assumption. }
  assert (0 <= head * H /\ branch * hidden_q + head * H <= hidden_q + hidden_k + hidden_v)
    as (HH0 & Hcol).
  { split; [nia|].
    assert (head * H <= g_heads g * H) as Hle by nia.
    assert (branch = 0 \/ branch = 1 \/ branch = 2) as [E|[E|E]] by lia;
      unfold H, head_size_of in *; rewrite E in *; cbn [Z.eqb Pos.eqb] in *;
      unfold hidden_q, hidden_k, hidden_v in *; nia. }
  assert (0 <= branch * hidden_q) as Hbq by nia.
  repeat split.
  - apply int_mul_fits. nia.
  - apply int_mul_fits. nia.
  - apply int_mul_fits. nia.
  - apply int_mul_fits. nia.
  - apply int_add_fits. nia.
  - apply int_mul_fits. nia.
  - apply int_add_fits. nia.
  - apply int_mul_fits. nia.
  - apply int_mul_fits. nia.
  - apply int_add_fits. nia.
  - unfold total_hidden. fold hidden_q hidden_k hidden_v. apply int_add_fits. nia.
Qed.

(** The unpacked path of one work unit, with the offsets of the C++
    code replaced by the quantities of the specification. *)
Lemma qkv_unit_unpacked st h wd i mem :
  offsets_fit_int g ->
  is_prepack_ st = false ->
  num_heads_ (base st) = g_heads g ->
  0 <= i < 3 * g_batch g * g_heads g ->
  let branch := branch_of i in
  let H := head_size_of g branch in
  let column := start_of g branch + head_of g i * H in
  qkv_unit st h (capture_of g (Some wd)) i mem
  = Some (GemmEx (g_sequence g) H (g_input_hidden g)
            (g_input g + batch_of g i * g_sequence g * g_input_hidden g)
            (g_input_hidden g)
            (wd + column) (total_hidden g)
            (broadcast (Z.to_nat (g_sequence g)) (unit_start g i)
               (g_bias g + column) H mem)
            (unit_start g i) H).
Proof.
  intros Hfit Hflag HN Hi branch H column.
  destruct (unit_offsets i Hfit Hi)
    as (E1 & E2 & E3 & E4 & E5 & E6 & E7 & E8 & E9 & E10 & E11).
  fold branch in E3, E4, E5, E8, E9. fold H in E4, E5, E8, E9.
  unfold Attention.qkv_unit. rewrite Hflag, HN.
  destruct (decode_cpp g Hvalid i Hi) as (-> & -> & ->).
  fold branch.
  assert (Hdest : region_of g branch
                  + (batch_of g i * g_heads g + head_of g i) * (g_sequence g * H)
                  = unit_start g i).
  { unfold unit_start, dest_index. fold branch. fold H. lia. }
  assert (Hcol : branch * (g_heads g * g_head_q g) + head_of g i * H = column).
  { unfold column. rewrite (start_of_cpp branch (branch_cases i Hi)). reflexivity. }
  unfold capture_of.
  cbn [QKV Attention.qkv_head_size Attention.q_hidden_size Attention.k_hidden_size
         Attention.v_hidden_size Attention.sequence_length
         Attention.input_hidden_size Attention.input_data Attention.weights_data
         Attention.bias_data].
  assert (get3 (mkArray3 (region_of g 0) (region_of g 1) (region_of g 2)) branch
          = Some (region_of g branch)) as Eq.
  { destruct (branch_cases i Hi) as [E|[E|E]]; fold branch in E; rewrite E;
      reflexivity. }
  assert (get3 (mkArray3 (g_head_q g) (g_head_k g) (g_head_v g)) branch = Some H)
    as Eh.
  { unfold H. destruct (branch_cases i Hi) as [E|[E|E]]; fold branch in E;
      rewrite E; reflexivity. }
  rewrite E1. cbn [mbind option_bind]. rewrite E2. cbn [mbind option_bind].
  rewrite Eq. cbn [mbind option_bind]. rewrite Eh. cbn [mbind option_bind].
  rewrite E3. cbn [mbind option_bind]. rewrite E4. cbn [mbind option_bind].
  rewrite E5. cbn [mbind option_bind negb].
  rewrite E6. cbn [mbind option_bind]. rewrite E7. cbn [mbind option_bind].
  rewrite E8. cbn [mbind option_bind]. rewrite E9. cbn [mbind option_bind].
  rewrite E10. cbn [mbind option_bind]. rewrite E11. cbn [mbind option_bind].
  rewrite Hdest, Hcol. reflexivity.
Qed.

(** The general multiply on a destination that holds the broadcast
    bias. *)
Lemma GemmEx_on_broadcast S H D A W ldb dest src mem p :
  0 <= S -> 0 <= H ->
  GemmEx S H D A D W ldb (broadcast (Z.to_nat S) dest src H mem) dest H p
  = if (dest <=? p) && (p <? dest + S * H)
    then multiply_accumulate (ram (src + (p - dest) mod H))
           (map (fun k => ram (A + (p - dest) / H * D + k)) (seqZ 0 D))
           (map (fun k => ram (W + k * ldb + (p - dest) mod H)) (seqZ 0 D))
    else mem p.
Proof.
  intros HS HH. unfold Attention.GemmEx. rewrite broadcast_spec by exact HH.
  rewrite Z2Nat.id by exact HS.
  destruct (Z.leb_spec dest p) as [Hle|Hlt]; cbn [andb].
  2:{ destruct (Z.leb_spec 0 (p - dest)); [lia|]. reflexivity. }
  destruct (Z.ltb_spec p (dest + S * H)) as [Hin|Hout].
  - assert (0 < H) by nia.
    assert ((p - dest) / H < S) by (apply Z.div_lt_upper_bound; lia).
    pose proof (Z.mod_pos_bound (p - dest) H ltac:(lia)).
    destruct (Z.leb_spec 0 (p - dest)); [|lia].
    destruct (Z.ltb_spec 0 H); [|lia].
    destruct (Z.ltb_spec ((p - dest) / H) S); [|lia].
    destruct (Z.ltb_spec ((p - dest) mod H) H); [|lia].
    reflexivity.
  - destruct (Z.leb_spec 0 (p - dest)); [|reflexivity].
    destruct (Z.ltb_spec 0 H); [|reflexivity].
    destruct (Z.ltb_spec ((p - dest) / H) S) as [Hdiv|]; [|reflexivity].
    exfalso.
    pose proof (Z.div_mod (p - dest) H ltac:(lia)).
    pose proof (Z.mod_pos_bound (p - dest) H ltac:(lia)).
    nia.
Qed.


(** The general multiply of a unit, on the broadcast bias, leaves the
    value of the unit on the positions it owns. *)
Lemma GemmEx_unit_value i mem p :
  0 <= i < 3 * g_batch g * g_heads g ->
  let H := head_size_of g (branch_of i) in
  let column := start_of g (branch_of i) + head_of g i * H in
  GemmEx (g_sequence g) H (g_input_hidden g)
    (g_input g + batch_of g i * g_sequence g * g_input_hidden g)
    (g_input_hidden g) (g_weights g + column) (total_hidden g)
    (broadcast (Z.to_nat (g_sequence g)) (unit_start g i) (g_bias g + column) H mem)
    (unit_start g i) H p
  = if decide (in_unit g i p)
    then unit_value T ram multiply_accumulate g i p
    else mem p.
Proof.
  intros Hi H column.
  destruct Hvalid as (_ & _ & HS & _ & Hq & Hk & Hv & _).
  assert (0 <= H) as HH.
  { unfold H, head_size_of. repeat destruct (_ =? _); assumption. }
  rewrite GemmEx_on_broadcast by assumption.
  unfold in_unit. fold H.
  destruct (Z.leb_spec (unit_start g i) p),
    (Z.ltb_spec p (unit_start g i + g_sequence g * H)); cbn [andb];
    destruct (decide _) as [Hd|Hd]; try lia; try reflexivity.
  unfold unit_value, projected. fold H. fold column.
  f_equal.
  - f_equal. lia.
  - apply map_ext. intros k. f_equal. lia.
  - apply map_ext. intros k. f_equal. lia.
Qed.

(** The unpacked path meets the specification of a unit. *)
Lemma qkv_unit_unpacked_meets_spec st h :
  offsets_fit_int g ->
  is_prepack_ st = false ->
  num_heads_ (base st) = g_heads g ->
  unit_meets_spec T ram multiply_accumulate g
    (qkv_unit st h (capture_of g (Some (g_weights g)))).
Proof.
  intros Hfit Hflag HN i mem Hi.
  rewrite (qkv_unit_unpacked st h (g_weights g) i mem Hfit Hflag HN Hi).
  eexists. split; [reflexivity|]. intros p.
  apply GemmEx_unit_value. exact Hi.
Qed.

(** The range of a unit, by block: within the region of its branch,
    block [batch * num_heads + head] of [sequence_length * head_size]
    positions. *)
Lemma in_unit_block i p :
  0 <= i < 3 * g_batch g * g_heads g ->
  in_unit g i p ->
  let SH := g_sequence g * head_size_of g (branch_of i) in
  let blk := batch_of g i * g_heads g + head_of g i in
  exists r,
    0 <= blk < g_batch g * g_heads g
    /\ 0 <= r < SH
    /\ p - region_of g (branch_of i) = blk * SH + r
    /\ 0 <= p - region_of g (branch_of i) < g_batch g * g_heads g * SH.
Proof.
  intros Hi Hin SH blk.
  destruct (decode_bounds g Hvalid i Hi) as (Hbr & Hhd & Hba & _).
  pose proof (radix_bound (batch_of g i) (head_of g i) (g_batch g) (g_heads g) Hba Hhd)
    as Hblk. fold blk in Hblk.
  unfold in_unit in Hin. fold SH in Hin.
  assert (unit_start g i = region_of g (branch_of i) + blk * SH) as Hstart.
  { unfold unit_start, dest_index, blk, SH. lia. }
  rewrite Hstart in Hin.
  exists (p - region_of g (branch_of i) - blk * SH).
  assert (0 <= p - region_of g (branch_of i) - blk * SH < SH) as Hr by lia.
  split; [exact Hblk|]. split; [exact Hr|]. split; [lia|].
  pose proof (radix_bound blk _ (g_batch g * g_heads g) SH Hblk Hr). lia.
Qed.

(** Distinct units own disjoint positions. *)
Lemma units_disjoint i i' p :
  0 <= i < 3 * g_batch g * g_heads g ->
  0 <= i' < 3 * g_batch g * g_heads g ->
  in_unit g i p -> in_unit g i' p -> i = i'.
Proof.
  intros Hi Hi' Hin Hin'.
  destruct (in_unit_block i p Hi Hin) as (r & Hblk & Hr & Hp & Hreg).
  destruct (in_unit_block i' p Hi' Hin') as (r' & Hblk' & Hr' & Hp' & Hreg').
  destruct (decode_bounds g Hvalid i Hi) as (Hbr & Hhd & Hba & Hdec).
  destruct (decode_bounds g Hvalid i' Hi') as (Hbr' & Hhd' & Hba' & Hdec').
  destruct (decide (branch_of i = branch_of i')) as [Heq|Hne].
  - rewrite <- Heq in *. rewrite Hp in Hp'.
    apply radix_inj in Hp' as [Hb _]; [|lia|lia]. lia.
  - exfalso.
    destruct Hvalid as (HN & HB & HS & _ & Hq & Hk & Hv & Hqk & _).
    assert (forall H, g_batch g * g_heads g * (g_sequence g * H)
                      = g_batch g * g_sequence g * (g_heads g * H)) as Hre
        by (intros; lia).
    rewrite Hre in Hreg, Hreg'.
    assert (branch_of i = 0 \/ branch_of i = 1 \/ branch_of i = 2) as Hc by lia.
    assert (branch_of i' = 0 \/ branch_of i' = 1 \/ branch_of i' = 2) as Hc' by lia.
    destruct Hc as [E|[E|E]], Hc' as [E'|[E'|E']]; try congruence;
      rewrite E in Hreg; rewrite E' in Hreg';
      unfold region_of, head_size_of in Hreg, Hreg';
      cbn [Z.eqb Pos.eqb] in Hreg, Hreg'; lia.
Qed.


(** The loop over the units, run in any order: every position owned by
    a unit of the order holds the value of that unit, and every other
    position is as it was. *)
Lemma TryParallelFor_units fn order mem :
  unit_meets_spec T ram multiply_accumulate g fn ->
  Forall (fun i => 0 <= i < 3 * g_batch g * g_heads g) order ->
  exists mem',
    TryParallelFor T order fn mem = Some mem'
    /\ forall p,
         (forall i, i ∈ order -> in_unit g i p ->
                    mem' p = unit_value T ram multiply_accumulate g i p)
         /\ ((forall i, i ∈ order -> ~ in_unit g i p) -> mem' p = mem p).
Proof.
  intros Hfn Horder. revert mem.
  induction Horder as [|i rest Hi Hrest IH]; intros mem.
  - exists mem. split; [reflexivity|]. intros p.
    split; [intros i Hi; inversion Hi | reflexivity].
  - destruct (Hfn i mem Hi) as (mem1 & E1 & Hmem1).
    destruct (IH mem1) as (mem' & E' & Hmem').
    exists mem'. split.
    { cbn [Attention.TryParallelFor]. rewrite E1. exact E'. }
    rewrite Forall_forall in Hrest.
    intros p. destruct (Hmem' p) as [Hown Hframe]. split.
    + intros j Hj Hin. apply elem_of_cons in Hj as [->|Hj];
        [|exact (Hown j Hj Hin)].
      destruct (decide (Exists (fun j => in_unit g j p) rest)) as [Hex|Hnone].
      * apply Exists_exists in Hex as (j & Hj & Hinj).
        assert (i = j) as ->.
        { apply (units_disjoint i j p); [exact Hi| |exact Hin|exact Hinj].
          apply Hrest. exact Hj. }
        apply Hown; [exact Hj | exact Hinj].
      * rewrite Hframe.
        -- rewrite Hmem1. destruct (decide _); [reflexivity|contradiction].
        -- intros j Hj Hinj. apply Hnone. apply Exists_exists.
           exists j. split; [exact Hj | exact Hinj].
    + intros Hnone. rewrite Hframe.
      * rewrite Hmem1. destruct (decide _) as [Hin|]; [|reflexivity].
        exfalso. apply (Hnone i); [apply elem_of_cons; left; reflexivity | exact Hin].
      * intros j Hj. apply Hnone. apply elem_of_cons. right. exact Hj.
Qed.

End UnitFacts.

Section ComputeFacts.
Import Attention.
Variable T : Type.
Variable ram : Z -> T.
Variable MlasGemm_packed :
  Z -> Z -> Z -> (Z -> T) -> Z -> Z -> list byte -> (Z -> T) -> Z -> Z -> (Z -> T).
Variable multiply_accumulate : T -> list T -> list T -> T.

Local Abbreviation qkv_unit := (qkv_unit T ram MlasGemm_packed multiply_accumulate).
Local Abbreviation Compute_projection :=
  (Compute_projection T ram MlasGemm_packed multiply_accumulate).

Variable g : Geometry.
Hypothesis Hvalid : valid_geometry g.

Lemma hidden_bounds :
  0 <= g_heads g * g_head_q g /\ 0 <= g_heads g * g_head_k g
  /\ 0 <= g_heads g * g_head_v g.
Proof. destruct Hvalid as (? & ? & ? & ? & ? & ? & ? & ? & ?). nia. Qed.

(** The hidden sizes [Compute] works with are those of the
    configuration. *)
Lemma compute_hidden_sizes_described info input bias weights_shape :
  describes info input bias weights_shape g ->
  compute_hidden_sizes info weights_shape
  = Some (g_heads g * g_head_v g,
          (g_heads g * g_head_q g, g_heads g * g_head_k g, g_heads g * g_head_v g)).
Proof.
  intros (HN & _ & _ & _ & Hw & (HB & HS & HD & Htot) & Hsizes).
  pose proof hidden_bounds as (Hhq & Hhk & Hhv).
  unfold compute_hidden_sizes. rewrite Hw.
  change (at_ [g_input_hidden g; total_hidden g] 1) with (total_hidden g).
  destruct Hsizes as [(Hnil & Hk & Hv) | Hlist].
  - rewrite Hnil. change (size [] =? 0) with true. cbv iota.
    assert (total_hidden g = g_heads g * g_head_q g * 3) as Htotal.
    { unfold total_hidden. rewrite Hk, Hv. lia. }
    rewrite (static_cast_int_small (total_hidden g)) by (unfold total_hidden in *; lia).
    rewrite Htotal, Z.quot_mul by lia.
    cbn [mbind option_bind]. rewrite Hk, Hv. reflexivity.
  - rewrite Hlist.
    change (size [g_heads g * g_head_q g; g_heads g * g_head_k g;
                  g_heads g * g_head_v g] =? 0) with false.
    cbv iota. cbn [lookup list_lookup fmap option_fmap option_map mbind option_bind].
    unfold total_hidden in Htot.
    rewrite (static_cast_int_small (g_heads g * g_head_q g)),
      (static_cast_int_small (g_heads g * g_head_k g)),
      (static_cast_int_small (g_heads g * g_head_v g)) by lia.
    reflexivity.
Qed.

(** For operands that pass validation, [Compute] runs the loop over
    [3 * batch * num_heads] units with the captured variables of the
    configuration, and hands the result to the scoring engine. *)
Lemma Compute_projection_runs_loop st h indeterminate_v context gemm_data
    input bias mask' resolved :
  Input context 0 = Some input ->
  Input context 2 = Some bias ->
  GetTempSpaceAllocator context = Ok tt ->
  let weights := if is_prepack_ st then None else Input context 1 in
  let weights_shape :=
    match weights with Some w => Shape w | None => weight_shape_ st end in
  describes (base st) input bias weights_shape g ->
  AttentionBase.CheckInputs (base st) indeterminate_v (Shape input) weights_shape
    (Shape bias) (Input context 3) (Input context 4) (Input context 5)
    (Input context 6) (Input context 7) (Input context 8) (Input context 9)
  = (mask', Ok resolved) ->
  let c := capture_of g (DataPtr <$> weights) in
  Compute_projection st h indeterminate_v context gemm_data
  = (mem ← TryParallelFor T (schedule context (3 * g_batch g * g_heads g))
             (qkv_unit st h c) gemm_data;
     Some (Ok (mkProjection T mask' mem c (g_batch g)
                 (Output context 0
                    [g_batch g; g_sequence g; g_heads g * g_head_v g])))).
Proof.
  intros H0 H2 Halloc weights weights_shape Hdesc Hcheck c.
  pose proof (compute_hidden_sizes_described _ _ _ _ Hdesc) as Hhidden.
  destruct Hdesc as (HN & Hshape & Hin & Hbias & Hw & (HB & HS & HD & Htot) & Hsizes).
  destruct Hvalid as (HNpos & HB0 & HS0 & HD0 & Hq0 & Hk0 & Hv0 & Hqk & Hint).
  unfold Attention.Compute_projection.
  rewrite H0, H2. cbn [mbind option_bind].
  fold weights. fold weights_shape. rewrite Hcheck, Hhidden, Halloc.
  cbn [mbind option_bind].
  rewrite Hshape, HN.
  change (at_ [g_batch g; g_sequence g; g_input_hidden g] 0) with (g_batch g).
  change (at_ [g_batch g; g_sequence g; g_input_hidden g] 1) with (g_sequence g).
  change (at_ [g_batch g; g_sequence g; g_input_hidden g] 2) with (g_input_hidden g).
  rewrite (static_cast_int_small (g_batch g)),
    (static_cast_int_small (g_sequence g)),
    (static_cast_int_small (g_input_hidden g)) by lia.
  assert (Hregions :
    mkArray3 0 (0 + g_batch g * g_sequence g * (g_heads g * g_head_q g))
      (0 + g_batch g * g_sequence g * (g_heads g * g_head_q g)
       + g_batch g * g_sequence g * (g_heads g * g_head_k g))
    = mkArray3 (region_of g 0) (region_of g 1) (region_of g 2)).
  { unfold region_of. cbn [Z.eqb Pos.eqb]. f_equal; lia. }
  assert (Hquot : forall x, Z.quot (g_heads g * x) (g_heads g) = x).
  { intros x. rewrite Z.mul_comm. apply Z.quot_mul. lia. }
  rewrite !Hquot. cbv zeta.
  pose proof hidden_bounds as (Hhq & Hhk & Hhv). unfold total_hidden in Htot.
  rewrite (int_add_fits (g_heads g * g_head_q g) (g_heads g * g_head_k g)) by lia.
  cbn [mbind option_bind].
  rewrite (int_add_fits (g_heads g * g_head_q g + g_heads g * g_head_k g)
             (g_heads g * g_head_v g)) by lia.
  cbn [mbind option_bind].
  rewrite (int_mul_fits 3 (g_batch g)) by nia. cbn [mbind option_bind].
  rewrite (int_mul_fits (3 * g_batch g) (g_heads g)) by nia.
  cbn [mbind option_bind].
  unfold c, capture_of. rewrite <- Hregions, Hin, Hbias. reflexivity.
Qed.

End ComputeFacts.

Section ProjectionClaims.
Import Attention.
Variable T : Type.
Variable ram : Z -> T.
Variable MlasGemm_packed :
  Z -> Z -> Z -> (Z -> T) -> Z -> Z -> list byte -> (Z -> T) -> Z -> Z -> (Z -> T).
Variable multiply_accumulate : T -> list T -> list T -> T.

Local Abbreviation qkv_unit := (qkv_unit T ram MlasGemm_packed multiply_accumulate).
Local Abbreviation Compute_projection :=
  (Compute_projection T ram MlasGemm_packed multiply_accumulate).

(** Every (branch, batch, head) triple is the decoding of one index. *)
Lemma encode_decode g branch batch head :
  valid_geometry g ->
  0 <= branch < 3 -> 0 <= batch < g_batch g -> 0 <= head < g_heads g ->
  let i := (batch * g_heads g + head) * 3 + branch in
  0 <= i < 3 * g_batch g * g_heads g
  /\ branch_of i = branch /\ head_of g i = head /\ batch_of g i = batch.
Proof.
  intros Hvalid Hbr Hba Hhd i.
  pose proof (radix_bound batch head (g_batch g) (g_heads g) Hba Hhd) as Hblk.
  pose proof (radix_bound _ branch (g_batch g * g_heads g) 3 Hblk Hbr) as Hi.
  fold i in Hi.
  unfold branch_of, head_of, batch_of, i.
  rewrite radix_mod, !radix_div, radix_mod by lia.
  repeat split; lia.
Qed.

Lemma schedule_complete (order : list Z) n :
  order ≡ₚ seqZ 0 n ->
  Forall (fun i => 0 <= i < n) order /\ forall i, 0 <= i < n -> i ∈ order.
Proof.
  intros Hperm. split.
  - apply Forall_forall. intros i Hi. rewrite Hperm in Hi.
    apply elem_of_seqZ in Hi. lia.
  - intros i Hi. rewrite Hperm. apply elem_of_seqZ. lia.
Qed.


End ProjectionClaims.

Lemma scenario_geometry_valid : valid_geometry scenario_geometry.
Proof. unfold valid_geometry, scenario_geometry. cbn. lia. Qed.

Lemma scenario_offsets_fit : offsets_fit_int scenario_geometry.
Proof.
  split; [unfold total_hidden, scenario_geometry; cbn; lia|].
  intros batch head branch Hbatch Hhead Hbranch.
  unfold scenario_geometry in *. cbn in Hbatch, Hhead. cbn.
  assert (head_size_of (mkGeometry 1 2 4 2 2 2 2 0 100 200) branch = 2) as ->.
  { unfold head_size_of. cbn. repeat destruct (_ =? _); reflexivity. }
  nia.
Qed.

Lemma scenario_described :
  describes scenario scenario_input scenario_bias (Shape scenario_weights)
    scenario_geometry.
Proof.
  unfold describes, scenario_geometry, total_hidden. cbn.
  repeat split; try reflexivity. left. repeat split; reflexivity.
Qed.





(** ** The packed path *)

Lemma drop_concat_uniform {A} (m : nat) (l : list (list A)) (j : nat) :
  Forall (fun c => length c = m) l ->
  drop (j * m) (concat l) = concat (drop j l).
Proof.
  intros Hl. revert j. induction Hl as [|c l Hc Hl IH]; intros j.
  - cbn [concat]. rewrite !drop_nil. reflexivity.
  - destruct j as [|j]; [reflexivity|].
    cbn [concat Nat.mul]. rewrite <- Hc at 1.
    rewrite <- drop_drop, drop_app_length. cbn [drop]. apply IH.
Qed.

Section PackedLayout.
Import Attention.
Variable T : Type.
Variable ram : Z -> T.
Variable MlasGemmPackBSize : Z -> Z -> Z.
Variable MlasGemmPackB : Z -> Z -> (Z -> T) -> Z -> Z -> list byte -> list byte.

(** The contract of the pack routine that the layout relies on: it
    writes its destination in place. *)
Hypothesis pack_in_place :
  forall N K B ldb dest,
    length dest = Z.to_nat (MlasGemmPackBSize N K) ->
    length (MlasGemmPackB N K ram B ldb dest) = length dest.

Local Abbreviation chunks_of := (head_chunks T ram MlasGemmPackB).
Local Abbreviation pack_heads := (pack_heads T ram MlasGemmPackB).

Lemma head_chunks_length n hs D w ldb :
  Forall (fun c => length c = Z.to_nat (MlasGemmPackBSize hs D))
    (chunks_of n hs D w ldb (MlasGemmPackBSize hs D)).
Proof.
  revert w. induction n as [|n IH]; intros w; cbn [head_chunks].
  - constructor.
  - constructor; [|apply IH].
    rewrite pack_in_place; rewrite repeat_length; reflexivity.
Qed.

Lemma head_chunks_lookup n hs D w ldb pb (j : nat) :
  (j < n)%nat ->
  chunks_of n hs D w ldb pb !! j
  = Some (MlasGemmPackB hs D ram (w + Z.of_nat j * hs) ldb
            (repeat x00 (Z.to_nat pb))).
Proof.
  revert w j. induction n as [|n IH]; intros w j Hj; [lia|].
  destruct j as [|j]; cbn [head_chunks lookup list_lookup].
  - replace (w + Z.of_nat 0 * hs) with w by lia. reflexivity.
  - rewrite IH by lia.
    replace (w + hs + Z.of_nat j * hs) with (w + Z.of_nat (S j) * hs) by lia.
    reflexivity.
Qed.

(** The loop over the heads fills the zeroed buffer with the chunks of
    the heads, one after the other. *)
Lemma pack_heads_chunks n hs D w ldb done :
  let pb := MlasGemmPackBSize hs D in
  0 <= pb ->
  pack_heads n hs D w ldb pb (Z.of_nat (length done))
    (done ++ repeat x00 (n * Z.to_nat pb)%nat)%list
  = (done ++ concat (chunks_of n hs D w ldb pb))%list.
Proof.
  intros pb Hpb. revert w done. induction n as [|n IH]; intros w done.
  - cbn. reflexivity.
  - cbn [Attention.pack_heads head_chunks concat].
    unfold write_range.
    rewrite Nat2Z.id, take_app_length, drop_app_length.
    replace (S n * Z.to_nat pb)%nat with (Z.to_nat pb + n * Z.to_nat pb)%nat by lia.
    rewrite repeat_app, take_app_length'
      by (rewrite repeat_length; reflexivity).
    replace (Z.to_nat (Z.of_nat (length done) + pb))
      with (length done + Z.to_nat pb)%nat by lia.
    rewrite <- drop_drop, drop_app_length.
    rewrite drop_app_length' by (rewrite repeat_length; reflexivity).
    set (chunk := MlasGemmPackB hs D ram w ldb (repeat x00 (Z.to_nat pb))).
    assert (length chunk = Z.to_nat pb) as Hlen.
    { unfold chunk. rewrite pack_in_place; rewrite repeat_length; reflexivity. }
    replace (Z.of_nat (length done) + pb) with (Z.of_nat (length (done ++ chunk)%list))
      by (rewrite length_app, Hlen; lia).
    rewrite app_assoc. rewrite IH. rewrite <- app_assoc. reflexivity.
Qed.

(** The bytes from the sub-buffer of head [j] on, in a packed buffer. *)
Lemma packed_image_drop num_heads hs D w ldb (j : Z) :
  let pb := MlasGemmPackBSize hs D in
  0 <= pb ->
  0 <= j < to_size_t num_heads ->
  exists tail,
    drop (Z.to_nat (pb * j))
      (packed_image T ram MlasGemmPackBSize MlasGemmPackB num_heads hs D w ldb)
    = (MlasGemmPackB hs D ram (w + j * hs) ldb (repeat x00 (Z.to_nat pb)) ++ tail)%list.
Proof.
  intros pb Hpb Hj. unfold packed_image. fold pb.
  set (n := Z.to_nat (to_size_t num_heads)).
  replace (Z.to_nat (pb * to_size_t num_heads)) with (n * Z.to_nat pb)%nat
    by (unfold n; rewrite Z2Nat.inj_mul by lia; lia).
  pose proof (pack_heads_chunks n hs D w ldb [] Hpb) as Hchunks.
  cbn [length app] in Hchunks. fold pb in Hchunks.
  change (Z.of_nat 0) with 0 in Hchunks. rewrite Hchunks.
  replace (Z.to_nat (pb * j)) with (Z.to_nat j * Z.to_nat pb)%nat
    by (rewrite Z2Nat.inj_mul by lia; lia).
  rewrite (drop_concat_uniform (Z.to_nat pb)) by apply head_chunks_length.
  assert (chunks_of n hs D w ldb pb !! Z.to_nat j
          = Some (MlasGemmPackB hs D ram (w + j * hs) ldb
                    (repeat x00 (Z.to_nat pb)))) as Hlook.
  { rewrite head_chunks_lookup by (unfold n; lia).
    rewrite Z2Nat.id by lia. reflexivity. }
  rewrite (drop_S _ _ _ Hlook). cbn [concat]. eauto.
Qed.

End PackedLayout.

Section PackedUnit.
Import Attention.
Variable T : Type.
Variable ram : Z -> T.
Variable MlasGemmPackBSize : Z -> Z -> Z.
Variable MlasGemmPackB : Z -> Z -> (Z -> T) -> Z -> Z -> list byte -> list byte.
Variable MlasGemm_packed :
  Z -> Z -> Z -> (Z -> T) -> Z -> Z -> list byte -> (Z -> T) -> Z -> Z -> (Z -> T).
Variable multiply_accumulate : T -> list T -> list T -> T.

(** The contract of the vendor routines: sizes are not negative, the
    pack routine writes its destination in place, and multiplying
    against an operand packed into a zeroed destination gives what the
    general multiply gives against the operand itself. *)
Hypothesis size_not_negative : forall N K, 0 <= MlasGemmPackBSize N K.
Hypothesis pack_in_place :
  forall N K B ldb dest,
    length dest = Z.to_nat (MlasGemmPackBSize N K) ->
    length (MlasGemmPackB N K ram B ldb dest) = length dest.
Hypothesis packed_multiply :
  forall M N K A lda B ldb tail mem C ldc p,
    MlasGemm_packed M N K ram A lda
      (MlasGemmPackB N K ram B ldb (repeat x00 (Z.to_nat (MlasGemmPackBSize N K)))
       ++ tail)%list mem C ldc p
    = GemmEx T ram multiply_accumulate M N K A lda B ldb mem C ldc p.

Local Abbreviation qkv_unit := (qkv_unit T ram MlasGemm_packed multiply_accumulate).

Variable g : Geometry.
Hypothesis Hvalid : valid_geometry g.
Hypothesis Hoffsets : offsets_fit_int g.
Hypothesis Hpositive : 0 < g_head_q g /\ 0 < g_head_k g /\ 0 < g_head_v g.
Hypothesis Hheads : g_heads g < 2 ^ 64.
Hypothesis Hfits :
  forall branch,
    MlasGemmPackBSize (head_size_of g branch) (g_input_hidden g) * g_heads g < 2 ^ 64.


End PackedUnit.

Section PackedAgreesWithUnpacked.
Import Attention.
Variable T : Type.
Variable ram : Z -> T.
Variable MlasGemmPackBSize : Z -> Z -> Z.
Variable MlasGemmPackB : Z -> Z -> (Z -> T) -> Z -> Z -> list byte -> list byte.
Variable MlasGemm_packed :
  Z -> Z -> Z -> (Z -> T) -> Z -> Z -> list byte -> (Z -> T) -> Z -> Z -> (Z -> T).
Variable multiply_accumulate : T -> list T -> list T -> T.

Local Abbreviation PrePack := (PrePack T ram MlasGemmPackBSize MlasGemmPackB).
Local Abbreviation Compute_projection :=
  (Compute_projection T ram MlasGemm_packed multiply_accumulate).

Variable g : Geometry.
Hypothesis Hvalid : valid_geometry g.
Hypothesis Hoffsets : offsets_fit_int g.
Hypothesis Hpositive : 0 < g_head_q g /\ 0 < g_head_k g /\ 0 < g_head_v g.




Hypothesis size_not_negative : forall N K, 0 <= MlasGemmPackBSize N K.
Hypothesis pack_in_place :
  forall N K B ldb dest,
    length dest = Z.to_nat (MlasGemmPackBSize N K) ->
    length (MlasGemmPackB N K ram B ldb dest) = length dest.
Hypothesis packed_multiply :
  forall M N K A lda B ldb tail mem C ldc p,
    MlasGemm_packed M N K ram A lda
      (MlasGemmPackB N K ram B ldb (repeat x00 (Z.to_nat (MlasGemmPackBSize N K)))
       ++ tail)%list mem C ldc p
    = GemmEx T ram multiply_accumulate M N K A lda B ldb mem C ldc p.


End PackedAgreesWithUnpacked.

(** ** The small vendor keeps the contract *)

Lemma toy_size_not_negative N K : 0 <= toy_PackBSize N K.
Proof. unfold toy_PackBSize. lia. Qed.

Lemma toy_pack_in_place (ram : Z -> bool) N K B ldb dest :
  length dest = Z.to_nat (toy_PackBSize N K) ->
  length (toy_PackB N K ram B ldb dest) = length dest.
Proof.
  intros ->. unfold toy_PackB, toy_PackBSize.
  rewrite length_map, length_seqZ. lia.
Qed.







(** ** The packed-mode flag *)

Section PackedModeFlag.
Import Attention.
Variable T : Type.
Variable ram : Z -> T.
Variable MlasGemmPackBSize : Z -> Z -> Z.
Variable MlasGemmPackB : Z -> Z -> (Z -> T) -> Z -> Z -> list byte -> list byte.
Variable multiply_accumulate : T -> list T -> list T -> T.

Local Abbreviation PrePack := (PrePack T ram MlasGemmPackBSize MlasGemmPackB).

Lemma TryParallelFor_ext order (f f' : Z -> (Z -> T) -> option (Z -> T)) mem :
  (forall i m, f i m = f' i m) ->
  TryParallelFor T order f mem = TryParallelFor T order f' mem.
Proof.
  intros Hext. revert mem. induction order as [|i rest IH]; intros mem.
  - reflexivity.
  - cbn [Attention.TryParallelFor]. rewrite Hext.
    destruct (f' i mem) as [m|]; cbn [mbind option_bind]; [apply IH|reflexivity].
Qed.

(** With the flag off, a work unit reads neither the heap, nor the
    packed buffers, nor the packed multiply: it depends on the operator
    through its attributes only. *)
Lemma qkv_unit_flag_off gp gp' st st' h h' c i mem :
  is_prepack_ st = false -> is_prepack_ st' = false -> base st = base st' ->
  qkv_unit T ram gp multiply_accumulate st h c i mem
  = qkv_unit T ram gp' multiply_accumulate st' h' c i mem.
Proof.
  intros Hflag Hflag' Hbase. unfold qkv_unit.
  rewrite Hflag, Hflag', Hbase. reflexivity.
Qed.

Lemma Compute_projection_flag_off gp gp' st st' h h' gv context gemm_data :
  is_prepack_ st = false -> is_prepack_ st' = false ->
  base st = base st' -> weight_shape_ st = weight_shape_ st' ->
  Compute_projection T ram gp multiply_accumulate st h gv context gemm_data
  = Compute_projection T ram gp' multiply_accumulate st' h' gv context gemm_data.
Proof.
  intros Hflag Hflag' Hbase Hshape. unfold Compute_projection.
  rewrite Hflag, Hflag', Hbase, Hshape.
  destruct (Input context 0) as [input|]; [|reflexivity].
  destruct (Input context 2) as [bias|]; [|reflexivity].
  cbn [mbind option_bind].
  destruct (AttentionBase.CheckInputs _ _ _ _ _ _ _ _ _ _ _ _) as [mask [res|msg args]];
    [|reflexivity].
  destruct (compute_hidden_sizes _ _) as [[hidden [[q k] v]]|];
    cbn [mbind option_bind]; [|reflexivity].
  destruct (GetTempSpaceAllocator context); [|reflexivity].
  destruct (int_add q k) as [qk|]; cbn [mbind option_bind]; [|reflexivity].
  destruct (int_add qk v) as [qkv|]; cbn [mbind option_bind]; [|reflexivity].
  destruct (int_mul 3 _) as [b3|]; cbn [mbind option_bind]; [|reflexivity].
  destruct (int_mul b3 _) as [loop_len|]; cbn [mbind option_bind]; [|reflexivity].
  erewrite TryParallelFor_ext;
    [reflexivity | intros; apply qkv_unit_flag_off; assumption].
Qed.

(** With the flag off, the weights [Compute] hands to the loop are
    those of input slot 1. *)
Lemma Compute_projection_reads_weights gp st h gv context gemm_data projection :
  is_prepack_ st = false ->
  Compute_projection T ram gp multiply_accumulate st h gv context gemm_data
  = Some (Ok projection) ->
  weights_data (captured T projection) = DataPtr <$> Input context 1.
Proof.
  intros Hflag. unfold Compute_projection. rewrite Hflag.
  destruct (Input context 0) as [input|]; [|discriminate].
  destruct (Input context 2) as [bias|]; [|discriminate].
  cbn [mbind option_bind].
  destruct (AttentionBase.CheckInputs _ _ _ _ _ _ _ _ _ _ _ _) as [mask [res|msg args]];
    [|discriminate].
  destruct (compute_hidden_sizes _ _) as [[hidden [[q k] v]]|];
    cbn [mbind option_bind]; [|discriminate].
  destruct (GetTempSpaceAllocator context); [|discriminate].
  destruct (int_add q k) as [qk|]; cbn [mbind option_bind]; [|discriminate].
  destruct (int_add qk v) as [qkv|]; cbn [mbind option_bind]; [|discriminate].
  destruct (int_mul 3 _) as [b3|]; cbn [mbind option_bind]; [|discriminate].
  destruct (int_mul b3 _) as [loop_len|]; cbn [mbind option_bind]; [|discriminate].
  destruct (TryParallelFor _ _ _ _) as [mem|]; cbn [mbind option_bind];
    try discriminate; intros H; inversion H; reflexivity.
Qed.

(** Adopting three shared buffers: they become the buffers of the
    operator, the vector keeps null pointers, and nothing else of the
    operator changes. *)
Lemma UseSharedPrePackedBuffers_adopts st h b0 b1 b2 rest used :
  exists st' h',
    UseSharedPrePackedBuffers st h (b0 :: b1 :: b2 :: rest) 1 used
    = Some (Ok tt, st', h', None :: None :: None :: rest, true)
    /\ packed_weights_ st' = mkArray3 b0 b1 b2
    /\ is_prepack_ st' = is_prepack_ st
    /\ packed_weights_size_ st' = packed_weights_size_ st
    /\ base st' = base st
    /\ weight_shape_ st' = weight_shape_ st.
Proof.
  unfold UseSharedPrePackedBuffers. change (1 !=? 1) with false. cbv iota.
  change (Z.of_nat 0) with 0. change (Z.of_nat 1) with 1. change (Z.of_nat 2) with 2.
  repeat (rewrite ?get3_0, ?get3_1, ?get3_2, ?set3_0, ?set3_1, ?set3_2;
          cbn [mbind option_bind lookup list_lookup insert list_insert
                 packed_weights_ set_packed_weights_]).
  eexists _, _. split; [reflexivity|].
  cbn [packed_weights_ set_packed_weights_ is_prepack_ packed_weights_size_ base
         weight_shape_ elt0 elt1 elt2].
  repeat split; reflexivity.
Qed.

Lemma UseSharedPrePackedBuffers_other_slot st h buffers input_idx used :
  input_idx <> 1 ->
  UseSharedPrePackedBuffers st h buffers input_idx used
  = Some (Ok tt, st, h, buffers, used).
Proof.
  intros Hne. unfold UseSharedPrePackedBuffers.
  destruct (1 !=? input_idx) eqn:E; [reflexivity|].
  apply neq_false in E. congruence.
Qed.

(** C10.
    - A call of [PrePack] that returns sets the packed-mode flag exactly
      when it reports [is_packed], which it does only for the weight
      slot and after each of the three packs succeeded.
    - [UseSharedPrePackedBuffers] on the weight slot stores the three
      buffers it is given as the buffers of the operator and leaves the
      flag as it was.
    - So, for an operator that was constructed and then only adopted
      shared buffers, the flag is off, and [Compute] does what it does
      on a freshly constructed operator, whatever the heap holds and
      whatever the packed multiply would compute: it hands the weights
      of input slot 1 to the loop, and the loop takes the unpacked
      path. *)
Theorem C10_only_prepack_sets_the_packed_mode_flag :
  (forall st h weights input_idx alloc pw r,
      PrePack st h weights input_idx alloc pw = Some r ->
      is_prepack_ (pp_self r) = is_prepack_ st || pp_is_packed r
      /\ (pp_is_packed r = true ->
          input_idx = 1
          /\ exists q k v,
              pack_hidden_sizes (base st) (Shape weights) = Some (Some (q, k, v))
              /\ let N := to_size_t (num_heads_ (base st)) in
                 let D := to_size_t (at_ (Shape weights) 0) in
                 MlasGemmPackBSize (Z.quot q N) D <> 0
                 /\ MlasGemmPackBSize (Z.quot k N) D <> 0
                 /\ MlasGemmPackBSize (Z.quot v N) D <> 0))
  /\ (forall st h b0 b1 b2 rest used,
         exists st' h',
           UseSharedPrePackedBuffers st h (b0 :: b1 :: b2 :: rest) 1 used
           = Some (Ok tt, st', h', None :: None :: None :: rest, true)
           /\ packed_weights_ st' = mkArray3 b0 b1 b2
           /\ is_prepack_ st' = is_prepack_ st)
  /\ (forall info h b0 b1 b2 rest used st' h' bufs' used'
             gp gp' h'' gv context gemm_data,
         UseSharedPrePackedBuffers (constructed info) h (b0 :: b1 :: b2 :: rest) 1 used
         = Some (Ok tt, st', h', bufs', used') ->
         is_prepack_ st' = false
         /\ Compute_projection T ram gp multiply_accumulate st' h' gv context gemm_data
            = Compute_projection T ram gp' multiply_accumulate (constructed info) h''
                gv context gemm_data
         /\ forall projection,
              Compute_projection T ram gp multiply_accumulate st' h' gv context
                gemm_data = Some (Ok projection) ->
              weights_data (captured T projection) = DataPtr <$> Input context 1).
Proof.
  split; [|split].
  - intros st h weights input_idx alloc pw r Hrun.
    destruct (PrePack_flag T ram MlasGemmPackBSize MlasGemmPackB _ _ _ _ _ _ _ Hrun)
      as (_ & Hflag & Hinv).
    split; [exact Hflag|]. intros Hpacked.
    destruct (Hinv Hpacked) as (Hidx & _ & q & k & v & Hsizes & Hnz).
    split; [exact Hidx|]. exists q, k, v. split; [exact Hsizes | exact Hnz].
  - intros st h b0 b1 b2 rest used.
    destruct (UseSharedPrePackedBuffers_adopts st h b0 b1 b2 rest used)
      as (st' & h' & E & Hslots & Hflag & _).
    exists st', h'. auto.
  - intros info h b0 b1 b2 rest used st' h' bufs' used' gp gp' h'' gv context
           gemm_data Hadopt.
    destruct (UseSharedPrePackedBuffers_adopts (constructed info) h b0 b1 b2 rest used)
      as (st1 & h1 & E & _ & Hflag & _ & Hbase & Hshape).
    rewrite E in Hadopt. inversion Hadopt; subst st1 h1 bufs' used'.
    cbn [is_prepack_ constructed] in Hflag.
    split; [exact Hflag|]. split.
    + apply Compute_projection_flag_off; [exact Hflag|reflexivity|exact Hbase|exact Hshape].
    + intros projection Hrun.
      exact (Compute_projection_reads_weights gp st' h' gv context gemm_data
               projection Hflag Hrun).
Qed.

End PackedModeFlag.

(** C10, at a concrete operator: the scenario's operator adopts one
    shared buffer that lives at address 2 of a heap and two null
    pointers; the flag stays off and [Compute] reads the weight input and
    projects as a freshly constructed operator does on an empty heap. *)
Lemma C10_adoption_witness :
  exists st' h',
    Attention.UseSharedPrePackedBuffers (constructed scenario) busy_heap
      [Some 2%nat; None; None] 1 false
    = Some (Ok tt, st', h', [None; None; None], true)
    /\ packed_weights_ st' = mkArray3 (Some 2%nat) None None
    /\ is_prepack_ st' = false
    /\ Attention.Compute_projection bool toy_ram toy_Gemm_packed toy_multiply_accumulate
         st' h' 4 scenario_context (fun _ => false)
       = Attention.Compute_projection bool toy_ram (fun _ _ _ _ _ _ _ mem _ _ => mem)
           toy_multiply_accumulate (constructed scenario) empty_heap 4
           scenario_context (fun _ => false).
Proof.
  pose proof (C10_only_prepack_sets_the_packed_mode_flag bool toy_ram toy_PackBSize
                toy_PackB toy_multiply_accumulate) as (_ & Hadopt & Hcompute).
  destruct (Hadopt (constructed scenario) busy_heap (Some 2%nat) None None [] false)
    as (st' & h' & E & Hslots & Hflag).
  destruct (Hcompute scenario busy_heap (Some 2%nat) None None [] false st' h'
              [None; None; None] true toy_Gemm_packed
              (fun _ _ _ _ _ _ _ mem _ _ => mem) empty_heap 4 scenario_context
              (fun _ => false) E) as (Hoff & Hsame & _).
  exists st', h'. auto.
Defined.

(** * Further properties of the validation *)

Lemma size_1_inv (l : list Z) : size l = 1 -> exists a, l = [a].
Proof.
  unfold size. destruct l as [|a [|? ?]]; cbn [length]; intros H; try lia. eauto.
Qed.

Lemma size_2_inv (l : list Z) : size l = 2 -> exists a b, l = [a; b].
Proof.
  unfold size. destruct l as [|a [|b [|? ?]]]; cbn [length]; intros H; try lia. eauto.
Qed.

Lemma size_3_inv (l : list Z) : size l = 3 -> exists a b c, l = [a; b; c].
Proof.
  unfold size. destruct l as [|a [|b [|c [|? ?]]]]; cbn [length]; intros H; try lia.
  eauto.
Qed.

Lemma size_4_inv (l : list Z) : size l = 4 -> exists a b c d, l = [a; b; c; d].
Proof.
  unfold size. destruct l as [|a [|b [|c [|d [|? ?]]]]]; cbn [length]; intros H;
    try lia. eauto.
Qed.

Lemma size_5_inv (l : list Z) : size l = 5 -> exists a b c d e, l = [a; b; c; d; e].
Proof.
  unfold size. destruct l as [|a [|b [|c [|d [|e [|? ?]]]]]]; cbn [length]; intros H;
    try lia. eauto 6.
Qed.

(** One guard of a chain: either it fires, which contradicts success, or
    its condition is false. *)
Ltac pass_guard :=
  match goal with
  | |- (if ?c then Error _ _ else _) = Ok _ -> _ =>
      let E := fresh "G" in destruct c eqn:E; [discriminate|]
  end.

Section ValidationFacts.
Import AttentionBase.
Variable self : AttentionBase.

Lemma check_shapes_ok input_shape weights_shape bias_shape past extra b s d :
  check_shapes input_shape weights_shape bias_shape past extra = Ok (b, s, d) ->
  (past = None \/ extra = None)
  /\ input_shape = [b; s; d]
  /\ exists cols, weights_shape = [d; cols] /\ bias_shape = [cols].
Proof.
  unfold check_shapes. repeat pass_guard. intros H. inversion H; subst b s d. clear H.
  apply neq_false in G0, G1, G2, G3, G4.
  destruct (size_3_inv _ G0) as (b & s & d & ->).
  destruct (size_2_inv _ G1) as (w0 & cols & ->).
  destruct (size_1_inv _ G3) as (c & ->).
  unfold at_ in *. cbn [nth] in *. subst w0 c.
  split; [|split; [reflexivity|eauto]].
  destruct past, extra; auto. discriminate G.
Qed.

Lemma check_divisible_spec sizes :
  check_divisible self sizes
  = match first_indivisible (num_heads_ self) sizes with
    | Some x => Error "hidden_size should be divisible by num_heads:" [x]
    | None => Ok tt
    end.
Proof.
  induction sizes as [|x rest IH]; [reflexivity|].
  cbn [check_divisible first_indivisible]. unfold neq.
  destruct (Z.rem x (num_heads_ self) =? 0); cbn [negb]; [exact IH|reflexivity].
Qed.

Lemma first_indivisible_None num_heads sizes :
  first_indivisible num_heads sizes = None
  <-> Forall (fun x => Z.rem x num_heads = 0) sizes.
Proof.
  induction sizes as [|x rest IH]; cbn [first_indivisible].
  - split; [constructor|reflexivity].
  - destruct (Z.eqb_spec (Z.rem x num_heads) 0) as [E|E].
    + rewrite IH. split; [intros H; constructor; assumption|].
      intros H. inversion H. assumption.
    + split; [discriminate|]. intros H. inversion H. contradiction.
Qed.

Lemma first_indivisible_Some num_heads sizes x :
  first_indivisible num_heads sizes = Some x ->
  x ∈ sizes /\ Z.rem x num_heads <> 0.
Proof.
  induction sizes as [|y rest IH]; cbn [first_indivisible]; [discriminate|].
  destruct (Z.eqb_spec (Z.rem y num_heads) 0) as [E|E].
  - intros H. destruct (IH H). split; [apply elem_of_cons; auto|assumption].
  - intros H. inversion H; subst. split; [apply elem_of_cons; auto|assumption].
Qed.

(** What a successful resolution says with merged weights. *)
Lemma resolve_merged_ok g b s d weights_dims bias_dims key value wk wv q k v t :
  use_merged_weights_ self = true ->
  resolve_hidden_sizes self g b s d weights_dims bias_dims key value wk wv
  = Ok (q, k, v, t) ->
  t = s
  /\ ((qkv_hidden_sizes_ self = []
       /\ q = Z.quot (at_ bias_dims 0) 3 /\ k = q /\ v = g)
      \/ (qkv_hidden_sizes_ self = [q; k; v] /\ q = k
          /\ Z.rem q (num_heads_ self) = 0 /\ Z.rem k (num_heads_ self) = 0
          /\ Z.rem v (num_heads_ self) = 0)).
Proof.
  intros Hmerged. unfold resolve_hidden_sizes. rewrite Hmerged. cbn [negb].
  destruct (size (qkv_hidden_sizes_ self) !=? 0) eqn:Hsize.
  - pass_guard. apply neq_false in G.
    destruct (size_3_inv _ G) as (x & y & z & Hl). rewrite Hl.
    rewrite check_divisible_spec.
    destruct (first_indivisible _ _) eqn:Hdiv; [discriminate|].
    cbn [bind]. unfold at_. cbn [nth]. pass_guard. apply neq_false in G0.
    intros H. inversion H; subst. split; [reflexivity|]. right.
    apply first_indivisible_None in Hdiv.
    inversion Hdiv as [|? ? Hx Hrest]; subst.
    inversion Hrest as [|? ? Hy Hrest']; subst.
    inversion Hrest' as [|? ? Hz _]; subst. auto.
  - apply neq_false in Hsize. intros H. inversion H; subst.
    split; [reflexivity|]. left.
    unfold size in Hsize. destruct (qkv_hidden_sizes_ self); [auto|discriminate].
Qed.

(** What a successful resolution says with separate weights. *)
Lemma resolve_separate_ok g b s d weights_dims bias_dims key value wk wv q k v t :
  use_merged_weights_ self = false ->
  resolve_hidden_sizes self g b s d weights_dims bias_dims key value wk wv
  = Ok (q, k, v, t) ->
  q = at_ weights_dims 1
  /\ exists tk tv twk twv,
       key = Some tk /\ value = Some tv /\ wk = Some twk /\ wv = Some twv
       /\ Shape tk = [b; t; d] /\ Shape tv = [b; t; d]
       /\ Shape twk = [d; k] /\ Shape twv = [d; v].
Proof.
  intros Hmerged. unfold resolve_hidden_sizes. rewrite Hmerged. cbn [negb].
  destruct key as [tk|], value as [tv|], wk as [twk|], wv as [twv|];
    try discriminate.
  repeat pass_guard. intros H. inversion H; subst. clear H.
  apply neq_false in G, G0, G1, G2, G3, G4, G5, G6, G7, G8, G9.
  destruct (size_3_inv _ G) as (k0 & k1 & k2 & Hk).
  destruct (size_3_inv _ G2) as (v0 & v1 & v2 & Hv).
  destruct (size_2_inv _ G6) as (a0 & a1 & Ha).
  destruct (size_2_inv _ G8) as (c0 & c1 & Hc).
  rewrite Hk, Hv, Ha, Hc in *. unfold at_ in *. cbn [nth] in *. subst.
  split; [reflexivity|]. exists tk, tv, twk, twv. repeat split; assumption.
Qed.

Lemma check_past_ok past b k v t total :
  check_past self past b k v t = Ok total ->
  match past with
  | None => total = t
  | Some p =>
      k = v
      /\ exists heads past_len head,
           Shape p = [2; b; heads; past_len; head]
           /\ static_cast_int heads = num_heads_ self
           /\ static_cast_int head = Z.quot k (num_heads_ self)
           /\ total = t + past_len
  end.
Proof.
  unfold check_past. destruct past as [p|].
  - repeat pass_guard. intros H. inversion H; subst. clear H.
    apply neq_false in G, G0, G1, G2, G3, G4.
    destruct (size_5_inv _ G0) as (p0 & p1 & p2 & p3 & p4 & Hp).
    rewrite Hp in *. unfold at_ in *. cbn [nth] in *. subst.
    split; [reflexivity|]. exists p2, p3, p4. auto.
  - intros H. inversion H. reflexivity.
Qed.

Lemma check_mask_index_ok mask b s total m' :
  check_mask_index self mask b s total = (m', Ok tt) ->
  m' = None
  \/ (exists mk, m' = Some mk /\ mask = Some mk
                 /\ legal_mask_shape (is_unidirectional_ self) b s total (Shape mk)).
Proof.
  unfold check_mask_index. destruct mask as [mk|];
    [|intros H; inversion H; auto].
  destruct (size (Shape mk) =? 1) eqn:E1.
  { apply Z.eqb_eq in E1. destruct (size_1_inv _ E1) as (d & Hd).
    rewrite Hd. unfold at_. cbn [nth].
    destruct (_ && _) eqn:Hc; intros H; inversion H; subst. right.
    exists mk. split; [reflexivity|]. split; [reflexivity|].
    rewrite Hd. left. exists d. split; [reflexivity|].
    apply andb_false_iff in Hc as [Hc|Hc]; apply neq_false in Hc; auto. }
  destruct (size (Shape mk) =? 2) eqn:E2.
  { apply Z.eqb_eq in E2. destruct (size_2_inv _ E2) as (d0 & d1 & Hd).
    rewrite Hd. unfold at_. cbn [nth].
    destruct (_ || _) eqn:Hc.
    - destruct (_ && _); intros H; inversion H; auto.
    - intros H; inversion H; subst. right.
      exists mk. split; [reflexivity|]. split; [reflexivity|].
      rewrite Hd. right. left.
      apply orb_false_iff in Hc as [H0 H1]. apply neq_false in H0, H1.
      subst. reflexivity. }
  destruct (size (Shape mk) =? 3) eqn:E3.
  { apply Z.eqb_eq in E3. destruct (size_3_inv _ E3) as (d0 & d1 & d2 & Hd).
    rewrite Hd. unfold at_. cbn [nth].
    destruct (_ || _) eqn:Hc; intros H; inversion H; subst. right.
    exists mk. split; [reflexivity|]. split; [reflexivity|].
    rewrite Hd. right. right. left.
    apply orb_false_iff in Hc as [Hc H2]. apply orb_false_iff in Hc as [H0 H1].
    apply neq_false in H0, H1, H2. subst. reflexivity. }
  destruct (size (Shape mk) =? 4) eqn:E4.
  { apply Z.eqb_eq in E4. destruct (size_4_inv _ E4) as (d0 & d1 & d2 & d3 & Hd).
    rewrite Hd. unfold at_. cbn [nth].
    destruct (_ || _) eqn:Hc; [intros H; inversion H|].
    destruct (is_unidirectional_ self) eqn:Hu; intros H; inversion H; subst. right.
    exists mk. split; [reflexivity|]. split; [reflexivity|].
    rewrite Hd. right. right. right.
    apply orb_false_iff in Hc as [Hc H3]. apply orb_false_iff in Hc as [Hc H2].
    apply orb_false_iff in Hc as [H0 H1].
    apply neq_false in H0, H1, H2. apply Z.ltb_ge in H3. subst.
    exists d3. auto. }
  intros H; inversion H.
Qed.

Lemma check_extra_add_qk_ok extra b s :
  check_extra_add_qk self extra b s = Ok tt ->
  forall e, extra = Some e -> Shape e = [b; num_heads_ self; s; s].
Proof.
  unfold check_extra_add_qk. destruct extra as [e|]; [|discriminate].
  repeat pass_guard. intros _ e' He. inversion He; subst e'.
  apply neq_false in G, G0, G1, G2, G3.
  destruct (size_4_inv _ G) as (e0 & e1 & e2 & e3 & Hs).
  rewrite Hs in *. unfold at_ in *. cbn [nth] in *. subst. reflexivity.
Qed.

(** [CheckInputs] succeeds exactly when its six stages succeed. *)
Lemma CheckInputs_ok_stages g input_shape weights_shape bias_shape mask past extra
    key value wk wv m r :
  CheckInputs self g input_shape weights_shape bias_shape mask past extra
    key value wk wv = (m, Ok r) ->
  exists b s d,
    check_shapes input_shape weights_shape bias_shape past extra = Ok (b, s, d)
    /\ resolve_hidden_sizes self g b s d weights_shape bias_shape key value wk wv
       = Ok (hidden_size_q r, hidden_size_k r, hidden_size_v r,
             target_sequence_length r)
    /\ check_bias_sum bias_shape (hidden_size_q r) (hidden_size_k r)
         (hidden_size_v r) = Ok tt
    /\ check_past self past b (hidden_size_k r) (hidden_size_v r)
         (target_sequence_length r) = Ok (total_sequence_length r)
    /\ check_mask_index self mask b s (total_sequence_length r) = (m, Ok tt)
    /\ check_extra_add_qk self extra b s = Ok tt.
Proof.
  unfold CheckInputs.
  destruct (check_shapes _ _ _ _ _) as [[[b s] d]|] eqn:Hshapes; [|discriminate].
  destruct (resolve_hidden_sizes _ _ _ _ _ _ _ _ _ _ _) as [[[[q k] v] t]|]
    eqn:Hresolve; [|discriminate].
  destruct (check_bias_sum _ _ _ _) as [[]|] eqn:Hsum; [|discriminate].
  destruct (check_past _ _ _ _ _ _) as [total|] eqn:Hpast; [|discriminate].
  destruct (check_mask_index _ _ _ _ _) as [m' [[]|? ?]] eqn:Hmask; [|discriminate].
  destruct (check_extra_add_qk _ _ _ _) as [[]|] eqn:Hextra; [|discriminate].
  intros H. inversion H; subst. cbn.
  exists b, s, d. repeat split; assumption.
Qed.

End ValidationFacts.

Section ValidationProperties.
Import AttentionBase.

(** X1.  With merged weights, a successful validation fixes the shapes of the
    three required operands: the input is [[batch; sequence; D]], the
    weights are [[D; q + k + v]] and the bias is [[q + k + v]] for the
    resolved hidden sizes, which have [q = k]; the target sequence length
    is the sequence length of the input.  With a [qkv_hidden_sizes]
    attribute, the attribute is the list of the three resolved sizes and
    the number of heads divides each of them; without it, [q] is a third
    of the bias length. *)
Theorem merged_validation_fixes_the_operand_shapes :
  forall self indeterminate_v input_shape weights_shape bias_shape
         mask past extra_add_qk key value weight_key weight_value m r,
    use_merged_weights_ self = true ->
    CheckInputs self indeterminate_v input_shape weights_shape bias_shape
      mask past extra_add_qk key value weight_key weight_value = (m, Ok r) ->
    let q := hidden_size_q r in
    let k := hidden_size_k r in
    let v := hidden_size_v r in
    (exists batch input_hidden,
        input_shape = [batch; target_sequence_length r; input_hidden]
        /\ weights_shape = [input_hidden; q + k + v])
    /\ bias_shape = [q + k + v]
    /\ q = k
    /\ ((qkv_hidden_sizes_ self = [] /\ q = Z.quot (q + k + v) 3)
        \/ (qkv_hidden_sizes_ self = [q; k; v]
            /\ Forall (fun x => Z.rem x (num_heads_ self) = 0) [q; k; v])).
Proof.
  intros self g input_shape weights_shape bias_shape mask past extra
         key value wk wv m r Hmerged Hrun q k v.
  destruct (CheckInputs_ok_stages _ _ _ _ _ _ _ _ _ _ _ _ _ _ Hrun)
    as (b & s & d & Hshapes & Hresolve & Hsum & _).
  destruct (check_shapes_ok _ _ _ _ _ _ _ _ Hshapes)
    as (_ & -> & cols & -> & ->).
  assert (cols = q + k + v) as ->.
  { change cols with (at_ [cols] 0). apply check_bias_sum_ok.
    fold q k v in Hsum. rewrite Hsum. reflexivity. }
  destruct (resolve_merged_ok _ _ _ _ _ _ _ _ _ _ _ _ _ _ _ Hmerged Hresolve)
    as [-> Hcases].
  fold q k v in Hcases.
  split; [eauto|]. split; [reflexivity|].
  destruct Hcases as [(Hnil & Hq & Hk & _)|(Hl & Hqk & Hq & Hk & Hv)].
  - split; [congruence|]. left. split; [assumption|]. exact Hq.
  - split; [assumption|]. right. split; [assumption|].
    repeat constructor; assumption.
Qed.

(** The theorem at [qkv_hidden_sizes = [4; 4; 4]], two heads, input
    [[2; 3; 4]]. *)
Lemma merged_validation_witness :
  (exists batch input_hidden,
      [2; 3; 4] = [batch; 3; input_hidden]
      /\ [4; 12] = [input_hidden; 4 + 4 + 4])
  /\ [12] = [4 + 4 + 4]
  /\ 4 = 4
  /\ (([4; 4; 4] = [] /\ 4 = Z.quot (4 + 4 + 4) 3)
      \/ ([4; 4; 4] = [4; 4; 4]
          /\ Forall (fun x => Z.rem x 2 = 0) [4; 4; 4])).
Proof.
  exact (merged_validation_fixes_the_operand_shapes
           explicit_4_4_4 0 [2; 3; 4] [4; 12] [12]
           None None None None None None None
           None (mkResolved 4 4 4 3 3) eq_refl eq_refl).
Defined.

(** X2.  With separate weights ([use_merged_weights_] off), validation can
    only succeed when the key and value projections are empty: the bias
    length must equal both the number of columns of [weights] (which is
    the resolved [hidden_size_q]) and the sum of the three hidden sizes,
    so [hidden_size_k + hidden_size_v = 0] for the column counts of
    [weight_key] and [weight_value]. *)
Theorem separate_weights_leave_no_room_for_key_and_value :
  forall self indeterminate_v input_shape weights_shape bias_shape
         mask past extra_add_qk key value weight_key weight_value m r,
    use_merged_weights_ self = false ->
    CheckInputs self indeterminate_v input_shape weights_shape bias_shape
      mask past extra_add_qk key value weight_key weight_value = (m, Ok r) ->
    bias_shape = [hidden_size_q r]
    /\ hidden_size_k r + hidden_size_v r = 0
    /\ exists wk wv input_hidden,
         weight_key = Some wk /\ weight_value = Some wv
         /\ Shape wk = [input_hidden; hidden_size_k r]
         /\ Shape wv = [input_hidden; hidden_size_v r].
Proof.
  intros self g input_shape weights_shape bias_shape mask past extra
         key value wk wv m r Hsep Hrun.
  destruct (CheckInputs_ok_stages _ _ _ _ _ _ _ _ _ _ _ _ _ _ Hrun)
    as (b & s & d & Hshapes & Hresolve & Hsum & _).
  destruct (check_shapes_ok _ _ _ _ _ _ _ _ Hshapes)
    as (_ & -> & cols & -> & ->).
  destruct (resolve_separate_ok _ _ _ _ _ _ _ _ _ _ _ _ _ _ _ Hsep Hresolve)
    as (Hq & tk & tv & twk & twv & _ & _ & -> & -> & _ & _ & Hwk & Hwv).
  change (at_ [d; cols] 1) with cols in Hq.
  assert (cols = hidden_size_q r + hidden_size_k r + hidden_size_v r) as Hcols.
  { change cols with (at_ [cols] 0). apply check_bias_sum_ok.
    rewrite Hsum. reflexivity. }
  split; [congruence|]. split; [lia|]. exists twk, twv, d. auto.
Qed.

(** The theorem at a call with key and value projections of no columns. *)
Lemma separate_weights_witness :
  [12] = [12]
  /\ 0 + 0 = 0
  /\ exists wk wv input_hidden,
       Some (mkTensor [4; 0] 500) = Some wk /\ Some (mkTensor [4; 0] 600) = Some wv
       /\ Shape wk = [input_hidden; 0]
       /\ Shape wv = [input_hidden; 0].
Proof.
  exact (separate_weights_leave_no_room_for_key_and_value
           separate_weights 0 [1; 2; 4] [4; 12] [12]
           None None None
           (Some (mkTensor [1; 3; 4] 300)) (Some (mkTensor [1; 3; 4] 400))
           (Some (mkTensor [4; 0] 500)) (Some (mkTensor [4; 0] 600))
           None (mkResolved 12 0 0 3 3) eq_refl eq_refl).
Defined.

(** X3.  When validation succeeds with a past state, the past state has the
    shape [[2; batch; heads; past_len; head]], where [heads] and [head]
    read as 32-bit integers are the number of heads and
    [hidden_size_k / num_heads]; the K and V hidden sizes are equal, no
    [extra_add_qk] was supplied, and the total sequence length is the
    target sequence length plus [past_len].  Without a past state the
    total sequence length is the target sequence length. *)
Theorem validated_past_state :
  forall self indeterminate_v input_shape weights_shape bias_shape
         mask past extra_add_qk key value weight_key weight_value m r,
    CheckInputs self indeterminate_v input_shape weights_shape bias_shape
      mask past extra_add_qk key value weight_key weight_value = (m, Ok r) ->
    match past with
    | None => total_sequence_length r = target_sequence_length r
    | Some p =>
        extra_add_qk = None
        /\ hidden_size_k r = hidden_size_v r
        /\ exists heads past_len head,
             Shape p = [2; at_ input_shape 0; heads; past_len; head]
             /\ static_cast_int heads = num_heads_ self
             /\ static_cast_int head
                = Z.quot (hidden_size_k r) (num_heads_ self)
             /\ total_sequence_length r = target_sequence_length r + past_len
    end.
Proof.
  intros self g input_shape weights_shape bias_shape mask past extra
         key value wk wv m r Hrun.
  destruct (CheckInputs_ok_stages _ _ _ _ _ _ _ _ _ _ _ _ _ _ Hrun)
    as (b & s & d & Hshapes & _ & _ & Hpast & _).
  destruct (check_shapes_ok _ _ _ _ _ _ _ _ Hshapes) as (Hex & -> & _).
  apply check_past_ok in Hpast.
  destruct past as [p|]; [|exact Hpast].
  destruct Hpast as (Hkv & heads & past_len & head & Hp & Hh & Hd & Ht).
  split; [destruct Hex as [Hex|Hex]; [discriminate|exact Hex]|].
  split; [assumption|]. exists heads, past_len, head. auto.
Qed.

(** The theorem at a past state of three positions, batch 1, two heads
    of size 2. *)
Lemma validated_past_state_witness :
  (None : option Tensor) = None
  /\ 4 = 4
  /\ exists heads past_len head,
       [2; 1; 2; 3; 2] = [2; 1; heads; past_len; head]
       /\ static_cast_int heads = 2
       /\ static_cast_int head = Z.quot 4 2
       /\ 5 = 2 + past_len.
Proof.
  exact (validated_past_state
           explicit_4_4_4 0 [1; 2; 4] [4; 12] [12]
           None (Some (mkTensor [2; 1; 2; 3; 2] 300)) None None None None None
           None (mkResolved 4 4 4 2 5) eq_refl).
Defined.

(** X4.  When validation succeeds, the mask the engine will see is either
    absent or the mask that was passed in, and then its shape is one of
    the legal ones: [[batch]], [[2 * batch]],
    [[batch; total_sequence_length]],
    [[batch; sequence_length; total_sequence_length]], or
    [[batch; 1; max; max]] with [total_sequence_length <= max] on an
    operator that is not unidirectional. *)
Theorem validated_mask_is_absent_or_legal :
  forall self indeterminate_v input_shape weights_shape bias_shape
         mask past extra_add_qk key value weight_key weight_value m r,
    CheckInputs self indeterminate_v input_shape weights_shape bias_shape
      mask past extra_add_qk key value weight_key weight_value = (m, Ok r) ->
    m = None
    \/ exists mk,
         m = Some mk /\ mask = Some mk
         /\ legal_mask_shape (is_unidirectional_ self)
              (at_ input_shape 0) (at_ input_shape 1) (total_sequence_length r)
              (Shape mk).
Proof.
  intros self g input_shape weights_shape bias_shape mask past extra
         key value wk wv m r Hrun.
  destruct (CheckInputs_ok_stages _ _ _ _ _ _ _ _ _ _ _ _ _ _ Hrun)
    as (b & s & d & Hshapes & _ & _ & _ & Hmask & _).
  destruct (check_shapes_ok _ _ _ _ _ _ _ _ Hshapes) as (_ & -> & _).
  exact (check_mask_index_ok _ _ _ _ _ _ Hmask).
Qed.

(** The theorem at a four-dimensional mask [[2; 1; 8; 8]] for a batch of
    two sequences of length 3. *)
Lemma validated_mask_witness :
  Some (mkTensor [2; 1; 8; 8] 700) = None
  \/ exists mk,
       Some (mkTensor [2; 1; 8; 8] 700) = Some mk
       /\ Some (mkTensor [2; 1; 8; 8] 700) = Some mk
       /\ legal_mask_shape false 2 3 3 (Shape mk).
Proof.
  exact (validated_mask_is_absent_or_legal
           explicit_4_4_4 0 [2; 3; 4] [4; 12] [12]
           (Some (mkTensor [2; 1; 8; 8] 700)) None None None None None None
           (Some (mkTensor [2; 1; 8; 8] 700)) (mkResolved 4 4 4 3 3) eq_refl).
Defined.

(** X5.  When validation succeeds with an [extra_add_qk] operand, that
    operand has the shape [[batch; num_heads; sequence; sequence]], no
    past state was supplied, and the total sequence length is the target
    sequence length. *)
Theorem validated_extra_add_qk :
  forall self indeterminate_v input_shape weights_shape bias_shape
         mask past e key value weight_key weight_value m r,
    CheckInputs self indeterminate_v input_shape weights_shape bias_shape
      mask past (Some e) key value weight_key weight_value = (m, Ok r) ->
    Shape e = [at_ input_shape 0; num_heads_ self;
               at_ input_shape 1; at_ input_shape 1]
    /\ past = None
    /\ total_sequence_length r = target_sequence_length r.
Proof.
  intros self g input_shape weights_shape bias_shape mask past e
         key value wk wv m r Hrun.
  destruct (CheckInputs_ok_stages _ _ _ _ _ _ _ _ _ _ _ _ _ _ Hrun)
    as (b & s & d & Hshapes & _ & _ & Hpast & _ & Hextra).
  destruct (check_shapes_ok _ _ _ _ _ _ _ _ Hshapes) as (Hex & -> & _).
  split; [exact (check_extra_add_qk_ok _ _ _ _ Hextra e eq_refl)|].
  destruct Hex as [->|Hex]; [|discriminate].
  split; [reflexivity|]. exact (check_past_ok _ _ _ _ _ _ _ Hpast).
Qed.

(** The theorem at an additive bias [[1; 2; 2; 2]] for one sequence of
    length 2 and two heads. *)
Lemma validated_extra_add_qk_witness :
  [1; 2; 2; 2] = [1; 2; 2; 2]
  /\ (None : option Tensor) = None
  /\ 2 = 2.
Proof.
  exact (validated_extra_add_qk
           explicit_4_4_4 0 [1; 2; 4] [4; 12] [12]
           None None (mkTensor [1; 2; 2; 2] 400) None None None None
           None (mkResolved 4 4 4 2 2) eq_refl).
Defined.

(** X6.  With merged weights and a [qkv_hidden_sizes] attribute of three
    elements, if the shapes of input, weights and bias pass and the
    number of heads does not divide every element, validation fails with
    the divisibility error, which reports the first element that is not
    divisible; the mask is left as it was. *)
Theorem indivisible_hidden_size_is_rejected :
  forall self indeterminate_v input_shape weights_shape bias_shape
         mask past extra_add_qk key value weight_key weight_value b s d,
    use_merged_weights_ self = true ->
    length (qkv_hidden_sizes_ self) = 3%nat ->
    check_shapes input_shape weights_shape bias_shape past extra_add_qk
    = Ok (b, s, d) ->
    ~ Forall (fun x => Z.rem x (num_heads_ self) = 0) (qkv_hidden_sizes_ self) ->
    exists x,
      first_indivisible (num_heads_ self) (qkv_hidden_sizes_ self) = Some x
      /\ x ∈ qkv_hidden_sizes_ self
      /\ Z.rem x (num_heads_ self) <> 0
      /\ CheckInputs self indeterminate_v input_shape weights_shape bias_shape
           mask past extra_add_qk key value weight_key weight_value
         = (mask, Error "hidden_size should be divisible by num_heads:" [x]).
Proof.
  intros self g input_shape weights_shape bias_shape mask past extra
         key value wk wv b s d Hmerged Hlen Hshapes Hdiv.
  destruct (first_indivisible (num_heads_ self) (qkv_hidden_sizes_ self))
    as [x|] eqn:Hfirst.
  2:{ apply first_indivisible_None in Hfirst. contradiction. }
  exists x. split; [reflexivity|].
  destruct (first_indivisible_Some _ _ _ Hfirst) as [Hin Hrem].
  split; [assumption|]. split; [assumption|].
  unfold CheckInputs. rewrite Hshapes.
  unfold resolve_hidden_sizes. rewrite Hmerged. cbn [negb].
  unfold size. rewrite Hlen. change (Z.of_nat 3 !=? 0) with true.
  change (Z.of_nat 3 !=? 3) with false. cbv iota.
  rewrite check_divisible_spec, Hfirst. reflexivity.
Qed.

(** The theorem at [qkv_hidden_sizes = [4; 4; 6]] with four heads: the
    error reports 6. *)
Lemma indivisible_hidden_size_witness :
  exists x,
    first_indivisible 4 [4; 4; 6] = Some x
    /\ x ∈ [4; 4; 6]
    /\ Z.rem x 4 <> 0
    /\ CheckInputs (mkAttentionBase 4 false [4; 4; 6] true) 0
         [1; 2; 4] [4; 14] [14] None None None None None None None
       = (None, Error "hidden_size should be divisible by num_heads:" [x]).
Proof.
  apply (indivisible_hidden_size_is_rejected
           (mkAttentionBase 4 false [4; 4; 6] true) 0
           [1; 2; 4] [4; 14] [14] None None None None None None None 1 2 4
           eq_refl eq_refl eq_refl).
  intros H. apply first_indivisible_None in H. vm_compute in H. discriminate H.
Defined.

(** X7.  The overload of [CheckInputs] that takes [max_threads_per_block]
    passes no key, value, weight_key or weight_value on; on an operator
    with separate weights it therefore never succeeds, whatever the
    operands are. *)
Theorem max_threads_overload_rejects_separate_weights :
  forall self indeterminate_v input_shape weights_shape bias_shape
         mask past extra_add_qk max_threads_per_block,
    use_merged_weights_ self = false ->
    is_ok (snd (CheckInputs_max_threads self indeterminate_v input_shape
                  weights_shape bias_shape mask past extra_add_qk
                  max_threads_per_block)) = false.
Proof.
  intros self g input_shape weights_shape bias_shape mask past extra maxt Hsep.
  unfold CheckInputs_max_threads.
  destruct (num_heads_ self >? maxt); [reflexivity|].
  unfold CheckInputs.
  destruct (check_shapes _ _ _ _ _) as [[[b s] d]|]; [|reflexivity].
  unfold resolve_hidden_sizes. rewrite Hsep. reflexivity.
Qed.

(** The theorem at well-shaped operands and a bound of 1024 threads. *)
Lemma max_threads_overload_witness :
  is_ok (snd (CheckInputs_max_threads separate_weights 0 [1; 2; 4] [4; 12] [12]
                None None None 1024)) = false.
Proof.
  exact (max_threads_overload_rejects_separate_weights
           separate_weights 0 [1; 2; 4] [4; 12] [12] None None None 1024 eq_refl).
Defined.


End ValidationProperties.

(** * Further properties of pre-packing and of the packed buffers *)

Lemma FreePackedWeights_overrun slots n h :
  3 < n -> FreePackedWeights slots n h = None.
Proof.
  intros Hn. unfold FreePackedWeights.
  destruct (Z.to_nat n) as [|[|[|[|m]]]] eqn:E; try lia. reflexivity.
Qed.

Lemma is_live_reset3 slots h a :
  is_live (reset (elt2 slots) (reset (elt1 slots) (reset (elt0 slots) h))) a
  <-> is_live h a /\ ~ held slots a.
Proof.
  rewrite !is_live_reset. unfold held. tauto.
Qed.

Lemma get3_cases {A} (slots : Array3 A) i :
  0 <= i < 3 ->
  (i = 0 /\ get3 slots i = Some (elt0 slots))
  \/ (i = 1 /\ get3 slots i = Some (elt1 slots))
  \/ (i = 2 /\ get3 slots i = Some (elt2 slots)).
Proof.
  intros Hi. assert (i = 0 \/ i = 1 \/ i = 2) as [ -> | [ -> | -> ] ] by lia; auto.
Qed.

Section BufferProperties.
Import Attention.

(** X9.  [FreePackedWeights(array, n)] on the three slots of the operator:
    for [n <= 3] it leaves the first [n] slots null and the others as
    they were, and the allocations that are live afterwards are those
    that were live before and were not held by one of the first [n]
    slots.  For [n > 3] it subscripts the array out of range. *)
Theorem FreePackedWeights_resets_a_prefix :
  forall slots n h,
    (0 <= n <= 3 ->
     exists slots' h',
       FreePackedWeights slots n h = Some (slots', h')
       /\ (forall i, 0 <= i < 3 ->
                     get3 slots' i = if i <? n then Some None else get3 slots i)
       /\ (forall a,
              is_live h' a
              <-> is_live h a
                  /\ forall i, 0 <= i < n -> get3 slots i <> Some (Some a)))
    /\ (3 < n -> FreePackedWeights slots n h = None).
Proof.
  intros slots n h. split; [|apply FreePackedWeights_overrun].
  intros Hn.
  assert (n = 0 \/ n = 1 \/ n = 2 \/ n = 3) as [ -> | [ -> | [ -> | -> ] ] ] by lia.
  all: eexists _, _; split; [reflexivity|]; split.
  all: try (intros i Hi;
            assert (i = 0 \/ i = 1 \/ i = 2) as [ -> | [ -> | -> ] ] by lia;
            reflexivity).
  all: intros a; rewrite ?is_live_reset; cbn [elt0 elt1 elt2]; split.
  all: try (intros H; repeat split; try tauto;
            intros i Hi;
            destruct (get3_cases slots i ltac:(lia)) as [ [-> ->] | [ [-> ->] | [-> ->] ] ];
            try lia; intros E; inversion E; tauto).
  all: intros [Hlive Hfree]; repeat split; try assumption.
  all: intros E.
  all: first [ solve [apply (Hfree 0 ltac:(lia)); rewrite get3_0, E; reflexivity]
             | solve [apply (Hfree 1 ltac:(lia)); rewrite get3_1, E; reflexivity]
             | solve [apply (Hfree 2 ltac:(lia)); rewrite get3_2, E; reflexivity] ].
Qed.

(** The theorem at slots that hold the allocations 2, 5 and 6: freeing
    two slots releases 2 and 5 and keeps 6; freeing four is undefined. *)
Lemma FreePackedWeights_witness :
  (exists slots' h',
      FreePackedWeights (mkArray3 (Some 2%nat) (Some 5%nat) (Some 6%nat)) 2 busy_heap
      = Some (slots', h')
      /\ (forall i, 0 <= i < 3 ->
                    get3 slots' i
                    = if i <? 2 then Some None
                      else get3 (mkArray3 (Some 2%nat) (Some 5%nat) (Some 6%nat)) i)
      /\ (forall a,
             is_live h' a
             <-> is_live busy_heap a
                 /\ forall i, 0 <= i < 2 ->
                      get3 (mkArray3 (Some 2%nat) (Some 5%nat) (Some 6%nat)) i
                      <> Some (Some a)))
  /\ FreePackedWeights (mkArray3 (Some 2%nat) (Some 5%nat) (Some 6%nat)) 4 busy_heap
     = None.
Proof.
  pose proof (FreePackedWeights_resets_a_prefix
                (mkArray3 (Some 2%nat) (Some 5%nat) (Some 6%nat))) as H.
  split.
  - apply (proj1 (H 2 busy_heap)). lia.
  - apply (proj2 (H 4 busy_heap)). lia.
Defined.

(** X10.  [UseSharedPrePackedBuffers] for the weight slot moves the first
    three buffers of the vector into the three slots of the operator
    and leaves null pointers in the vector; the buffers the slots held
    before are released, and nothing else is: the allocations live
    afterwards are those that were live before and were not held by the
    operator.  With fewer than three buffers the vector is subscripted
    out of range. *)
Theorem adoption_moves_three_buffers_and_releases_the_old :
  (forall st h b0 b1 b2 rest used,
      exists st' h',
        UseSharedPrePackedBuffers st h (b0 :: b1 :: b2 :: rest) 1 used
        = Some (Ok tt, st', h', None :: None :: None :: rest, true)
        /\ packed_weights_ st' = mkArray3 b0 b1 b2
        /\ forall a, is_live h' a <-> is_live h a /\ ~ held (packed_weights_ st) a)
  /\ (forall st h buffers used,
         (length buffers < 3)%nat ->
         UseSharedPrePackedBuffers st h buffers 1 used = None).
Proof.
  split.
  - intros st h b0 b1 b2 rest used.
    eexists _, _. split; [reflexivity|]. split; [reflexivity|].
    intros a. exact (is_live_reset3 (packed_weights_ st) h a).
  - intros st h buffers used Hlen.
    destruct buffers as [|b0 [|b1 [|b2 rest]]]; cbn [length] in Hlen; try lia;
      reflexivity.
Qed.

(** The theorem at an operator that holds allocation 2, and at a vector
    of two buffers. *)
Lemma adoption_witness :
  UseSharedPrePackedBuffers (constructed scenario) busy_heap
    [Some 2%nat; None] 1 false = None.
Proof.
  apply (proj2 adoption_moves_three_buffers_and_releases_the_old
           (constructed scenario) busy_heap [Some 2%nat; None] false).
  cbn [length]. lia.
Defined.

End BufferProperties.

Section SharedPrePack.
Import Attention.
Variable T : Type.
Variable ram : Z -> T.
Variable MlasGemmPackBSize : Z -> Z -> Z.
Variable MlasGemmPackB : Z -> Z -> (Z -> T) -> Z -> Z -> list byte -> list byte.

Local Abbreviation PrePack := (PrePack T ram MlasGemmPackBSize MlasGemmPackB).

(** What a successful [PrePack] with a shareable record leaves. *)
Lemma PrePack_shared_state info h weights alloc r :
  PrePack (constructed info) h weights 1 alloc (fresh_record true) = Some r ->
  pp_is_packed r = true ->
  exists sizes a,
    a = next_addr h
    /\ pp_self r
       = mkAttention info (mkArray3 None None None) sizes true (Shape weights)
    /\ (exists s0 s1 s2,
           pp_prepacked_weights r
           = Some (mkPrePackedWeights [Some a; Some (S a); Some (S (S a))]
                     [s0; s1; s2]))
    /\ PrePack (constructed info) h weights 1 alloc None
       = Some (mkPrePacked (Ok tt)
                 (mkAttention info
                    (mkArray3 (Some a) (Some (S a)) (Some (S (S a))))
                    sizes true (Shape weights))
                 (pp_heap r) true None).
Proof.
  intros Hrun Hpacked.
  destruct (PrePack_flag _ _ _ _ _ _ _ _ _ _ _ Hrun) as (_ & _ & Hp).
  destruct (Hp Hpacked) as (_ & Hsize & q & k & v & Hsizes & Hq & Hk & Hv).
  cbn [base constructed] in Hsizes, Hq, Hk, Hv.
  pose proof (PrePack_packs T ram MlasGemmPackBSize MlasGemmPackB
                (constructed info) h weights alloc (fresh_record true) q k v
                eq_refl Hsize Hsizes Hq Hk Hv) as Hshared.
  pose proof (PrePack_packs T ram MlasGemmPackBSize MlasGemmPackB
                (constructed info) h weights alloc None q k v
                eq_refl Hsize Hsizes Hq Hk Hv) as Hheld.
  cbv zeta in Hshared, Hheld. cbn [base constructed fresh_record] in Hshared, Hheld.
  cbn [fresh_record] in Hrun. rewrite Hshared in Hrun. injection Hrun as <-.
  eexists _, _. split; [reflexivity|].
  cbn [pp_self pp_prepacked_weights pp_heap].
  split; [reflexivity|]. split; [eexists _, _, _; reflexivity|].
  exact Hheld.
Qed.

(** X11.  Sharing composes: a successful [PrePack] that hands its three
    buffers to a shareable record leaves the slots of the operator null;
    when [UseSharedPrePackedBuffers] then adopts the buffers of that
    record, the operator and the heap are exactly those that [PrePack]
    without a record leaves, and the record's pointers are null. *)
Theorem shared_prepack_then_adoption_is_kernel_held_prepack :
  forall info h weights alloc r,
    PrePack (constructed info) h weights 1 alloc (fresh_record true) = Some r ->
    pp_is_packed r = true ->
    exists record st' h',
      pp_prepacked_weights r = Some record
      /\ packed_weights_ (pp_self r) = mkArray3 None None None
      /\ UseSharedPrePackedBuffers (pp_self r) (pp_heap r) (buffers_ record) 1 false
         = Some (Ok tt, st', h', [None; None; None], true)
      /\ PrePack (constructed info) h weights 1 alloc None
         = Some (mkPrePacked (Ok tt) st' h' true None).
Proof.
  intros info h weights alloc r Hrun Hpacked.
  destruct (PrePack_shared_state _ _ _ _ _ Hrun Hpacked)
    as (sizes & a & _ & Hst & (s0 & s1 & s2 & Hrec) & Hheld).
  rewrite Hrec, Hst. cbn [packed_weights_ buffers_].
  eexists _, _, _. split; [reflexivity|]. split; [reflexivity|].
  split; [|exact Hheld]. reflexivity.
Qed.

End SharedPrePack.

(** The theorem at the scenario of the specification with the small
    vendor. *)
Lemma shared_prepack_witness :
  exists r record st' h',
    Attention.PrePack bool toy_ram toy_PackBSize toy_PackB
      (constructed scenario) empty_heap scenario_weights 1 toy_alloc
      (fresh_record true) = Some r
    /\ pp_prepacked_weights r = Some record
    /\ packed_weights_ (pp_self r) = mkArray3 None None None
    /\ Attention.UseSharedPrePackedBuffers (pp_self r) (pp_heap r)
         (buffers_ record) 1 false
       = Some (Ok tt, st', h', [None; None; None], true)
    /\ Attention.PrePack bool toy_ram toy_PackBSize toy_PackB
         (constructed scenario) empty_heap scenario_weights 1 toy_alloc None
       = Some (mkPrePacked (Ok tt) st' h' true None).
Proof.
  destruct (Attention.PrePack bool toy_ram toy_PackBSize toy_PackB
              (constructed scenario) empty_heap scenario_weights 1 toy_alloc
              (fresh_record true))
    as [r|] eqn:Hrun; [|vm_compute in Hrun; discriminate].
  assert (pp_is_packed r = true) as Hpacked.
  { vm_compute in Hrun. inversion Hrun. reflexivity. }
  destruct (shared_prepack_then_adoption_is_kernel_held_prepack
              bool toy_ram toy_PackBSize toy_PackB
              scenario empty_heap scenario_weights toy_alloc r Hrun Hpacked)
    as (record & st' & h' & H).
  exists r, record, st', h'. auto.
Defined.

(** * Further properties of the projection loop *)


Lemma TryParallelFor_first_fails {T} order (fn : Z -> (Z -> T) -> option (Z -> T)) mem :
  order <> [] ->
  (forall i m, i ∈ order -> fn i m = None) ->
  Attention.TryParallelFor T order fn mem = None.
Proof.
  destruct order as [|i rest]; [congruence|]. intros _ Hfail.
  cbn [Attention.TryParallelFor]. rewrite Hfail by (apply elem_of_cons; auto).
  reflexivity.
Qed.

Lemma length_concat_uniform {A} (m : nat) (l : list (list A)) :
  Forall (fun c => length c = m) l -> length (concat l) = (length l * m)%nat.
Proof.
  induction 1 as [|c l Hc Hl IH]; [reflexivity|].
  cbn [concat length Nat.mul]. rewrite length_app, Hc, IH. reflexivity.
Qed.

Lemma head_chunks_count T ram MlasGemmPackB n hs D w ldb pb :
  length (head_chunks T ram MlasGemmPackB n hs D w ldb pb) = n.
Proof.
  revert w. induction n as [|n IH]; intros w; cbn [head_chunks length];
    [reflexivity|]. rewrite IH. reflexivity.
Qed.

Section ProjectionProperties.
Import Attention.
Variable T : Type.
Variable ram : Z -> T.
Variable MlasGemmPackBSize : Z -> Z -> Z.
Variable MlasGemmPackB : Z -> Z -> (Z -> T) -> Z -> Z -> list byte -> list byte.
Variable MlasGemm_packed :
  Z -> Z -> Z -> (Z -> T) -> Z -> Z -> list byte -> (Z -> T) -> Z -> Z -> (Z -> T).
Variable multiply_accumulate : T -> list T -> list T -> T.
Variable ApplyAttention :
  (Z -> T) -> Z -> Z -> Z -> option Tensor -> option Tensor -> option Tensor ->
  Z -> Z -> Z -> Z -> Z -> option Tensor -> OpKernelContext -> Result unit.

Local Abbreviation PrePack := (PrePack T ram MlasGemmPackBSize MlasGemmPackB).
Local Abbreviation qkv_unit := (qkv_unit T ram MlasGemm_packed multiply_accumulate).
Local Abbreviation Compute_projection :=
  (Compute_projection T ram MlasGemm_packed multiply_accumulate).
Local Abbreviation Compute :=
  (Compute T ram MlasGemm_packed multiply_accumulate ApplyAttention).

(** X12.  The decoding of a work-unit index by the loop body,
    [batch = (i / 3) / num_heads], [head = (i / 3) % num_heads],
    [branch = i % 3], each narrowed to [int], is a bijection between the
    indices [0 .. 3 * batch_size * num_heads - 1] and the triples
    (branch, batch, head) in range: decoding an index and encoding the
    triple again gives the index, and every triple in range is the
    decoding of its encoding. *)
Theorem unit_index_decoding_is_a_bijection :
  forall g,
    valid_geometry g ->
    let N := g_heads g in
    let batch_index i := static_cast_int (Z.quot (Z.quot i 3) N) in
    let head_index i := static_cast_int (Z.rem (Z.quot i 3) N) in
    let qkv_index i := static_cast_int (Z.rem i 3) in
    let encode branch batch head := (batch * N + head) * 3 + branch in
    (forall i,
        0 <= i < 3 * g_batch g * N ->
        0 <= qkv_index i < 3 /\ 0 <= head_index i < N
        /\ 0 <= batch_index i < g_batch g
        /\ encode (qkv_index i) (batch_index i) (head_index i) = i)
    /\ (forall branch batch head,
           0 <= branch < 3 -> 0 <= batch < g_batch g -> 0 <= head < N ->
           let i := encode branch batch head in
           0 <= i < 3 * g_batch g * N
           /\ qkv_index i = branch /\ batch_index i = batch /\ head_index i = head).
Proof.
  intros g Hvalid N batch_index head_index qkv_index encode. split.
  - intros i Hi. subst batch_index head_index qkv_index encode N. cbv beta.
    destruct (decode_cpp g Hvalid i Hi) as (-> & -> & ->).
    destruct (decode_bounds g Hvalid i Hi) as (Hbr & Hhd & Hba & Hi').
    repeat split; try lia.
  - intros branch batch head Hbr Hba Hhd i.
    destruct (encode_decode g branch batch head Hvalid Hbr Hba Hhd)
      as (Hi & Ebr & Ehd & Eba).
    subst batch_index head_index qkv_index encode N. cbv beta.
    fold i in Hi, Ebr, Ehd, Eba.
    destruct (decode_cpp g Hvalid i Hi) as (-> & -> & ->).
    auto.
Qed.


(** A work unit on an operator in packed mode whose slots are null reads
    through a null pointer. *)
Lemma qkv_unit_null_slot g st h wd i mem :
  valid_geometry g ->
  is_prepack_ st = true ->
  packed_weights_ st = mkArray3 None None None ->
  num_heads_ (base st) = g_heads g ->
  0 <= i < 3 * g_batch g * g_heads g ->
  qkv_unit st h (capture_of g wd) i mem = None.
Proof.
  intros Hvalid Hflag Hslots HN Hi.
  destruct (decode_bounds g Hvalid i Hi) as (Hbr & _).
  assert (Hcases : branch_of i = 0 \/ branch_of i = 1 \/ branch_of i = 2) by lia.
  unfold Attention.qkv_unit. rewrite Hflag, HN, Hslots.
  destruct (decode_cpp g Hvalid i Hi) as (-> & -> & ->).
  unfold capture_of.
  cbn [QKV Attention.qkv_head_size Attention.q_hidden_size Attention.k_hidden_size
         Attention.v_hidden_size Attention.sequence_length
         Attention.input_hidden_size Attention.input_data Attention.weights_data
         Attention.bias_data].
  destruct Hcases as [E|[E|E]]; rewrite E; rewrite ?get3_0, ?get3_1, ?get3_2.
  all: repeat (cbn [mbind option_bind bytes_of negb elt0 elt1 elt2];
               match goal with
               | |- mbind _ ?o = None => destruct o
               end).
  all: reflexivity.
Qed.

(** X14.  Between a successful [PrePack] with a shareable record and the
    adoption of the shared buffers the operator must not be run: it is in
    packed mode with null slots, and for operands that pass validation
    and a batch that is not empty, [Compute] reads through a null
    pointer in the first work unit. *)
Theorem packed_compute_before_adoption_is_undefined :
  forall g info h alloc indeterminate_v context gemm_data
         input weights bias mask' resolved r,
    valid_geometry g ->
    0 < g_batch g ->
    describes info input bias (Shape weights) g ->
    Input context 0 = Some input ->
    Input context 2 = Some bias ->
    GetTempSpaceAllocator context = Ok tt ->
    AttentionBase.CheckInputs info indeterminate_v (Shape input) (Shape weights)
      (Shape bias) (Input context 3) (Input context 4) (Input context 5)
      (Input context 6) (Input context 7) (Input context 8) (Input context 9)
    = (mask', Ok resolved) ->
    schedule context (3 * g_batch g * g_heads g)
      ≡ₚ seqZ 0 (3 * g_batch g * g_heads g) ->
    PrePack (constructed info) h weights 1 alloc (fresh_record true) = Some r ->
    pp_is_packed r = true ->
    is_prepack_ (pp_self r) = true
    /\ packed_weights_ (pp_self r) = mkArray3 None None None
    /\ Compute (pp_self r) (pp_heap r) indeterminate_v context gemm_data = None.
Proof.
  intros g info h alloc gv context gemm_data input weights bias mask' resolved r
         Hvalid HB Hdesc H0 H2 Halloc Hcheck Hperm Hrun Hpacked.
  destruct (PrePack_shared_state T ram MlasGemmPackBSize MlasGemmPackB
              _ _ _ _ _ Hrun Hpacked) as (sizes & a & _ & Hst & _ & _).
  rewrite Hst. cbn [is_prepack_ packed_weights_].
  split; [reflexivity|]. split; [reflexivity|].
  set (st := mkAttention info (mkArray3 None None None) sizes true (Shape weights)).
  assert (Hloop := Compute_projection_runs_loop T ram MlasGemm_packed
                     multiply_accumulate g Hvalid st (pp_heap r) gv context gemm_data
                     input bias mask' resolved H0 H2 Halloc).
  cbn [st is_prepack_ weight_shape_ base fmap option_fmap option_map] in Hloop.
  specialize (Hloop Hdesc Hcheck). cbv zeta in Hloop.
  unfold Attention.Compute. fold st. rewrite Hloop.
  rewrite TryParallelFor_first_fails; [reflexivity| |].
  - intros Hnil. apply Permutation_length in Hperm.
    rewrite Hnil, length_seqZ in Hperm. cbn [length] in Hperm.
    pose proof Hvalid as (HN & _). nia.
  - intros i m Hin.
    destruct (schedule_complete _ _ Hperm) as [Hall _].
    rewrite Forall_forall in Hall.
    apply (qkv_unit_null_slot g); try assumption; try reflexivity.
    + apply Hdesc.
    + exact (Hall i Hin).
Qed.

(** X15.  The layout of a packed buffer.  When the pack routine writes its
    destination in place, the buffer of one branch has [packb_size *
    num_heads] bytes, and the [packb_size] bytes at offset [packb_size *
    j] are what the pack routine makes of the columns of head [j], which
    start [j * head_size] columns into the weight slice of the branch,
    packed into zeroed memory. *)
Theorem packed_buffer_holds_the_heads_side_by_side :
  forall num_heads head_size input_hidden_size weights_data ldb,
    (forall N K B ldb dest,
        length dest = Z.to_nat (MlasGemmPackBSize N K) ->
        length (MlasGemmPackB N K ram B ldb dest) = length dest) ->
    let packb_size := MlasGemmPackBSize head_size input_hidden_size in
    0 <= packb_size ->
    let image :=
      packed_image T ram MlasGemmPackBSize MlasGemmPackB num_heads head_size
        input_hidden_size weights_data ldb in
    length image = Z.to_nat (packb_size * to_size_t num_heads)
    /\ forall j,
         0 <= j < to_size_t num_heads ->
         take (Z.to_nat packb_size) (drop (Z.to_nat (packb_size * j)) image)
         = MlasGemmPackB head_size input_hidden_size ram
             (weights_data + j * head_size) ldb
             (repeat x00 (Z.to_nat packb_size)).
Proof.
  intros num_heads hs D w ldb pack_in_place pb Hpb image. split.
  - unfold image, packed_image. fold pb.
    set (n := Z.to_nat (to_size_t num_heads)).
    assert (0 <= to_size_t num_heads) as Hn
      by (unfold to_size_t; apply Z.mod_pos_bound; lia).
    replace (Z.to_nat (pb * to_size_t num_heads)) with (n * Z.to_nat pb)%nat
      by (unfold n; rewrite Z2Nat.inj_mul by lia; lia).
    pose proof (pack_heads_chunks T ram MlasGemmPackBSize MlasGemmPackB
                  pack_in_place n hs D w ldb [] Hpb) as Hchunks.
    cbn [length app] in Hchunks. fold pb in Hchunks.
    change (Z.of_nat 0) with 0 in Hchunks. rewrite Hchunks.
    rewrite (length_concat_uniform (Z.to_nat pb)), head_chunks_count;
      [reflexivity|].
    apply (head_chunks_length T ram MlasGemmPackBSize MlasGemmPackB pack_in_place).
  - intros j Hj.
    destruct (packed_image_drop T ram MlasGemmPackBSize MlasGemmPackB pack_in_place
                num_heads hs D w ldb j Hpb Hj) as (tail & Hdrop).
    fold pb in Hdrop. fold image in Hdrop. rewrite Hdrop.
    rewrite take_app_length'; [reflexivity|].
    rewrite pack_in_place; rewrite repeat_length; reflexivity.
Qed.

End ProjectionProperties.

(** The bijection at the scenario of the specification (two heads, one
    batch, six work units), for the last unit: index 5 decodes to branch
    2 of head 1 of batch 0, and encodes back to 5. *)
Lemma unit_index_decoding_witness :
  (0 <= static_cast_int (Z.rem 5 3) < 3
   /\ 0 <= static_cast_int (Z.rem (Z.quot 5 3) 2) < 2
   /\ 0 <= static_cast_int (Z.quot (Z.quot 5 3) 2) < 1
   /\ (static_cast_int (Z.quot (Z.quot 5 3) 2) * 2
       + static_cast_int (Z.rem (Z.quot 5 3) 2)) * 3
      + static_cast_int (Z.rem 5 3) = 5)
  /\ static_cast_int (Z.rem 5 3) = 2.
Proof.
  split; [|reflexivity].
  apply (proj1 (unit_index_decoding_is_a_bijection scenario_geometry
                  scenario_geometry_valid) 5).
  cbn. lia.
Defined.


(** At the scenario of the specification with the small vendor: after a
    [PrePack] that hands the buffers to a shareable record, [Compute] is
    undefined. *)
Lemma packed_compute_before_adoption_witness :
  exists r,
    Attention.PrePack bool toy_ram toy_PackBSize toy_PackB
      (constructed scenario) empty_heap scenario_weights 1 toy_alloc
      (fresh_record true) = Some r
    /\ is_prepack_ (pp_self r) = true
    /\ packed_weights_ (pp_self r) = mkArray3 None None None
    /\ Attention.Compute bool toy_ram toy_Gemm_packed toy_multiply_accumulate
         (fun _ _ _ _ _ _ _ _ _ _ _ _ _ _ => Ok tt)
         (pp_self r) (pp_heap r) 4 scenario_context (fun _ => false)
       = None.
Proof.
  destruct (Attention.PrePack bool toy_ram toy_PackBSize toy_PackB
              (constructed scenario) empty_heap scenario_weights 1 toy_alloc
              (fresh_record true))
    as [r|] eqn:Hrun; [|vm_compute in Hrun; discriminate].
  assert (pp_is_packed r = true) as Hpacked.
  { vm_compute in Hrun. inversion Hrun. reflexivity. }
  exists r. split; [reflexivity|].
  apply (packed_compute_before_adoption_is_undefined
           bool toy_ram toy_PackBSize toy_PackB toy_Gemm_packed
           toy_multiply_accumulate (fun _ _ _ _ _ _ _ _ _ _ _ _ _ _ => Ok tt)
           scenario_geometry scenario empty_heap toy_alloc 4 scenario_context
           (fun _ => false) scenario_input scenario_weights scenario_bias None
           (mkResolved 4 4 4 2 2) r).
  - exact scenario_geometry_valid.
  - reflexivity.
  - exact scenario_described.
  - reflexivity.
  - reflexivity.
  - reflexivity.
  - reflexivity.
  - symmetry. apply Permutation_rev.
  - exact Hrun.
  - exact Hpacked.
Defined.

(** The layout at the query branch of the scenario with the small
    vendor: two heads of two columns, four rows. *)
Lemma packed_buffer_layout_witness :
  length (packed_image bool toy_ram toy_PackBSize toy_PackB 2 2 4 100 12)
  = Z.to_nat (toy_PackBSize 2 4 * to_size_t 2)
  /\ forall j,
       0 <= j < to_size_t 2 ->
       take (Z.to_nat (toy_PackBSize 2 4))
         (drop (Z.to_nat (toy_PackBSize 2 4 * j))
            (packed_image bool toy_ram toy_PackBSize toy_PackB 2 2 4 100 12))
       = toy_PackB 2 4 toy_ram (100 + j * 2) 12
           (repeat x00 (Z.to_nat (toy_PackBSize 2 4))).
Proof.
  apply (packed_buffer_holds_the_heads_side_by_side
           bool toy_ram toy_PackBSize toy_PackB 2 2 4 100 12
           (toy_pack_in_place toy_ram)).
  apply toy_size_not_negative.
Defined.

(** * Properties of the decoding-loop subgraph *)

Lemma static_cast_int_multiple k : static_cast_int (k * 2 ^ 32) = 0.
Proof.
  unfold static_cast_int. rewrite Z.add_comm, Z.mod_add by lia. reflexivity.
Qed.

Section SubgraphParameters.
Import Subgraph.
Variable SessionState : Type.
Variable FeedsFetchesManager : Type.

Local Abbreviation Subgraph := (Subgraph SessionState FeedsFetchesManager).
Local Abbreviation GetParameters := (GetParameters SessionState FeedsFetchesManager).
Local Abbreviation set_num_heads_head_size :=
  (set_num_heads_head_size SessionState FeedsFetchesManager).
Local Abbreviation set_vocab_size := (set_vocab_size SessionState FeedsFetchesManager).
Local Abbreviation num_heads := (num_heads SessionState FeedsFetchesManager).
Local Abbreviation head_size := (head_size SessionState FeedsFetchesManager).
Local Abbreviation vocab_size := (vocab_size SessionState FeedsFetchesManager).

(** A guard on a dimension passes only for a dimension with a value. *)
Lemma positive_dim_inv d :
  negb (has_dim_value d) || (dim_value d <=? 0) = false ->
  exists v, d = Some v /\ 0 < v /\ dim_value d = v.
Proof.
  destruct d as [v|]; cbn [has_dim_value dim_value negb orb]; [|discriminate].
  intros H. apply Z.leb_gt in H. eauto.
Qed.

Lemma dim_size_length shape (n : nat) :
  (dim_size shape !=? Z.of_nat n) = false -> length shape = n.
Proof. intros H. apply neq_false in H. unfold dim_size in H. lia. Qed.

Lemma past_parameters_ok past merged heads head :
  past_parameters past merged = Ok (heads, head) ->
  length past = (if merged then 5 else 4)%nat
  /\ (merged = true -> dim past 0 = Some 2)
  /\ exists h s,
       dim past (if merged then 2 else 1)%nat = Some h /\ 0 < h
       /\ dim past (if merged then 4 else 3)%nat = Some s /\ 0 < s
       /\ heads = static_cast_int h /\ head = static_cast_int s.
Proof.
  unfold past_parameters. destruct merged.
  - repeat pass_guard. intros H. inversion H; subst. clear H.
    apply (dim_size_length _ 5) in G.
    apply orb_false_iff in G0 as [Hhas H2]. apply neq_false in H2.
    destruct (positive_dim_inv _ G1) as (h & Eh & Hh & Vh).
    destruct (positive_dim_inv _ G2) as (s & Es & Hs & Vs).
    split; [assumption|]. split.
    + intros _. destruct (dim past 0) as [v|]; [|discriminate].
      cbn [dim_value] in H2. congruence.
    + exists h, s. rewrite Vh, Vs. auto 7.
  - repeat pass_guard. intros H. inversion H; subst. clear H.
    apply (dim_size_length _ 4) in G.
    destruct (positive_dim_inv _ G0) as (h & Eh & Hh & Vh).
    destruct (positive_dim_inv _ G1) as (s & Es & Hs & Vs).
    split; [assumption|]. split; [discriminate|].
    exists h, s. rewrite Vh, Vs. auto 7.
Qed.

Lemma logits_parameters_ok logits vocab :
  logits_parameters logits = Ok vocab ->
  length logits = 3%nat
  /\ exists v, dim logits 2 = Some v /\ 0 < v /\ vocab = static_cast_int v.
Proof.
  unfold logits_parameters. repeat pass_guard. intros H. inversion H; subst.
  apply (dim_size_length _ 3) in G.
  destruct (positive_dim_inv _ G0) as (v & Ev & Hv & Vv).
  split; [assumption|]. exists v. rewrite Vv. auto.
Qed.

(** X16.  When [GetParameters] succeeds, both shapes were supplied; the past
    state has five dimensions with a first dimension of 2 when it is
    merged, and four otherwise; its dimension of the heads (2 when
    merged, 1 otherwise) and of the head size (4 when merged, 3
    otherwise) and the last of the three dimensions of the logits carry
    positive values; the call stores these three values, narrowed to
    [int], in [num_heads], [head_size] and [vocab_size] and changes
    nothing else; values below [2^31] are stored as they are. *)
Theorem GetParameters_reads_heads_head_size_and_vocabulary :
  forall self past_shape logits_shape merged_past self',
    GetParameters self past_shape logits_shape merged_past = Some (self', Ok tt) ->
    exists past logits heads head vocab,
      past_shape = Some past /\ logits_shape = Some logits
      /\ length past = (if merged_past then 5 else 4)%nat
      /\ (merged_past = true -> dim past 0 = Some 2)
      /\ dim past (if merged_past then 2 else 1)%nat = Some heads /\ 0 < heads
      /\ dim past (if merged_past then 4 else 3)%nat = Some head /\ 0 < head
      /\ length logits = 3%nat
      /\ dim logits 2 = Some vocab /\ 0 < vocab
      /\ self' = set_vocab_size
                   (set_num_heads_head_size self (static_cast_int heads)
                      (static_cast_int head))
                   (static_cast_int vocab)
      /\ (heads < 2 ^ 31 -> head < 2 ^ 31 -> vocab < 2 ^ 31 ->
          num_heads self' = heads /\ head_size self' = head
          /\ vocab_size self' = vocab).
Proof.
  intros self past_shape logits_shape merged self'.
  unfold Subgraph.GetParameters.
  destruct past_shape as [past|]; [|discriminate]. cbn [mbind option_bind].
  destruct (past_parameters past merged) as [[heads head]|] eqn:Hpast;
    [|intros H; inversion H].
  destruct logits_shape as [logits|]; [|discriminate]. cbn [mbind option_bind].
  destruct (logits_parameters logits) as [vocab|] eqn:Hlogits;
    [|intros H; inversion H].
  intros H. inversion H; subst self'. clear H.
  destruct (past_parameters_ok _ _ _ _ Hpast)
    as (Hlen & H0 & h & s & Eh & Hh & Es & Hs & -> & ->).
  destruct (logits_parameters_ok _ _ Hlogits) as (Hlen' & v & Ev & Hv & ->).
  exists past, logits, h, s, v.
  repeat (split; [assumption || reflexivity|]).
  intros Bh Bs Bv. cbn.
  rewrite !static_cast_int_small by lia. auto.
Qed.

(** X17.  A failed [GetParameters] leaves [vocab_size] and every member other
    than [num_heads] and [head_size] as they were.  When a check of the
    past state fails, nothing is changed at all; when the past state
    passes and a check of the logits fails, [num_heads] and [head_size]
    have already been overwritten with the values of the past state. *)
Theorem GetParameters_failure_can_leave_heads_and_head_size_changed :
  forall self past_shape logits_shape merged_past self' msg args,
    GetParameters self past_shape logits_shape merged_past
    = Some (self', Error msg args) ->
    self' = set_num_heads_head_size self (num_heads self') (head_size self')
    /\ exists past,
         past_shape = Some past
         /\ match past_parameters past merged_past with
            | Error msg' args' => self' = self /\ msg = msg' /\ args = args'
            | Ok (heads, head) =>
                num_heads self' = heads /\ head_size self' = head
                /\ exists logits,
                     logits_shape = Some logits
                     /\ logits_parameters logits = Error msg args
            end.
Proof.
  intros self past_shape logits_shape merged self' msg args.
  unfold Subgraph.GetParameters.
  destruct past_shape as [past|]; [|discriminate]. cbn [mbind option_bind].
  destruct (past_parameters past merged) as [[heads head]|msg' args'] eqn:Hpast.
  - destruct logits_shape as [logits|]; [|discriminate]. cbn [mbind option_bind].
    destruct (logits_parameters logits) as [vocab|msg' args'] eqn:Hlogits;
      intros H; inversion H; subst.
    split; [reflexivity|]. exists past. split; [reflexivity|].
    rewrite Hpast. split; [reflexivity|]. split; [reflexivity|].
    exists logits. auto.
  - intros H. inversion H; subst.
    split; [destruct self'; reflexivity|]. exists past. split; [reflexivity|].
    rewrite Hpast. auto.
Qed.

(** X18.  The positivity checks of [GetParameters] look at the 64-bit values
    of the dimensions, and the values stored are their low 32 bits: a
    merged past state whose dimension of the heads is a positive
    multiple of [2^32] is accepted, and [num_heads] is then 0. *)
Theorem GetParameters_accepts_a_number_of_heads_that_wraps_to_zero :
  forall self k batch past_len head l0 l1 vocab,
    1 <= k ->
    0 < head < 2 ^ 31 ->
    0 < vocab < 2 ^ 31 ->
    GetParameters self
      (Some [Some 2; batch; Some (k * 2 ^ 32); past_len; Some head])
      (Some [l0; l1; Some vocab]) true
    = Some (set_vocab_size (set_num_heads_head_size self 0 head) vocab, Ok tt).
Proof.
  intros self k batch past_len head l0 l1 vocab Hk Hhead Hvocab.
  unfold Subgraph.GetParameters. cbn [mbind option_bind].
  unfold past_parameters, logits_parameters, dim_size, dim.
  cbn [length nth has_dim_value dim_value negb orb].
  change (Z.of_nat 5 !=? 5) with false. change (Z.of_nat 3 !=? 3) with false.
  change (2 !=? 2) with false. cbv iota.
  destruct (Z.leb_spec (k * 2 ^ 32) 0); [lia|].
  destruct (Z.leb_spec head 0); [lia|].
  destruct (Z.leb_spec vocab 0); [lia|].
  rewrite static_cast_int_multiple, !static_cast_int_small by lia.
  reflexivity.
Qed.

(** X19.  [GetParameters] dereferences the two shapes without a null check:
    the call is defined exactly when the past shape is supplied and,
    in case the past state passes its checks, the logits shape is
    supplied too. *)
Theorem GetParameters_is_defined_iff_the_shapes_it_reads_are_supplied :
  forall self past_shape logits_shape merged_past,
    is_Some (GetParameters self past_shape logits_shape merged_past)
    <-> exists past,
          past_shape = Some past
          /\ (is_ok (past_parameters past merged_past) = true ->
              is_Some logits_shape).
Proof.
  intros self past_shape logits_shape merged. unfold Subgraph.GetParameters.
  destruct past_shape as [past|]; cbn [mbind option_bind].
  2:{ split; [intros [? H]; discriminate H|intros (? & H & _); discriminate H]. }
  destruct (past_parameters past merged) as [[heads head]|msg args] eqn:Hpast.
  - destruct logits_shape as [logits|]; cbn [mbind option_bind].
    + split; [intros _; exists past; split; [reflexivity|]; intros _; eauto|].
      intros _. destruct (logits_parameters logits); eauto.
    + split; [intros [? H]; discriminate H|].
      intros (p & Hp & H). inversion Hp; subst p. rewrite Hpast in H.
      destruct (H eq_refl) as [? E]. discriminate E.
  - split; [|eauto]. intros _. exists past. split; [reflexivity|].
    rewrite Hpast. discriminate.
Qed.

End SubgraphParameters.

Section SubgraphParametersRuns.
Import Subgraph.



(** The theorem at a merged past state [(2, batch, 12, past_len, 64)]
    and logits [(batch, seq, 50257)], with symbolic batch and lengths. *)
Lemma GetParameters_witness :
  exists past logits heads head vocab,
    Some [Some 2; None; Some 12; None; Some 64] = Some past
    /\ Some [None; None; Some 50257] = Some logits
    /\ length past = 5%nat
    /\ (true = true -> dim past 0 = Some 2)
    /\ dim past 2 = Some heads /\ 0 < heads
    /\ dim past 4 = Some head /\ 0 < head
    /\ length logits = 3%nat
    /\ dim logits 2 = Some vocab /\ 0 < vocab
    /\ set_vocab_size toy_session toy_manager
         (set_num_heads_head_size toy_session toy_manager toy_subgraph 12 64)
         50257
       = set_vocab_size toy_session toy_manager
           (set_num_heads_head_size toy_session toy_manager toy_subgraph
              (static_cast_int heads) (static_cast_int head))
           (static_cast_int vocab)
    /\ (heads < 2 ^ 31 -> head < 2 ^ 31 -> vocab < 2 ^ 31 ->
        12 = heads /\ 64 = head /\ 50257 = vocab).
Proof.
  exact (GetParameters_reads_heads_head_size_and_vocabulary
           toy_session toy_manager toy_subgraph
           (Some [Some 2; None; Some 12; None; Some 64])
           (Some [None; None; Some 50257]) true
           (set_vocab_size toy_session toy_manager
              (set_num_heads_head_size toy_session toy_manager
                 toy_subgraph 12 64) 50257)
           eq_refl).
Defined.

(** A failed call that changes the object: the logits have two
    dimensions, and [num_heads] and [head_size] are overwritten. *)
Lemma GetParameters_failure_witness :
  set_num_heads_head_size toy_session toy_manager toy_subgraph 12 64
  = set_num_heads_head_size toy_session toy_manager toy_subgraph 12 64
  /\ exists past,
       Some [None; Some 12; None; Some 64] = Some past
       /\ match past_parameters past false with
          | Error msg' args' =>
              set_num_heads_head_size toy_session toy_manager toy_subgraph 12 64
              = toy_subgraph
              /\ "subgraph logits output is expected to have 3 dimension, got " = msg'
              /\ [2] = args'
          | Ok (heads, head) =>
              12 = heads /\ 64 = head
              /\ exists logits,
                   Some [None; Some 50257] = Some logits
                   /\ logits_parameters logits
                      = Error "subgraph logits output is expected to have 3 dimension, got " [2]
          end.
Proof.
  exact (GetParameters_failure_can_leave_heads_and_head_size_changed
           toy_session toy_manager toy_subgraph
           (Some [None; Some 12; None; Some 64])
           (Some [None; Some 50257]) false
           (set_num_heads_head_size toy_session toy_manager toy_subgraph 12 64)
           "subgraph logits output is expected to have 3 dimension, got " [2]
           eq_refl).
Defined.

(** A dimension of [2^32] heads is accepted and stored as 0. *)
Lemma GetParameters_wrap_witness :
  GetParameters toy_session toy_manager toy_subgraph
    (Some [Some 2; None; Some (1 * 2 ^ 32); None; Some 64])
    (Some [None; None; Some 50257]) true
  = Some (set_vocab_size toy_session toy_manager
            (set_num_heads_head_size toy_session toy_manager toy_subgraph 0 64)
            50257, Ok tt).
Proof.
  apply (GetParameters_accepts_a_number_of_heads_that_wraps_to_zero
           toy_session toy_manager toy_subgraph 1 None None 64 None None 50257);
    lia.
Defined.

End SubgraphParametersRuns.

Section SubgraphSetup.
Import Subgraph.
Variable SessionState : Type.
Variable OrtDevice : Type.
Variable OrtMemoryInfo : Type.
Variable FeedsFetchesManager : Type.
Variable device : OrtMemoryInfo -> OrtDevice.
Variable OrtDevice_default : OrtDevice.
Variable FindMemoryInfoForValue : SessionState -> string -> OrtMemoryInfo.
Variable Create :
  list string -> list string -> SessionState -> Result FeedsFetchesManager.
Variable InitializeFeedFetchCopyInfo :
  SessionState -> FeedsFetchesManager -> FeedsFetchesManager * Result unit.
Variable FinalizeFeedFetchCopyInfo :
  FeedsFetchesManager -> list OrtDevice -> list OrtMemoryInfo -> FeedsFetchesManager.
Variable Validate :
  Subgraph SessionState FeedsFetchesManager -> list NodeArg -> list NodeArg ->
  Subgraph SessionState FeedsFetchesManager * Result unit.

Local Abbreviation constructor := (constructor SessionState FeedsFetchesManager).
Local Abbreviation fill_feed_locations :=
  (fill_feed_locations SessionState OrtDevice OrtMemoryInfo FeedsFetchesManager
     device OrtDevice_default FindMemoryInfoForValue).
Local Abbreviation Setup :=
  (Setup SessionState OrtDevice OrtMemoryInfo FeedsFetchesManager device
     OrtDevice_default FindMemoryInfoForValue Create InitializeFeedFetchCopyInfo
     FinalizeFeedFetchCopyInfo Validate).

(** The loop over the feeds, after [k] iterations: the first [k]
    locations are set, the others are as [resize] left them. *)
Lemma fill_feed_locations_prefix self session_state default_location extra k :
  let inputs := subgraph_input_names SessionState FeedsFetchesManager self in
  let feed_names := (inputs ++ extra)%list in
  let placed :=
    (replicate (length inputs) (device default_location)
     ++ map (fun name => device (FindMemoryInfoForValue session_state name)) extra)%list in
  (k <= length feed_names)%nat ->
  fold_left
    (fun (feed_locations : list OrtDevice) (i : nat) =>
       if (length inputs <=? i)%nat then
         <[i := device (FindMemoryInfoForValue session_state (nth i feed_names ""))]>
           feed_locations
       else <[i := device default_location]> feed_locations)
    (seq 0 k) (replicate (length feed_names) OrtDevice_default)
  = (take k placed ++ replicate (length feed_names - k) OrtDevice_default)%list.
Proof.
  intros inputs feed_names placed.
  assert (length placed = length feed_names) as Hlen.
  { unfold placed, feed_names.
    rewrite !length_app, length_replicate, length_map. reflexivity. }
  induction k as [|k IH]; intros Hk.
  - cbn [seq fold_left take app]. rewrite Nat.sub_0_r. reflexivity.
  - rewrite seq_S, fold_left_app, IH by lia. cbn [Nat.add fold_left].
    assert (exists x,
               placed !! k = Some x
               /\ (if (length inputs <=? k)%nat
                   then device (FindMemoryInfoForValue session_state
                                  (nth k feed_names ""))
                   else device default_location) = x) as (x & Hx & Hstep).
    { destruct (Nat.leb_spec (length inputs) k) as [Hge|Hlt].
      - eexists. split; [|reflexivity]. unfold placed, feed_names.
        rewrite lookup_app_r by (rewrite length_replicate; lia).
        rewrite length_replicate, list_lookup_fmap.
        rewrite app_nth2 by lia.
        unfold feed_names in Hk. rewrite length_app in Hk.
        destruct (extra !! (k - length inputs)%nat) as [name|] eqn:Hname.
        + rewrite (nth_lookup_Some _ _ _ _ Hname). reflexivity.
        + apply lookup_ge_None in Hname. lia.
      - exists (device default_location). split; [|reflexivity].
        unfold placed. rewrite lookup_app_l by (rewrite length_replicate; lia).
        apply lookup_replicate_2. lia. }
    assert ((if (length inputs <=? k)%nat
             then <[k := device (FindMemoryInfoForValue session_state
                                   (nth k feed_names ""))]>
                    (take k placed
                     ++ replicate (length feed_names - k) OrtDevice_default)%list
             else <[k := device default_location]>
                    (take k placed
                     ++ replicate (length feed_names - k) OrtDevice_default)%list)
            = <[k := x]> (take k placed
                          ++ replicate (length feed_names - k) OrtDevice_default)%list)
      as ->.
    { rewrite <- Hstep. destruct (length inputs <=? k)%nat; reflexivity. }
    rewrite insert_app_r_alt by (rewrite length_take; lia).
    rewrite length_take, Nat.min_l, Nat.sub_diag by lia.
    replace (length feed_names - k)%nat with (S (length feed_names - S k)) by lia.
    cbn [replicate]. cbn.
    rewrite (take_S_r _ _ _ Hx), <- app_assoc. reflexivity.
Qed.

(** The feed locations that the loop of [Setup] computes. *)
Lemma fill_feed_locations_placed self session_state default_location extra :
  let inputs := subgraph_input_names SessionState FeedsFetchesManager self in
  fill_feed_locations self session_state default_location (inputs ++ extra)%list
  = (replicate (length inputs) (device default_location)
     ++ map (fun name => device (FindMemoryInfoForValue session_state name)) extra)%list.
Proof.
  intros inputs. unfold Subgraph.fill_feed_locations.
  etransitivity;
    [exact (fill_feed_locations_prefix self session_state default_location extra
              (length (inputs ++ extra)) (Nat.le_refl _))|].
  rewrite Nat.sub_diag. cbn [replicate]. rewrite app_nil_r.
  apply take_ge. rewrite !length_app, length_replicate, length_map. lia.
Qed.

(** What the constructor records of a graph whose inputs and outputs
    can be counted in an [int]. *)
Lemma constructor_names node_in attribute_name subgraph_in :
  Z.of_nat (length (GetInputs subgraph_in)) < 2 ^ 31 ->
  Z.of_nat (length (GetOutputs subgraph_in)) < 2 ^ 31 ->
  let self := constructor node_in attribute_name subgraph_in in
  subgraph_input_names _ _ self = map Name (GetInputs subgraph_in)
  /\ subgraph_output_names _ _ self = map Name (GetOutputs subgraph_in)
  /\ num_subgraph_inputs _ _ self = Z.of_nat (length (GetInputs subgraph_in))
  /\ num_subgraph_outputs _ _ self = Z.of_nat (length (GetOutputs subgraph_in)).
Proof.
  intros Hin Hout self. unfold self, Subgraph.constructor.
  cbn [subgraph_input_names subgraph_output_names num_subgraph_inputs
         num_subgraph_outputs].
  rewrite !static_cast_int_small by lia. rewrite !Nat2Z.id, !firstn_all. auto.
Qed.

(** X20.  Where [Setup] places feeds and fetches.  For a subgraph object made
    by the constructor from a graph with at least one output, when the
    manager is created and initialised without error: the feeds are the
    inputs of the graph followed by the implicit inputs of the node;
    every input of the graph is fed on the device of the first output of
    the graph, every implicit input on the device where the outer
    session holds it, and every output is fetched to the location of
    the first output.  The manager finalized with these locations is
    stored in the object, with the two session states, before
    [Validate] runs, and the status of [Setup] is the one of
    [Validate]. *)
Theorem Setup_places_feeds_and_fetches :
  forall node_in attribute_name subgraph_in session_state subgraph_session_state
         first rest ffm ffm',
    Z.of_nat (length (GetInputs subgraph_in)) < 2 ^ 31 ->
    Z.of_nat (length (GetOutputs subgraph_in)) < 2 ^ 31 ->
    GetOutputs subgraph_in = first :: rest ->
    let self := constructor node_in attribute_name subgraph_in in
    let default_location :=
      FindMemoryInfoForValue subgraph_session_state (Name first) in
    let feed_names :=
      (map Name (GetInputs subgraph_in)
       ++ map Name (ImplicitInputDefs node_in))%list in
    Create feed_names (map Name (GetOutputs subgraph_in)) subgraph_session_state
    = Ok ffm ->
    InitializeFeedFetchCopyInfo subgraph_session_state ffm = (ffm', Ok tt) ->
    let feed_locations :=
      (replicate (length (GetInputs subgraph_in)) (device default_location)
       ++ map (fun entry =>
                 device (FindMemoryInfoForValue session_state (Name entry)))
            (ImplicitInputDefs node_in))%list in
    let fetch_locations :=
      replicate (length (GetOutputs subgraph_in)) default_location in
    length feed_locations = length feed_names
    /\ Setup self session_state subgraph_session_state
       = Some (Validate
                 (set_feeds_fetches_manager_ _ _
                    (set_session_states _ _ self session_state subgraph_session_state)
                    (FinalizeFeedFetchCopyInfo ffm' feed_locations fetch_locations))
                 (GetInputs subgraph_in) (GetOutputs subgraph_in)).
Proof.
  intros node_in attribute_name subgraph_in ss sss first rest ffm ffm'
         Hin Hout Hfirst self default_location feed_names Hcreate Hinit
         feed_locations fetch_locations.
  split.
  { unfold feed_locations, feed_names.
    rewrite !length_app, length_replicate, !length_map. reflexivity. }
  destruct (constructor_names node_in attribute_name subgraph_in Hin Hout)
    as (Hinames & Honames & _ & Hnout).
  fold self in Hinames, Honames, Hnout.
  unfold Subgraph.Setup.
  set (self1 := set_session_states _ _ self ss sss).
  assert (subgraph_input_names _ _ self1 = map Name (GetInputs subgraph_in))
    as Hi1 by exact Hinames.
  assert (subgraph_output_names _ _ self1 = map Name (GetOutputs subgraph_in))
    as Ho1 by exact Honames.
  assert (num_subgraph_outputs _ _ self1 = Z.of_nat (length (GetOutputs subgraph_in)))
    as Hn1 by exact Hnout.
  assert (node _ _ self1 = node_in) as Hnode by reflexivity.
  assert (subgraph _ _ self1 = subgraph_in) as Hgraph by reflexivity.
  assert (subgraph_output_names _ _ self1 !! 0%nat = Some (Name first)) as Hlookup.
  { rewrite Ho1, Hfirst. reflexivity. }
  rewrite Hlookup. cbn [mbind option_bind]. fold default_location.
  rewrite Hnode.
  rewrite (fill_feed_locations_placed self1 ss default_location
             (map Name (ImplicitInputDefs node_in))).
  rewrite Hi1, Ho1, Hn1, Nat2Z.id. unfold feed_names in Hcreate.
  rewrite Hcreate, Hinit, length_map, map_map. reflexivity.
Qed.

(** X21.  A subgraph without outputs cannot be set up: [Setup] reads the name
    of the first output from an empty vector. *)
Theorem Setup_needs_a_first_output :
  forall node_in attribute_name subgraph_in session_state subgraph_session_state,
    GetOutputs subgraph_in = [] ->
    Setup (constructor node_in attribute_name subgraph_in)
      session_state subgraph_session_state = None.
Proof.
  intros node_in attribute_name subgraph_in ss sss Hnone.
  unfold Subgraph.Setup, Subgraph.constructor.
  cbn [set_session_states subgraph_output_names]. rewrite Hnone.
  rewrite take_nil. reflexivity.
Qed.

End SubgraphSetup.

Section SubgraphSetupRuns.
Import Subgraph.

(** The placement at the small decoder subgraph: the two inputs of the
    graph are fed on device 2, where the decoder session holds the first
    output; the implicit input is fed on device 1, where the outer
    session holds it; both outputs are fetched to device 2. *)
Lemma Setup_places_feeds_and_fetches_witness :
  exists self',
    Setup toy_session Z Z toy_manager (fun location => location) 0 toy_Find
      toy_Create toy_Initialize toy_Finalize toy_Validate
      toy_subgraph main_session decoder_session
    = Some (self', Ok tt)
    /\ feeds_fetches_manager_ _ _ self' = Some ([2; 2; 1], [2; 2])
    /\ session_state_ _ _ self' = Some main_session.
Proof.
  destruct (Setup_places_feeds_and_fetches
              toy_session Z Z toy_manager (fun location => location) 0 toy_Find
              toy_Create toy_Initialize toy_Finalize toy_Validate
              toy_node "decoder" toy_graph main_session decoder_session
              (mkNodeArg "logits") [mkNodeArg "present_0"] ([], []) ([], []))
    as [_ H]; try reflexivity.
  eexists. split; [exact H|]. split; reflexivity.
Defined.

(** A graph with one input and no output. *)
Lemma Setup_needs_a_first_output_witness :
  Setup toy_session Z Z toy_manager (fun location => location) 0 toy_Find
    toy_Create toy_Initialize toy_Finalize toy_Validate
    (constructor toy_session toy_manager toy_node "decoder"
       (mkGraphViewer [mkNodeArg "input_ids"] []))
    main_session decoder_session
  = None.
Proof.
  exact (Setup_needs_a_first_output
           toy_session Z Z toy_manager (fun location => location) 0 toy_Find
           toy_Create toy_Initialize toy_Finalize toy_Validate
           toy_node "decoder" (mkGraphViewer [mkNodeArg "input_ids"] [])
           main_session decoder_session eq_refl).
Defined.

End SubgraphSetupRuns.

(** * Further properties: legal masks, re-packing, the hand-over *)

Section LegalMasks.
Import AttentionBase.

Lemma neq_refl (a : Z) : (a !=? a) = false.
Proof. apply neq_false. reflexivity. Qed.

(** The mask check accepts a mask of a legal shape and keeps it. *)
Lemma check_mask_index_legal self mk b s total :
  legal_mask_shape (is_unidirectional_ self) b s total (Shape mk) ->
  check_mask_index self (Some mk) b s total = (Some mk, Ok tt).
Proof.
  unfold check_mask_index.
  intros [(d & -> & Hd)|[ -> |[ -> |(m & -> & Hm & Hu)]]].
  - change (size [d] =? 1) with true. cbv iota. unfold at_. cbn [nth].
    destruct Hd as [ -> | -> ]; rewrite neq_refl, ?andb_false_r; reflexivity.
  - change (size [b; total] =? 1) with false.
    change (size [b; total] =? 2) with true. cbv iota. unfold at_. cbn [nth].
    rewrite !neq_refl. reflexivity.
  - change (size [b; s; total] =? 1) with false.
    change (size [b; s; total] =? 2) with false.
    change (size [b; s; total] =? 3) with true. cbv iota. unfold at_. cbn [nth].
    rewrite !neq_refl. reflexivity.
  - change (size [b; 1; m; m] =? 1) with false.
    change (size [b; 1; m; m] =? 2) with false.
    change (size [b; 1; m; m] =? 3) with false.
    change (size [b; 1; m; m] =? 4) with true. cbv iota. unfold at_. cbn [nth].
    rewrite !neq_refl. cbn [orb].
    destruct (Z.ltb_spec m total) as [Hlt|_]; [lia|]. rewrite Hu. reflexivity.
Qed.

(** X22.  A mask of a legal shape never causes a rejection: when the call
    without a mask succeeds, the call with a mask whose shape is one of
    the legal ones for the batch size, the sequence length and the
    resolved total sequence length succeeds with the same resolved
    sizes, and the mask is kept. *)
Theorem a_legal_mask_is_accepted_and_kept :
  forall self indeterminate_v input_shape weights_shape bias_shape
         mk past extra_add_qk key value weight_key weight_value r,
    CheckInputs self indeterminate_v input_shape weights_shape bias_shape
      None past extra_add_qk key value weight_key weight_value = (None, Ok r) ->
    legal_mask_shape (is_unidirectional_ self)
      (at_ input_shape 0) (at_ input_shape 1) (total_sequence_length r) (Shape mk) ->
    CheckInputs self indeterminate_v input_shape weights_shape bias_shape
      (Some mk) past extra_add_qk key value weight_key weight_value
    = (Some mk, Ok r).
Proof.
  intros self g input_shape weights_shape bias_shape mk past extra
         key value wk wv r Hrun Hlegal.
  destruct (CheckInputs_ok_stages _ _ _ _ _ _ _ _ _ _ _ _ _ _ Hrun)
    as (b & s & d & Hshapes & Hresolve & Hsum & Hpast & _ & Hextra).
  destruct (check_shapes_ok _ _ _ _ _ _ _ _ Hshapes) as (_ & Hin & _).
  rewrite Hin in Hlegal. unfold at_ in Hlegal. cbn [nth] in Hlegal.
  unfold CheckInputs. rewrite Hshapes, Hresolve, Hsum, Hpast.
  rewrite (check_mask_index_legal self mk b s _ Hlegal), Hextra.
  destruct r; reflexivity.
Qed.

(** The theorem at a three-dimensional mask [[2; 3; 3]] for a batch of
    two sequences of length 3. *)
Lemma a_legal_mask_witness :
  CheckInputs explicit_4_4_4 0 [2; 3; 4] [4; 12] [12]
    (Some (mkTensor [2; 3; 3] 700)) None None None None None None
  = (Some (mkTensor [2; 3; 3] 700), Ok (mkResolved 4 4 4 3 3)).
Proof.
  apply (a_legal_mask_is_accepted_and_kept
           explicit_4_4_4 0 [2; 3; 4] [4; 12] [12]
           (mkTensor [2; 3; 3] 700) None None None None None None
           (mkResolved 4 4 4 3 3) eq_refl).
  right. right. left. reflexivity.
Defined.

End LegalMasks.

Section RePacking.
Import Attention.
Variable T : Type.
Variable ram : Z -> T.
Variable MlasGemmPackBSize : Z -> Z -> Z.
Variable MlasGemmPackB : Z -> Z -> (Z -> T) -> Z -> Z -> list byte -> list byte.

Local Abbreviation IsPackWeightsSuccessful :=
  (IsPackWeightsSuccessful T ram MlasGemmPackBSize MlasGemmPackB).

(** X23.  One pack that the operator keeps for itself.  For a branch in range
    and a packed size that is not zero, [IsPackWeightsSuccessful]
    succeeds; the slot of the branch then holds the new allocation, the
    other two slots are as they were, the packed size of one head is
    recorded, and the buffer the slot held before is released: the
    allocations live afterwards are the new one and those that were live
    before, except the one the slot held. *)
Theorem a_pack_replaces_the_buffer_of_its_slot :
  forall st h qkv_index alloc head_size input_hidden_size weights_data ldb,
    0 <= qkv_index < 3 ->
    MlasGemmPackBSize head_size input_hidden_size <> 0 ->
    exists st' h',
      IsPackWeightsSuccessful st h qkv_index alloc head_size input_hidden_size
        weights_data ldb None
      = Some (true, st', h', None)
      /\ get3 (packed_weights_ st') qkv_index = Some (Some (next_addr h))
      /\ get3 (packed_weights_size_ st') qkv_index
         = Some (MlasGemmPackBSize head_size input_hidden_size)
      /\ (forall j, 0 <= j < 3 -> j <> qkv_index ->
                    get3 (packed_weights_ st') j = get3 (packed_weights_ st) j)
      /\ (forall a,
             is_live h' a
             <-> (a = next_addr h \/ is_live h a)
                 /\ get3 (packed_weights_ st) qkv_index <> Some (Some a)).
Proof.
  intros st h i alloc hs D wd ldb Hi Hsize.
  unfold Attention.IsPackWeightsSuccessful.
  destruct (Z.eqb_spec (MlasGemmPackBSize hs D) 0) as [E|_]; [contradiction|].
  destruct (AllocArray alloc _ _ h) as [p h1] eqn:Halloc.
  assert (forall a, is_live h1 a <-> a = next_addr h \/ is_live h a) as Hl1.
  { intros a. rewrite <- is_live_AllocArray. rewrite Halloc. reflexivity. }
  assert (p = next_addr h) as Hp.
  { unfold AllocArray in Halloc. inversion Halloc. reflexivity. }
  assert (i = 0 \/ i = 1 \/ i = 2) as [ -> | [ -> | -> ] ] by lia.
  all: rewrite ?get3_0, ?get3_1, ?get3_2; cbn [mbind option_bind];
    rewrite ?set3_0, ?set3_1, ?set3_2; cbn [mbind option_bind];
    cbn [packed_weights_ packed_weights_size_ set_packed_weights_
           set_packed_weights_size_];
    rewrite ?set3_0, ?set3_1, ?set3_2; cbn [mbind option_bind].
  all: eexists _, _; split; [reflexivity|].
  all: cbn [packed_weights_ packed_weights_size_ set_packed_weights_
              set_packed_weights_size_].
  all: split; [subst p; reflexivity|]; split; [reflexivity|]; split.
  all: try (intros j Hj Hne;
            assert (j = 0 \/ j = 1 \/ j = 2) as [ -> | [ -> | -> ] ] by lia;
            try contradiction; reflexivity).
  all: intros a; rewrite is_live_poke, is_live_reset, is_live_poke, Hl1.
  all: split; intros [H1 H2]; (split; [exact H1|]); intros E; apply H2.
  all: first [ injection E as E; exact E | rewrite E; reflexivity ].
Qed.

End RePacking.

(** The theorem at the small vendor: the key slot holds allocation 2 of
    a heap whose next address is 7; after the pack it holds 7, and 2 is
    released. *)
Lemma a_pack_replaces_the_buffer_witness :
  exists st' h',
    Attention.IsPackWeightsSuccessful bool toy_ram toy_PackBSize toy_PackB
      (mkAttention scenario (mkArray3 None (Some 2%nat) None) (mkArray3 0 8 0)
         false [4; 12])
      busy_heap 1 toy_alloc 2 4 104 12 None
    = Some (true, st', h', None)
    /\ get3 (packed_weights_ st') 1 = Some (Some 7%nat)
    /\ ~ is_live h' 2%nat.
Proof.
  destruct (a_pack_replaces_the_buffer_of_its_slot
              bool toy_ram toy_PackBSize toy_PackB
              (mkAttention scenario (mkArray3 None (Some 2%nat) None)
                 (mkArray3 0 8 0) false [4; 12])
              busy_heap 1 toy_alloc 2 4 104 12)
    as (st' & h' & Hrun & Hslot & _ & _ & Hlive).
  - lia.
  - vm_compute. discriminate.
  - exists st', h'. split; [exact Hrun|]. split; [exact Hslot|].
    intros H. apply Hlive in H. destruct H as [_ H]. apply H. reflexivity.
Defined.

Section HandOver.
Import Attention.
Variable T : Type.
Variable ram : Z -> T.
Variable MlasGemm_packed :
  Z -> Z -> Z -> (Z -> T) -> Z -> Z -> list byte -> (Z -> T) -> Z -> Z -> (Z -> T).
Variable multiply_accumulate : T -> list T -> list T -> T.
Variable ApplyAttention :
  (Z -> T) -> Z -> Z -> Z -> option Tensor -> option Tensor -> option Tensor ->
  Z -> Z -> Z -> Z -> Z -> option Tensor -> OpKernelContext -> Result unit.

Local Abbreviation Compute_projection :=
  (Compute_projection T ram MlasGemm_packed multiply_accumulate).
Local Abbreviation Compute :=
  (Compute T ram MlasGemm_packed multiply_accumulate ApplyAttention).

(** X24.  What [Compute] hands to the scoring engine.  On the unpacked path,
    for operands that pass validation and offsets that fit the [int]
    variables of the loop: the output is requested with the
    shape [[batch; sequence; hidden_v]]; Q starts at the beginning of
    the scratch buffer, K after the [batch * sequence * hidden_q]
    elements of Q, V after the [batch * sequence * hidden_k] elements of
    K; the engine is given the effective mask of the validation, the
    past state and the extra additive bias of the call, the batch size,
    the sequence length, the head sizes of Q and V and [hidden_v]; and
    the status of [Compute] is the status of the engine. *)
Theorem Compute_hands_Q_K_V_to_the_engine :
  forall g st h indeterminate_v context gemm_data input weights bias mask' resolved,
    valid_geometry g ->
    offsets_fit_int g ->
    is_prepack_ st = false ->
    Input context 0 = Some input ->
    Input context 1 = Some weights ->
    Input context 2 = Some bias ->
    GetTempSpaceAllocator context = Ok tt ->
    describes (base st) input bias (Shape weights) g ->
    DataPtr weights = g_weights g ->
    AttentionBase.CheckInputs (base st) indeterminate_v (Shape input) (Shape weights)
      (Shape bias) (Input context 3) (Input context 4) (Input context 5)
      (Input context 6) (Input context 7) (Input context 8) (Input context 9)
    = (mask', Ok resolved) ->
    schedule context (3 * g_batch g * g_heads g)
      ≡ₚ seqZ 0 (3 * g_batch g * g_heads g) ->
    let rows := g_batch g * g_sequence g in
    let hidden_q := g_heads g * g_head_q g in
    let hidden_k := g_heads g * g_head_k g in
    let hidden_v := g_heads g * g_head_v g in
    exists projection,
      Compute_projection st h indeterminate_v context gemm_data
      = Some (Ok projection)
      /\ Compute st h indeterminate_v context gemm_data
         = Some (ApplyAttention (gemm_buffer T projection)
                   0 (rows * hidden_q) (rows * hidden_q + rows * hidden_k)
                   mask' (Input context 4)
                   (Output context 0 [g_batch g; g_sequence g; hidden_v])
                   (g_batch g) (g_sequence g) (g_head_q g) (g_head_v g) hidden_v
                   (Input context 5) context).
Proof.
  intros g st h gv context gemm_data input weights bias mask' resolved
         Hvalid Hfit Hflag H0 H1 H2 Halloc Hdesc Hptr Hcheck Hperm
         rows hidden_q hidden_k hidden_v.
  assert (HN : num_heads_ (base st) = g_heads g) by apply Hdesc.
  pose proof (qkv_unit_unpacked_meets_spec T ram MlasGemm_packed multiply_accumulate
                g Hvalid st h Hfit Hflag HN) as Hunit.
  assert (Hloop := Compute_projection_runs_loop T ram MlasGemm_packed
                     multiply_accumulate g Hvalid st h gv context gemm_data
                     input bias mask' resolved H0 H2 Halloc).
  rewrite Hflag, H1 in Hloop. cbn [fmap option_fmap option_map] in Hloop.
  rewrite Hptr in Hloop. specialize (Hloop Hdesc Hcheck). cbv zeta in Hloop.
  destruct (schedule_complete _ _ Hperm) as [Hall _].
  destruct (TryParallelFor_units T ram multiply_accumulate g Hvalid
              _ _ gemm_data Hunit Hall) as (mem & E & _).
  rewrite E in Hloop. cbn [mbind option_bind] in Hloop.
  eexists. split; [exact Hloop|].
  unfold Attention.Compute. rewrite Hloop. cbn [mbind option_bind].
  reflexivity.
Qed.

End HandOver.

(** The theorem at the scenario of the specification, with an engine
    that reports where it was told V starts: position 16 of the 24
    elements. *)
Lemma Compute_hands_over_witness :
  Attention.Compute bool toy_ram toy_Gemm_packed toy_multiply_accumulate
    (fun _ _ _ V _ _ _ _ _ _ _ _ _ _ => Error "V" [V])
    (constructed scenario) empty_heap 4 scenario_context (fun _ => false)
  = Some (Error "V" [16]).
Proof.
  destruct (Compute_hands_Q_K_V_to_the_engine
              bool toy_ram toy_Gemm_packed toy_multiply_accumulate
              (fun _ _ _ V _ _ _ _ _ _ _ _ _ _ => Error "V" [V])
              scenario_geometry (constructed scenario) empty_heap 4
              scenario_context (fun _ => false)
              scenario_input scenario_weights scenario_bias None
              (mkResolved 4 4 4 2 2))
    as (projection & _ & H).
  - exact scenario_geometry_valid.
  - exact scenario_offsets_fit.
  - reflexivity.
  - reflexivity.
  - reflexivity.
  - reflexivity.
  - reflexivity.
  - exact scenario_described.
  - reflexivity.
  - reflexivity.
  - symmetry. apply Permutation_rev.
  - exact H.
Defined.
